(** * Tennis-Stats: [analysis.py] and the commands of [tool.py]

    A shallow embedding of [analysis.py] (the part of the tool that loads the
    match table and computes per-match and season metrics) and of the three
    commands of [tool.py], together with the properties the specification
    states about the former and further properties of both.

    - Python [float] is IEEE binary64: Rocq's primitive [float], whose
      operations are specified by [FloatAxioms] against [SpecFloat].
    - Integer cells of the table are pandas' [int64]; column sums wrap
      around modulo 2^64 as numpy's do.  Lengths and counts are Python
      integers.
    - An exception is a value: functions that can raise return [outcome].
    - The pandas routines the module calls but does not define
      ([pd.to_datetime], [DataFrame.sort_values]) are the fields of the
      record [Pandas]; what pandas documents for the sort is
      [sort_values_contract].
    - A command of [tool.py] is the list of the effects it had (directory
      made, file written, lines printed, calls to [pyplot]) and the way it
      ended; [float.__repr__], which [json] calls, is a parameter. *)

From Stdlib Require Import ZArith List Bool String Ascii Floats Lia.
From Stdlib Require Import DecimalString.
From Stdlib Require Import Permutation Sorted.
Import ListNotations.

#[local] Open Scope Z_scope.
#[local] Set Warnings "-inexact-float".

(** ** Exceptions *)

Inductive exn : Set :=
| ZeroDivisionError   (* float division by zero *)
| OverflowError       (* float() of an int too large for a float *)
| ParseError.         (* pd.to_datetime on a string that is no date *)

Inductive outcome (A : Type) : Type :=
| Ok (a : A)
| Raise (e : exn).

Arguments Ok {A} a.
Arguments Raise {A} e.

Definition bind {A B : Type} (m : outcome A) (k : A -> outcome B) : outcome B :=
  match m with
  | Ok a => k a
  | Raise e => Raise e
  end.

Notation "x <- m ;; k" := (bind m (fun x => k))
  (at level 61, m at next level, right associativity).

(** ** Numbers

    The arguments of [_safe_div] are annotated [float].  The module itself
    passes table cells and column sums ([numpy.int64]) and counts of rows:
    [Int] is such an integer, one that is held in 64 bits, and its
    conversion to [float] cannot fail.  [PyLong] is a Python [int] of any
    size, as a caller from outside may pass it, and [Float] a [float]. *)

Inductive number : Set :=
| Int (z : Z)
| Float (f : float)
| PyLong (z : Z).

(** The binary64 value nearest to an integer, ties to even; an infinity
    from 2^1024 - 2^970 on in magnitude. *)
Definition float_of_Z (z : Z) : float :=
  SF2Prim (binary_normalize prec emax z 0 false).

(** The float a number converts to when it converts. *)
Definition float_value (x : number) : float :=
  match x with
  | Int z | PyLong z => float_of_Z z
  | Float f => f
  end.

(** [float(x)] fails on a Python [int] whose nearest binary64 value is not
    finite: CPython rounds the integer to 53 bits and raises
    [OverflowError] when the exponent is out of range. *)
Definition float_overflows (x : number) : bool :=
  match x with
  | PyLong z =>
      match Prim2SF (float_of_Z z) with
      | S754_infinity _ => true
      | _ => false
      end
  | _ => false
  end.

(** Python's [float(x)]. *)
Definition py_float (x : number) : outcome float :=
  if float_overflows x then Raise OverflowError else Ok (float_value x).

(** Truth value of a number, as in [if denominator]: nonzero.  For a float
    this is [x != 0.0], so both zeros are false and NaN is true. *)
Definition truthy (x : number) : bool :=
  match x with
  | Int z | PyLong z => negb (z =? 0)
  | Float f => negb (f =? 0)%float
  end.

(** Python's [a / b] on floats raises on a zero divisor of either sign. *)
Definition py_truediv (a b : float) : outcome float :=
  if (b =? 0)%float then Raise ZeroDivisionError else Ok (a / b)%float.

(** [analysis.py], lines 28-29.  The condition is evaluated first, then
    [float(numerator)], then [float(denominator)], then the quotient. *)
Definition _safe_div (numerator denominator : number) : outcome float :=
  if truthy denominator
  then n <- py_float numerator ;; d <- py_float denominator ;; py_truediv n d
  else Ok 0%float.

(** ** The match table *)

(** Nanoseconds since the epoch, the value of a [datetime64[ns]] cell.  The
    missing value [NaT], which pandas makes of an empty date cell, is not
    part of the model. *)
Definition Timestamp := Z.

(** One row of the table.  [D] is the type of the date cell: a [string] as
    read from the CSV file, a [Timestamp] once [load_matches] parsed it. *)
Record Row (D : Type) : Type := mkRow {
  date : D;
  result : string;
  opponent : string;
  surface : string;
  score : string;
  aces : Z;
  double_faults : Z;
  first_serve_in : Z;
  first_serve_total : Z;
  first_serve_points_won : Z;
  first_serve_points_total : Z;
  second_serve_points_won : Z;
  second_serve_points_total : Z;
  break_points_saved : Z;
  break_points_faced : Z
}.

Arguments mkRow {D}.
Arguments date {D} r.
Arguments result {D} r.
Arguments opponent {D} r.
Arguments surface {D} r.
Arguments score {D} r.
Arguments aces {D} r.
Arguments double_faults {D} r.
Arguments first_serve_in {D} r.
Arguments first_serve_total {D} r.
Arguments first_serve_points_won {D} r.
Arguments first_serve_points_total {D} r.
Arguments second_serve_points_won {D} r.
Arguments second_serve_points_total {D} r.
Arguments break_points_saved {D} r.
Arguments break_points_faced {D} r.

Definition DataFrame := list (Row Timestamp).

(** The dictionary [compute_match_metrics] returns: four keys. *)
Module Metrics.
Record t : Set := mk {
  first_serve_pct : float;
  first_serve_pts_won_pct : float;
  second_serve_pts_won_pct : float;
  break_points_saved_pct : float
}.
End Metrics.

(** The dataclass [Summary], lines 14-25. *)
Module Summary.
Record t : Set := mk {
  matches : Z;
  wins : Z;
  losses : Z;
  win_rate : float;
  avg_aces : float;
  avg_double_faults : float;
  first_serve_pct : float;
  first_serve_pts_won_pct : float;
  second_serve_pts_won_pct : float;
  break_points_saved_pct : float
}.
End Summary.

(** ** Columns *)

(** [df[name]] *)
Definition col {D A : Type} (f : Row D -> A) (df : list (Row D)) : list A :=
  map f df.

(** The int64 value congruent to [z] modulo 2^64. *)
Definition wrap64 (z : Z) : Z := (z + 2 ^ 63) mod 2 ^ 64 - 2 ^ 63.

(** [Series.sum()] of an int64 column: the accumulator is an int64. *)
Definition Series_sum (xs : list Z) : Z :=
  fold_left (fun acc x => wrap64 (acc + x)) xs 0.

(** [Series.mean()] of an int64 column: the cells are added as float64 and
    the total is divided by the number of cells; NaN for an empty column.
    In which order and grouping the cells are added is the library's
    business: numpy adds eight cells or more pairwise, in blocks, and
    pandas hands the column to bottleneck instead when that is installed.
    The model adds them from left to right.  The float64 total depends on
    the order and the grouping only where it is not exact, and then only
    in its last bits: what is stated below of an average is stated where
    no order or grouping can change it, see [tree_sum] and
    [tree_sum_exact], or up to the distance that the roundings of the
    additions can make, see [tree_total_near]. *)
Definition Series_mean (xs : list Z) : float :=
  match xs with
  | [] => nan
  | _ => (fold_left (fun acc x => acc + float_of_Z x) xs 0 / float_of_Z (Z.of_nat (List.length xs)))%float
  end.

(** [column == s] *)
Definition Series_eq (xs : list string) (s : string) : list bool :=
  map (fun x => String.eqb x s) xs.

(** [.sum()] of a boolean column: how many cells are true. *)
Definition bool_sum (bs : list bool) : Z :=
  fold_left (fun acc (b : bool) => if b then acc + 1 else acc) bs 0.

(** ** Metrics *)

(** [analysis.py], lines 45-55. *)
Definition compute_match_metrics {D : Type} (row : Row D) : outcome Metrics.t :=
  first_serve_pct <- _safe_div (Int (first_serve_in row)) (Int (first_serve_total row)) ;;
  first_pts_won_pct <- _safe_div (Int (first_serve_points_won row)) (Int (first_serve_points_total row)) ;;
  second_pts_won_pct <- _safe_div (Int (second_serve_points_won row)) (Int (second_serve_points_total row)) ;;
  bp_saved_pct <- _safe_div (Int (break_points_saved row)) (Int (break_points_faced row)) ;;
  Ok (Metrics.mk first_serve_pct first_pts_won_pct second_pts_won_pct bp_saved_pct).

(** [analysis.py], lines 58-85. *)
Definition compute_summary {D : Type} (df : list (Row D)) : outcome Summary.t :=
  let matches := Z.of_nat (List.length df) in
  let wins := bool_sum (Series_eq (col result df) "W") in
  let losses := bool_sum (Series_eq (col result df) "L") in
  win_rate <- _safe_div (Int wins) (Int matches) ;;
  let avg_aces := if truthy (Int matches) then Series_mean (col aces df) else 0%float in
  let avg_double_faults :=
    if truthy (Int matches) then Series_mean (col double_faults df) else 0%float in
  first_serve_pct <-
    _safe_div (Int (Series_sum (col first_serve_in df)))
              (Int (Series_sum (col first_serve_total df))) ;;
  first_pts_won_pct <-
    _safe_div (Int (Series_sum (col first_serve_points_won df)))
              (Int (Series_sum (col first_serve_points_total df))) ;;
  second_pts_won_pct <-
    _safe_div (Int (Series_sum (col second_serve_points_won df)))
              (Int (Series_sum (col second_serve_points_total df))) ;;
  bp_saved_pct <-
    _safe_div (Int (Series_sum (col break_points_saved df)))
              (Int (Series_sum (col break_points_faced df))) ;;
  Ok (Summary.mk matches wins losses win_rate avg_aces avg_double_faults
        first_serve_pct first_pts_won_pct second_pts_won_pct bp_saved_pct).

(** ** Strings

    The result codes are ASCII text: a character is an [ascii] code point below
    128, on which [str.upper] maps a-z to A-Z and [str.strip] removes the
    characters [str.isspace] accepts. *)

Definition chr_upper (c : ascii) : ascii :=
  let n := nat_of_ascii c in
  if ((97 <=? n) && (n <=? 122))%nat then ascii_of_nat (n - 32) else c.

Definition chr_isspace (c : ascii) : bool :=
  let n := nat_of_ascii c in
  (((9 <=? n) && (n <=? 13)) || ((28 <=? n) && (n <=? 32)))%nat.

Definition chr_islower (c : ascii) : bool :=
  let n := nat_of_ascii c in ((97 <=? n) && (n <=? 122))%nat.

(** [s.upper()] *)
Fixpoint str_upper (s : string) : string :=
  match s with
  | EmptyString => EmptyString
  | String c s' => String (chr_upper c) (str_upper s')
  end.

Fixpoint str_lstrip (s : string) : string :=
  match s with
  | EmptyString => EmptyString
  | String c s' => if chr_isspace c then str_lstrip s' else s
  end.

Fixpoint str_rstrip (s : string) : string :=
  match s with
  | EmptyString => EmptyString
  | String c s' =>
      match str_rstrip s' with
      | EmptyString => if chr_isspace c then EmptyString else String c EmptyString
      | t => String c t
      end
  end.

(** [s.strip()] *)
Definition str_strip (s : string) : string := str_lstrip (str_rstrip s).

(** ** The pandas routines [analysis.py] calls

    [to_datetime] is [pd.to_datetime] on one string: the timestamp it
    parses to, or [None] where there is none.  Where there is none pandas
    raises, except on the strings it reads as the missing date [NaT]
    (the empty string and the names of [NaT]), which [nat_string] tells.
    [sort_values] is [DataFrame.sort_values("date")] with the default
    [kind="quicksort"], followed by [reset_index(drop=True)], which
    renumbers the rows and so is the identity on a list. *)

Record Pandas : Type := {
  to_datetime : string -> option Timestamp;
  nat_string : string -> bool;
  sort_values : DataFrame -> DataFrame
}.

(** The order of two rows by date. *)
Definition by_date (a b : Row Timestamp) : Prop := date a <= date b.

(** What pandas documents for [sort_values] with the default [kind]: the
    rows of the argument, ascending in the key.  The default algorithm is
    not documented to be stable (only [mergesort] and [stable] are). *)
Definition sort_values_contract (P : Pandas) : Prop :=
  forall df : DataFrame,
    Permutation df (sort_values P df) /\ Sorted by_date (sort_values P df).

Definition set_date {D D' : Type} (d : D') (r : Row D) : Row D' :=
  mkRow d (result r) (opponent r) (surface r) (score r) (aces r)
    (double_faults r) (first_serve_in r) (first_serve_total r)
    (first_serve_points_won r) (first_serve_points_total r)
    (second_serve_points_won r) (second_serve_points_total r)
    (break_points_saved r) (break_points_faced r).

Definition set_result {D : Type} (s : string) (r : Row D) : Row D :=
  mkRow (date r) s (opponent r) (surface r) (score r) (aces r)
    (double_faults r) (first_serve_in r) (first_serve_total r)
    (first_serve_points_won r) (first_serve_points_total r)
    (second_serve_points_won r) (second_serve_points_total r)
    (break_points_saved r) (break_points_faced r).

(** [df["date"] = pd.to_datetime(df["date"], errors="raise")].  pandas
    reads the cells of a column in one format, the one it infers from the
    first cell: [to_datetime] stands for the parser of that format, and
    the CSV files meant are those written in one format.  A cell that reads
    as [NaT] would leave a missing date in the column, which the table of
    this model cannot hold (see [Timestamp]): such a file is outside the
    model, and the model treats the cell like one that does not parse. *)
Fixpoint parse_dates (P : Pandas) (df : list (Row string)) : outcome DataFrame :=
  match df with
  | [] => Ok []
  | r :: rest =>
      match to_datetime P (date r) with
      | None => Raise ParseError
      | Some d => rest' <- parse_dates P rest ;; Ok (set_date d r :: rest')
      end
  end.

(** [df["result"] = df["result"].str.upper().str.strip()] *)
Definition normalize_results {D : Type} (df : list (Row D)) : list (Row D) :=
  map (fun r => set_result (str_strip (str_upper (result r))) r) df.

(** [analysis.py], lines 32-42; the argument is the table [pd.read_csv]
    returns. *)
Definition load_matches (P : Pandas) (csv : list (Row string)) : outcome DataFrame :=
  df <- parse_dates P csv ;;
  let df := normalize_results df in
  Ok (sort_values P df).

(** [analysis.py], lines 88-93.  On a string that [pd.to_datetime] reads
    as [NaT] nothing is raised: [NaT] equals no date, so [hit] is empty. *)
Definition find_match_by_date (P : Pandas) (df : DataFrame) (date_str : string)
  : outcome (option (Row Timestamp)) :=
  match to_datetime P date_str with
  | None => if nat_string P date_str then Ok None else Raise ParseError
  | Some d =>
      let hit := filter (fun r => date r =? d) df in
      match hit with
      | [] => Ok None
      | r :: _ => Ok (Some r)
      end
  end.

(** ** Implementations of the pandas routines

    [iso_date] reads the format of the tool's CSV files, [YYYY-MM-DD];
    [pd.to_datetime] reads other formats too.  The implementations below
    read this format only: they stand for pandas on CSV files and
    arguments written in it, and the examples give them no other string
    than such dates, the strings pandas reads as [NaT], and text pandas
    rejects as well.
    [isort] is an insertion sort: with [Z.leb] it keeps rows of equal date
    in their order, with [Z.ltb] it reverses them; both meet
    [sort_values_contract].  [Npysort] is the sort pandas runs for
    [kind="quicksort"]. *)

Definition digit (c : ascii) : option Z :=
  let n := nat_of_ascii c in
  if ((48 <=? n) && (n <=? 57))%nat then Some (Z.of_nat (n - 48)) else None.

Definition is_leap (y : Z) : bool :=
  (y mod 4 =? 0) && (negb (y mod 100 =? 0) || (y mod 400 =? 0)).

Definition days_in_month (y m : Z) : Z :=
  if m =? 2 then (if is_leap y then 29 else 28)
  else if (m =? 4) || (m =? 6) || (m =? 9) || (m =? 11) then 30
  else 31.

(** Days from 1970-01-01 to the given day of the Gregorian calendar. *)
Definition days_from_civil (y m d : Z) : Z :=
  let y' := if m <=? 2 then y - 1 else y in
  let era := y' / 400 in
  let yoe := y' - era * 400 in
  let mp := (m + 9) mod 12 in
  let doy := (153 * mp + 2) / 5 + d - 1 in
  let doe := yoe * 365 + yoe / 4 - yoe / 100 + doy in
  era * 146097 + doe - 719468.

Definition obind {A B : Type} (o : option A) (k : A -> option B) : option B :=
  match o with
  | Some a => k a
  | None => None
  end.

(** A date [YYYY-MM-DD] of the Gregorian calendar as a timestamp: midnight
    of that day.  The years are those a [datetime64[ns]] holds in full,
    1678 to 2261; pandas raises on a date outside its range. *)
Definition iso_date (s : string) : option Timestamp :=
  match list_ascii_of_string s with
  | [y1; y2; y3; y4; "-"%char; m1; m2; "-"%char; d1; d2] =>
      obind (digit y1) (fun a => obind (digit y2) (fun b =>
      obind (digit y3) (fun c => obind (digit y4) (fun e =>
      obind (digit m1) (fun f => obind (digit m2) (fun g =>
      obind (digit d1) (fun h => obind (digit d2) (fun i =>
        let y := 1000 * a + 100 * b + 10 * c + e in
        let m := 10 * f + g in
        let d := 10 * h + i in
        if (1678 <=? y) && (y <=? 2261)
           && (1 <=? m) && (m <=? 12) && (1 <=? d) && (d <=? days_in_month y m)
        then Some (days_from_civil y m d * 86400000000000)
        else None))))))))
  | _ => None
  end.

Fixpoint insert_by (before : Z -> Z -> bool) (x : Row Timestamp) (l : DataFrame)
  : DataFrame :=
  match l with
  | [] => [x]
  | y :: l' => if before (date x) (date y) then x :: l else y :: insert_by before x l'
  end.

Definition isort (before : Z -> Z -> bool) (df : DataFrame) : DataFrame :=
  fold_right (insert_by before) [] df.

(** The strings [pd.to_datetime] reads as [NaT]: the empty string and
    pandas' [nat_strings]. *)
Definition nat_strings (s : string) : bool :=
  existsb (String.eqb s)
    [EmptyString; "NaT"; "nat"; "NAT"; "nan"; "NaN"; "NAN"]%string.

Definition pandas_stable : Pandas :=
  {| to_datetime := iso_date; nat_string := nat_strings; sort_values := isort Z.leb |}.

Definition pandas_reversing : Pandas :=
  {| to_datetime := iso_date; nat_string := nat_strings; sort_values := isort Z.ltb |}.

(** numpy's indirect quicksort ([npysort/quicksort], [aquicksort]), which
    [sort_values] reaches through [argsort(kind="quicksort")]: an introsort
    on the array [tosort] of row numbers, comparing the keys [v] they point
    to.  A range of more than 17 cells is partitioned around the median of
    its first, middle and last key; a shorter one is sorted by insertion;
    a range popped from the stack after the depth budget ran out is sorted
    by [aheapsort].  The loops of the C code are recursions on a counter
    that is at least the number of their iterations. *)
Module Npysort.
Section Keys.

Variable v : list Z.

(** [tosort[p]], [tosort[p] = x] and [v[tosort[p]]] *)
Definition rd (tosort : list nat) (p : nat) : nat := nth p tosort 0%nat.

Fixpoint wr (p x : nat) (tosort : list nat) : list nat :=
  match tosort, p with
  | [], _ => []
  | _ :: rest, O => x :: rest
  | y :: rest, S p' => y :: wr p' x rest
  end.

Definition key (tosort : list nat) (p : nat) : Z := nth (rd tosort p) v 0.

(** [INTP_SWAP] of the cells [p] and [q] *)
Definition swap (p q : nat) (tosort : list nat) : list nat :=
  wr q (rd tosort p) (wr p (rd tosort q) tosort).

(** [INTP_SWAP] of the cells [p] and [q] if the key of [p] is the smaller *)
Definition swap_if_less (p q : nat) (tosort : list nat) : list nat :=
  if key tosort p <? key tosort q then swap p q tosort else tosort.

(** [do ++pi; while (LT(v[*pi], vp))] *)
Fixpoint scan_up (n : nat) (tosort : list nat) (vp : Z) (pi : nat) : nat :=
  match n with
  | O => S pi
  | S n' => if key tosort (S pi) <? vp then scan_up n' tosort vp (S pi) else S pi
  end.

(** [do --pj; while (LT(vp, v[*pj]))] *)
Fixpoint scan_down (n : nat) (tosort : list nat) (vp : Z) (pj : nat) : nat :=
  match n with
  | O => pred pj
  | S n' => if vp <? key tosort (pred pj) then scan_down n' tosort vp (pred pj) else pred pj
  end.

(** The partition loop: the two scans, then a swap unless they met. *)
Fixpoint partition (n : nat) (tosort : list nat) (vp : Z) (pi pj : nat)
  : list nat * nat :=
  match n with
  | O => (tosort, pi)
  | S n' =>
      let pi' := scan_up (List.length tosort) tosort vp pi in
      let pj' := scan_down (List.length tosort) tosort vp pj in
      if (pj' <=? pi')%nat then (tosort, pi')
      else partition n' (swap pi' pj' tosort) vp pi' pj'
  end.

(** [while (pj > pl && LT(vp, v[*pk])) *pj-- = *pk--;] then [*pj = vi] *)
Fixpoint shift (n : nat) (tosort : list nat) (vi : nat) (vp : Z) (pl pj : nat)
  : list nat :=
  match n with
  | O => wr pj vi tosort
  | S n' =>
      if (pl <? pj)%nat && (vp <? key tosort (pred pj))
      then shift n' (wr pj (rd tosort (pred pj)) tosort) vi vp pl (pred pj)
      else wr pj vi tosort
  end.

(** The insertion sort: [for (pi = pl + 1; pi <= pr; ++pi)]. *)
Fixpoint insertion (n : nat) (tosort : list nat) (pl pi : nat) : list nat :=
  match n with
  | O => tosort
  | S n' =>
      insertion n'
        (shift (List.length tosort) tosort (rd tosort pi) (key tosort pi) pl pi)
        pl (S pi)
  end.

(** [aheapsort] on the [n] cells from [pl] on; its array [a] is offset by
    one, [a[k]] being the cell [pl + k - 1]. *)
Definition hrd (tosort : list nat) (pl k : nat) : nat := rd tosort (pl + k - 1).

Definition hkey (tosort : list nat) (pl k : nat) : Z := nth (hrd tosort pl k) v 0.

Definition hwr (pl k x : nat) (tosort : list nat) : list nat := wr (pl + k - 1) x tosort.

(** [for (; j <= n;)]: the larger child moves up while it is above [tmp]. *)
Fixpoint sift (c : nat) (tosort : list nat) (pl n tmp i j : nat) : list nat :=
  match c with
  | O => hwr pl i tmp tosort
  | S c' =>
      if (j <=? n)%nat then
        let j := if (j <? n)%nat && (hkey tosort pl j <? hkey tosort pl (S j))
                 then S j else j in
        if nth tmp v 0 <? hkey tosort pl j
        then sift c' (hwr pl i (hrd tosort pl j) tosort) pl n tmp j (j + j)
        else hwr pl i tmp tosort
      else hwr pl i tmp tosort
  end.

(** [for (l = n >> 1; l > 0; --l)] *)
Fixpoint heapify (l : nat) (tosort : list nat) (pl n : nat) : list nat :=
  match l with
  | O => tosort
  | S l' => heapify l' (sift n tosort pl n (hrd tosort pl l) l (l + l)) pl n
  end.

(** [for (; n > 1;)] *)
Fixpoint extract (c : nat) (tosort : list nat) (pl n : nat) : list nat :=
  match c with
  | O => tosort
  | S c' =>
      if (1 <? n)%nat then
        let tmp := hrd tosort pl n in
        let tosort := hwr pl n (hrd tosort pl 1) tosort in
        let n := pred n in
        extract c' (sift n tosort pl n tmp 1 2) pl n
      else tosort
  end.

Definition aheapsort (tosort : list nat) (pl n : nat) : list nat :=
  extract n (heapify (Nat.div2 n) tosort pl n) pl n.

(** The range [pl..pr] and the ranges split off it.  [popped] tells a range
    taken from the stack, the only place where the depth is tested; of the
    two parts of a partition the smaller is sorted next and the larger is
    the one pushed. *)
Fixpoint aquicksort_range (n : nat) (popped : bool) (tosort : list nat)
    (pl pr : nat) (cdepth : Z) : list nat :=
  match n with
  | O => tosort
  | S n' =>
      if popped && (cdepth <? 0) then aheapsort tosort pl (pr - pl + 1)
      else if (16 <? pr - pl)%nat then
        let pm := (pl + Nat.div2 (pr - pl))%nat in
        let tosort := swap_if_less pm pl tosort in
        let tosort := swap_if_less pr pm tosort in
        let tosort := swap_if_less pm pl tosort in
        let vp := key tosort pm in
        let tosort := swap pm (pred pr) tosort in
        let '(tosort, pi) := partition (List.length tosort) tosort vp pl (pred pr) in
        let tosort := swap pi (pred pr) tosort in
        let cdepth := cdepth - 1 in
        if (pi - pl <? pr - pi)%nat then
          let tosort := aquicksort_range n' false tosort pl (pred pi) cdepth in
          aquicksort_range n' true tosort (S pi) pr cdepth
        else
          let tosort := aquicksort_range n' false tosort (S pi) pr cdepth in
          aquicksort_range n' true tosort pl (pred pi) cdepth
      else insertion (pr - pl) tosort pl (S pl)
  end.

(** [aquicksort(v, tosort, num)] on [tosort = 0, 1, ..., num - 1], with the
    depth budget [2 * npy_get_msb(num)]. *)
Definition aquicksort (num : nat) : list nat :=
  match num with
  | O => []
  | _ => aquicksort_range num true (seq 0 num) 0 (num - 1)
           (2 * Z.log2 (Z.of_nat num))
  end.

End Keys.

(** [v.argsort(kind="quicksort")] *)
Definition argsort (v : list Z) : list nat := aquicksort v (List.length v).

End Npysort.

(** [df.sort_values("date")]: the rows taken in the order of [argsort]. *)
Definition numpy_sort_values (df : DataFrame) : DataFrame :=
  match df with
  | [] => []
  | r :: _ => map (fun i => nth i df r) (Npysort.argsort (col date df))
  end.

Definition pandas_numpy : Pandas :=
  {| to_datetime := iso_date; nat_string := nat_strings;
     sort_values := numpy_sort_values |}.

(** ** Vocabulary of the properties *)

(** The float [_safe_div] returns when it returns. *)
Definition safe_div_value (n d : number) : float :=
  if truthy d then (float_value n / float_value d)%float else 0%float.

(** The numbers a call of [_safe_div] can be given: an [Int] is an int64. *)
Definition well_formed (x : number) : Prop :=
  match x with
  | Int z => - 2 ^ 63 <= z < 2 ^ 63
  | _ => True
  end.

(** The exact sum of a column of integers. *)
Definition Zsum (xs : list Z) : Z := fold_right Z.add 0 xs.

(** The integers an int64 cell holds. *)
Definition int64 (z : Z) : Prop := - 2 ^ 63 <= z < 2 ^ 63.

(** A rate between 0.0 and 1.0. *)
Definition unit_interval (f : float) : Prop :=
  (0 <=? f)%float = true /\ (f <=? 1)%float = true.

(** A counter as the specification's data model has it: a non-negative
    integer that fits an int64 cell. *)
Definition counter (z : Z) : Prop := 0 <= z < 2 ^ 63.

(** The eight counters the rates are computed from are valid counters. *)
Definition counters_valid {D : Type} (r : Row D) : Prop :=
  counter (first_serve_in r) /\ counter (first_serve_total r) /\
  counter (first_serve_points_won r) /\ counter (first_serve_points_total r) /\
  counter (second_serve_points_won r) /\ counter (second_serve_points_total r) /\
  counter (break_points_saved r) /\ counter (break_points_faced r).

(** How many rows have the result code [s]. *)
Definition count_result {D : Type} (s : string) (df : list (Row D)) : Z :=
  Z.of_nat (List.length (filter (fun r => String.eqb (result r) s) df)).

(** Rows of equal date come in [output] in the order they have in [input]. *)
Definition date_stable (input output : DataFrame) : Prop :=
  forall d : Timestamp,
    filter (fun r => date r =? d) output = filter (fun r => date r =? d) input.

(** The row [load_matches] makes of the CSV row [raw]: the date parsed, the
    result code in upper case and stripped, every other cell unchanged. *)
Definition row_loaded (P : Pandas) (raw : Row string) (r : Row Timestamp) : Prop :=
  to_datetime P (date raw) = Some (date r) /\
  r = set_date (date r) (set_result (str_strip (str_upper (result raw))) raw).

(** A column whose float64 running sums are all exact: non-negative cells
    with a total below 2^53. *)
Definition exact_column (xs : list Z) : Prop :=
  Forall (fun x => 0 <= x) xs /\ Zsum xs < 2 ^ 53.

(** A way of adding the cells of a column: the order and the grouping of
    the float64 additions. *)
Inductive sum_tree : Set :=
| Leaf (x : Z)
| Node (l r : sum_tree).

Fixpoint tree_cells (t : sum_tree) : list Z :=
  match t with
  | Leaf x => [x]
  | Node l r => tree_cells l ++ tree_cells r
  end.

Fixpoint tree_sum (t : sum_tree) : float :=
  match t with
  | Leaf x => float_of_Z x
  | Node l r => (tree_sum l + tree_sum r)%float
  end.

Fixpoint str_forallb (p : ascii -> bool) (s : string) : bool :=
  match s with
  | EmptyString => true
  | String c s' => p c && str_forallb p s'
  end.

(** Text of ASCII characters only, on which [str_upper] and [str_strip]
    are [str.upper] and [str.strip]. *)
Definition is_ascii (s : string) : bool :=
  str_forallb (fun c => (nat_of_ascii c <? 128)%nat) s.

Fixpoint str_last (s : string) : option ascii :=
  match s with
  | EmptyString => None
  | String c EmptyString => Some c
  | String _ s' => str_last s'
  end.

Definition str_first (s : string) : option ascii :=
  match s with
  | EmptyString => None
  | String c _ => Some c
  end.

Definition not_space (o : option ascii) : bool :=
  match o with
  | Some c => negb (chr_isspace c)
  | None => true
  end.

(** A result code in the form [load_matches] leaves it: no lower-case
    letter, no white space at either end. *)
Definition normalized (s : string) : bool :=
  str_forallb (fun c => negb (chr_islower c)) s
  && not_space (str_first s) && not_space (str_last s).

(** Three matches, the first with 2^53 aces: the float64 sum of the aces
    column depends on the order of the rows. *)
Definition many_aces (n : Z) : Row unit :=
  mkRow tt "W" "" "" "" n 0 0 0 0 0 0 0 0 0.

(** Three matches of 2^62 first serves each; in the third none was in. *)
Definition many_serves (first_in : Z) : Row unit :=
  mkRow tt "W" "" "" "" 0 0 first_in (2 ^ 62) 0 0 0 0 0 0.

Definition long_season : list (Row unit) :=
  [many_serves (2 ^ 62); many_serves (2 ^ 62); many_serves 0].

(** A CSV row with the given date, result and opponent. *)
Definition csv_row (d r o : string) : Row string :=
  mkRow d r o "hard" "6-4 6-4" 5 1 40 50 30 40 10 20 6 8.

(** The same row once loaded. *)
Definition table_row (d : Timestamp) (r o : string) : Row Timestamp :=
  mkRow d r o "hard" "6-4 6-4" 5 1 40 50 30 40 10 20 6 8.

(** Eighteen matches of one day, named by their opponents. *)
Definition one_day_csv (opponents : list string) : list (Row string) :=
  map (csv_row "2025-10-08" "W") opponents.

Definition one_day_table (opponents : list string) : DataFrame :=
  map (table_row 1759881600000000000 "W") opponents.

Definition eighteen : list string :=
  ["A"; "B"; "C"; "D"; "E"; "F"; "G"; "H"; "I"; "J"; "K"; "L"; "M"; "N"; "O";
   "P"; "Q"; "R"]%string.

(** The eighteen in the order numpy's quicksort leaves them in. *)
Definition eighteen_quicksorted : list string :=
  ["A"; "P"; "O"; "N"; "M"; "L"; "K"; "J"; "I"; "H"; "G"; "F"; "E"; "D"; "C";
   "B"; "Q"; "R"]%string.

(** ** The rows of the repository's tests ([tests/test_analysis.py]) *)

Definition test_row_1 : Row unit :=
  mkRow tt "W" "" "" "" 5 1 40 50 30 40 10 20 6 8.

Definition test_row_2 : Row unit :=
  mkRow tt "L" "" "" "" 1 3 30 60 18 30 12 30 2 6.

(** In each of the four pairs of counters the successes are between zero
    and the attempts. *)
Definition rates_valid {D : Type} (r : Row D) : Prop :=
  0 <= first_serve_in r <= first_serve_total r /\
  0 <= first_serve_points_won r <= first_serve_points_total r /\
  0 <= second_serve_points_won r <= second_serve_points_total r /\
  0 <= break_points_saved r <= break_points_faced r.

(** [math.isfinite]: neither NaN nor an infinity. *)
Definition isfinite (f : float) : bool :=
  match Prim2SF f with
  | S754_zero _ | S754_finite _ _ _ => true
  | S754_infinity _ | S754_nan => false
  end.

(** The ten integer cells of a row fit an int64. *)
Definition cells_int64 {D : Type} (r : Row D) : Prop :=
  int64 (aces r) /\ int64 (double_faults r) /\
  int64 (first_serve_in r) /\ int64 (first_serve_total r) /\
  int64 (first_serve_points_won r) /\ int64 (first_serve_points_total r) /\
  int64 (second_serve_points_won r) /\ int64 (second_serve_points_total r) /\
  int64 (break_points_saved r) /\ int64 (break_points_faced r).

(** A season of three wins. *)
Definition three_wins : list (Row unit) :=
  [test_row_1; test_row_1; test_row_1].

(** ** Binary64 rounding, spelled out

    [binary_round_aux] of [SpecFloat] on a mantissa of at least 53 digits
    in the normal range; the lemmas below prove the equations. *)

(** The first shift of [binary_round_aux]: the mantissa is cut to 53
    digits, the location recording what was cut. *)
Definition cut53 (m : Z) (l : location) : Z * location :=
  let n := Zdigits2 m - 53 in
  if n <=? 0 then (m, l)
  else
    let mrs := shr_record_of_loc m l in
    (m / 2 ^ n,
     loc_of_shr_record
       (Build_shr_record (m / 2 ^ n) (Z.odd (m / 2 ^ (n - 1)))
          (shr_r mrs || shr_s mrs || negb (m mod 2 ^ (n - 1) =? 0)))).

Definition round53 (sx : bool) (m e : Z) (l : location) : spec_float :=
  let n := Z.max (Zdigits2 m - 53) 0 in
  let '(m1, l1) := cut53 m l in
  let m2 := round_nearest_even m1 l1 in
  let '(m3, e3) := if m2 <? 2 ^ 53 then (m2, e + n) else (2 ^ 52, e + n + 1) in
  if e3 <=? 971 then S754_finite sx (Z.to_pos m3) e3 else S754_infinity sx.

(** The binary64 value of an integer, as a [spec_float]. *)
Definition SFint (z : Z) : spec_float := binary_normalize prec emax z 0 false.

(** The mantissa and exponent [binary_round] hands to [binary_round_aux]
    for [m * 2^e]: the mantissa is padded to at least 53 digits. *)
Definition align53 (m e : Z) : Z * Z :=
  let d := Zdigits2 m in (m * 2 ^ Z.max (53 - d) 0, e + Z.min (d - 53) 0).

(** The normal form of a positive integer below 2^53. *)
Definition SFexact (sx : bool) (v : Z) : spec_float :=
  S754_finite sx (Z.to_pos (v * 2 ^ (53 - Zdigits2 v))) (Zdigits2 v - 53).

(** [p / 2^k] rounded to the nearest integer, ties to even. *)
Definition rne (p k : Z) : Z :=
  let q := p / 2 ^ k in
  let r := p mod 2 ^ k in
  if (2 ^ k <? 2 * r) || ((2 ^ k =? 2 * r) && Z.odd q) then q + 1 else q.

(** Mantissa and exponent of the binary64 value of a positive integer. *)
Definition fl_mant (z : Z) : Z :=
  let d := Zdigits2 z in
  if d <=? 53 then z * 2 ^ (53 - d) else rne z (d - 53).

Definition fl_parts (z : Z) : Z * Z :=
  let d := Zdigits2 z in
  let m := fl_mant z in
  if m <? 2 ^ 53 then (m, d - 53) else (2 ^ 52, d - 52).

(** Order of two positive normal numbers given by mantissa and exponent. *)
Definition parts_le (x y : Z * Z) : Prop :=
  snd x < snd y \/ (snd x = snd y /\ fst x <= fst y).

(** ** The quotient of two binary64 numbers, spelled out *)

(** [N / D] rounded to the nearest integer, ties to even. *)
Definition RNdiv (N D : Z) : Z :=
  let q := N / D in
  let r := N mod D in
  if (D <? 2 * r) || ((D =? 2 * r) && Z.odd q) then q + 1 else q.

(** The number [M * 2^E] for a rounded mantissa [2^52 <= M <= 2^53]: a
    mantissa that reached 2^53 is carried into the exponent. *)
Definition norm53 (s : bool) (M E : Z) : spec_float :=
  if M <? 2 ^ 53 then S754_finite s (Z.to_pos M) E
  else S754_finite s (Z.to_pos (2 ^ 52)) (E + 1).

(** Mantissa, before the carry, and exponent of [float(n) / float(d)] for
    two positive integers. *)
Definition div_parts (n d : Z) : Z * Z :=
  let a := fst (fl_parts n) in
  let b := fst (fl_parts d) in
  let e := snd (fl_parts n) - snd (fl_parts d) in
  if a <? b then (RNdiv (a * 2 ^ 53) b, e - 53) else (RNdiv (a * 2 ^ 52) b, e - 52).

(** ** Sums of a column in any order and grouping *)

(** The integer that [float] makes of a non-negative integer: the integer
    itself below 2^53, and beyond it the nearest integer of 53 significant
    bits, ties to even. *)
Definition round53Z (z : Z) : Z :=
  if snd (fl_parts z) <? 0 then z else fst (fl_parts z) * 2 ^ snd (fl_parts z).

(** How many cells a sum adds. *)
Fixpoint leaves (t : sum_tree) : Z :=
  match t with
  | Leaf _ => 1
  | Node l r => leaves l + leaves r
  end.

(** The cells added one after the other, from the left, to the sum [t]. *)
Definition comb (t : sum_tree) (xs : list Z) : sum_tree :=
  fold_left (fun t x => Node t (Leaf x)) xs t.

(** The integer a float holds, where it holds one: [int(f)] where
    [f.is_integer()]. *)
Definition float_to_Z (f : float) : option Z :=
  match Prim2SF f with
  | S754_zero _ => Some 0
  | S754_finite s m e =>
      let v := if 0 <=? e then Zpos m * 2 ^ e else Zpos m / 2 ^ (- e) in
      if (0 <=? e) || (Zpos m mod 2 ^ (- e) =? 0)
      then Some (if s then - v else v)
      else None
  | _ => None
  end.

(** A column of non-negative cells, fewer than 2^52 of them, with a total
    below 2^(53+k). *)
Definition bounded_column (k : Z) (xs : list Z) : Prop :=
  0 <= k <= 900 /\ Forall (fun x => 0 <= x) xs /\
  Zsum xs < 2 ^ (53 + k) /\ Z.of_nat (List.length xs) <= 2 ^ 52.

(** The float [F] holds an integer at most [n * 2^(k+1)] away from the
    exact total of the [n] cells of [xs]. *)
Definition near_total (k : Z) (xs : list Z) (F : float) : Prop :=
  exists W : Z,
    float_to_Z F = Some W /\
    Z.abs (W - Zsum xs) <= Z.of_nat (List.length xs) * 2 ^ (k + 1).

(** The float [avg] is the quotient of such a total and the number of
    cells. *)
Definition near_mean (k : Z) (xs : list Z) (avg : float) : Prop :=
  exists F : float,
    near_total k xs F /\
    avg = (F / float_of_Z (Z.of_nat (List.length xs)))%float.

(** ** Season figures against the figures of the matches *)

(** [x] is not below the [rate] of every match of the table, nor above the
    [rate] of every match. *)
Definition between_match_rates {D : Type} (rate : Metrics.t -> float)
    (df : list (Row D)) (x : float) : Prop :=
  exists (lo hi : Row D) (mlo mhi : Metrics.t),
    In lo df /\ In hi df /\
    compute_match_metrics lo = Ok mlo /\ compute_match_metrics hi = Ok mhi /\
    (rate mlo <=? x)%float = true /\ (x <=? rate mhi)%float = true.

(** * [tool.py]: the command line tool

    The three commands of the tool, run on a CSV file that is given by the
    table [pd.read_csv] makes of it.  What a command does to the world is
    the list of its effects, in order: the directory it makes, the file it
    writes, the lines it prints, the calls to [matplotlib.pyplot].  A
    command ends by returning or with an exception; [SystemExit] is what
    the tool raises itself.  Parsing the command line ([argparse]) is not
    part of the model, nor is what the operating system can refuse
    (a missing CSV file, a directory that cannot be made). *)

(** ** Text *)

Definition newline : string := String (ascii_of_nat 10) EmptyString.

Definition dquote : string := String (ascii_of_nat 34) EmptyString.

(** [str(n)] of an integer: decimal digits, with a minus sign when negative. *)
Definition str_int (z : Z) : string := NilZero.string_of_int (Z.to_int z).

Definition digit_chr (d : Z) : ascii := ascii_of_nat (48 + Z.to_nat d).

(** The last [n] decimal digits of a non-negative integer, zeros included. *)
Fixpoint zfill (n : nat) (z : Z) : string :=
  match n with
  | O => EmptyString
  | S n' => (zfill n' (z / 10) ++ String (digit_chr (z mod 10)) EmptyString)%string
  end.

(** [n] units of [10^-prec] as a decimal numeral with [prec] digits after
    the point. *)
Definition fixed_point (prec : nat) (n : Z) : string :=
  match prec with
  | O => str_int n
  | _ => (str_int (n / 10 ^ Z.of_nat prec) ++ "."
          ++ zfill prec (n mod 10 ^ Z.of_nat prec))%string
  end.

(** [m * 2^e * 10^prec] rounded to the nearest integer, ties to even. *)
Definition scaled (prec : nat) (m : positive) (e : Z) : Z :=
  let p := Zpos m * 10 ^ Z.of_nat prec in
  if 0 <=? e then p * 2 ^ e else rne p (- e).

(** [format(x, ".Nf")], the [{x:.Nf}] of an f-string: the numeral with [N]
    digits after the point that is nearest to the exact value of the float,
    ties to even; the sign is kept when the digits are all zero. *)
Definition format_f (prec : nat) (x : float) : string :=
  match Prim2SF x with
  | S754_nan => "nan"
  | S754_infinity s => if s then "-inf" else "inf"
  | S754_zero s => ((if s then "-" else "") ++ fixed_point prec 0)%string
  | S754_finite s m e =>
      ((if s then "-" else "") ++ fixed_point prec (scaled prec m e))%string
  end.

(** Year, month and day of the day that is [z] days after 1970-01-01. *)
Definition civil_from_days (z : Z) : Z * Z * Z :=
  let z := z + 719468 in
  let era := z / 146097 in
  let doe := z - era * 146097 in
  let yoe := (doe - doe / 1460 + doe / 36524 - doe / 146096) / 365 in
  let y := yoe + era * 400 in
  let doy := doe - (365 * yoe + yoe / 4 - yoe / 100) in
  let mp := (5 * doy + 2) / 153 in
  let d := doy - (153 * mp + 2) / 5 + 1 in
  let m := if mp <? 10 then mp + 3 else mp - 9 in
  (if m <=? 2 then y + 1 else y, m, d).

(** [str(ts.date())]: the day of a timestamp as [YYYY-MM-DD].  A pandas
    timestamp lies between the years 1677 and 2262, so the year has four
    digits. *)
Definition date_isoformat (t : Timestamp) : string :=
  let '(y, m, d) := civil_from_days (t / 86400000000000) in
  (zfill 4 y ++ "-" ++ zfill 2 m ++ "-" ++ zfill 2 d)%string.

(** [os.path.join(a, b)] on POSIX. *)
Definition path_join (a b : string) : string :=
  match b with
  | String "/" _ => b
  | _ =>
      match a, str_last a with
      | EmptyString, _ => b
      | _, Some "/"%char => (a ++ b)%string
      | _, _ => (a ++ "/" ++ b)%string
      end
  end.

(** ** Effects and commands *)

Inductive effect : Type :=
| Makedirs (path : string)                 (* os.makedirs(path, exist_ok=True) *)
| WriteText (path : string) (text : string) (* open(path, "w") and what is written *)
| Stdout (line : string)                   (* print(line) *)
| PltPlot (x : list Timestamp) (y : list float) (marker : string)
| PltXlabel (label : string)
| PltYlabel (label : string)
| PltTitle (label : string)
| PltXticks (rotation : Z)
| PltTightLayout
| PltSavefig (path : string) (dpi : Z)
| PltClose.

Inductive failure : Set :=
| Uncaught (e : exn)            (* an exception [analysis.py] let through *)
| SystemExit (message : string)
| KeyError (key : string).

Inductive ending (A : Type) : Type :=
| Returned (a : A)
| Raised (f : failure).

Arguments Returned {A} a.
Arguments Raised {A} f.

(** A command: the effects it had, and how it ended. *)
Definition command (A : Type) : Type := list effect * ending A.

Definition ret {A : Type} (a : A) : command A := ([], Returned a).

Definition raise {A : Type} (f : failure) : command A := ([], Raised f).

Definition perform (e : effect) : command unit := ([e], Returned tt).

Definition and_then {A B : Type} (m : command A) (k : A -> command B) : command B :=
  match m with
  | (t, Returned a) => let (t', r) := k a in (t ++ t', r)
  | (t, Raised f) => (t, Raised f)
  end.

(** A call into [analysis.py]: its exceptions are not caught. *)
Definition call {A : Type} (m : outcome A) : command A :=
  match m with
  | Ok a => ret a
  | Raise e => raise (Uncaught e)
  end.

Declare Scope command_scope.
Delimit Scope command_scope with command.

Notation "x <- m ;; k" := (and_then m (fun x => k))
  (at level 61, m at next level, right associativity) : command_scope.
Notation "m ;; k" := (and_then m (fun _ => k))
  (at level 61, right associativity) : command_scope.

Definition py_print (line : string) : command unit := perform (Stdout line).

(** ** The metrics dictionary and the allowed metrics *)

(** [m[key]] on the dictionary [compute_match_metrics] returns. *)
Definition Metrics_getitem (m : Metrics.t) (key : string) : option float :=
  if String.eqb key "first_serve_pct" then Some (Metrics.first_serve_pct m)
  else if String.eqb key "first_serve_pts_won_pct" then Some (Metrics.first_serve_pts_won_pct m)
  else if String.eqb key "second_serve_pts_won_pct" then Some (Metrics.second_serve_pts_won_pct m)
  else if String.eqb key "break_points_saved_pct" then Some (Metrics.break_points_saved_pct m)
  else None.

Definition getitem (m : Metrics.t) (key : string) : command float :=
  match Metrics_getitem m key with
  | Some v => ret v
  | None => raise (KeyError key)
  end.

(** [tool.py], lines 20-25. *)
Definition ALLOWED_METRICS : list string :=
  ["first_serve_pct"; "first_serve_pts_won_pct"; "second_serve_pts_won_pct";
   "break_points_saved_pct"]%string.

(** [key in ALLOWED_METRICS] *)
Definition allowed (key : string) : bool := existsb (String.eqb key) ALLOWED_METRICS.

(** ** [summary_to_json] *)

(** A value of the dictionary [asdict(summary)]. *)
Inductive json_value : Set :=
| JInt (z : Z)
| JFloat (f : float).

(** [asdict(summary)]: the fields in the order of the dataclass. *)
Definition asdict (s : Summary.t) : list (string * json_value) :=
  [("matches", JInt (Summary.matches s));
   ("wins", JInt (Summary.wins s));
   ("losses", JInt (Summary.losses s));
   ("win_rate", JFloat (Summary.win_rate s));
   ("avg_aces", JFloat (Summary.avg_aces s));
   ("avg_double_faults", JFloat (Summary.avg_double_faults s));
   ("first_serve_pct", JFloat (Summary.first_serve_pct s));
   ("first_serve_pts_won_pct", JFloat (Summary.first_serve_pts_won_pct s));
   ("second_serve_pts_won_pct", JFloat (Summary.second_serve_pts_won_pct s));
   ("break_points_saved_pct", JFloat (Summary.break_points_saved_pct s))]%string.

(** How [json] writes a float: [repr] is [float.__repr__], the shortest
    numeral that reads back as the float, which the model leaves open; the
    three values that JSON does not have are written as Python names. *)
Definition json_float (repr : float -> string) (f : float) : string :=
  match Prim2SF f with
  | S754_nan => "NaN"
  | S754_infinity s => if s then "-Infinity" else "Infinity"
  | _ => repr f
  end.

Definition json_encode (repr : float -> string) (v : json_value) : string :=
  match v with
  | JInt z => str_int z
  | JFloat f => json_float repr f
  end.

(** [json.dumps(d, indent=2)] of a flat dictionary with plain keys. *)
Definition json_dumps (repr : float -> string) (d : list (string * json_value)) : string :=
  match d with
  | [] => "{}"
  | _ =>
      ("{" ++ newline ++ "  "
       ++ String.concat ("," ++ newline ++ "  ")
            (map (fun kv => dquote ++ fst kv ++ dquote ++ ": " ++ json_encode repr (snd kv)) d)
       ++ newline ++ "}")%string
  end.

(** [analysis.py], lines 96-98. *)
Definition summary_to_json (repr : float -> string) (summary : Summary.t)
    (out_path : string) : command unit :=
  perform (WriteText out_path (json_dumps repr (asdict summary))).

(** ** The commands *)

(** [tool.py], lines 28-29. *)
Definition ensure_results : command unit := perform (Makedirs "results").

(** [tool.py], lines 32-53. *)
Definition cmd_summary (repr : float -> string) (P : Pandas) (csv : list (Row string))
  : command unit :=
  (ensure_results ;;
   df <- call (load_matches P csv) ;;
   s <- call (compute_summary df) ;;
   let summary_path := path_join "results" "summary.json" in
   summary_to_json repr s summary_path ;;
   py_print "=== Summary ===" ;;
   py_print ("Matches: " ++ str_int (Summary.matches s)
             ++ "  Wins: " ++ str_int (Summary.wins s)
             ++ "  Losses: " ++ str_int (Summary.losses s)
             ++ "  Win percentage: " ++ format_f 3 (Summary.win_rate s) ++ "%") ;;
   py_print ("Average aces: " ++ format_f 2 (Summary.avg_aces s)
             ++ "   Average double faults: "
             ++ format_f 2 (Summary.avg_double_faults s)) ;;
   py_print ("1st serve in percentage: "
             ++ format_f 3 (Summary.first_serve_pct s) ++ "%") ;;
   py_print ("1st serve points won percentage: "
             ++ format_f 3 (Summary.first_serve_pts_won_pct s) ++ "%") ;;
   py_print ("2nd serve points won percentage: "
             ++ format_f 3 (Summary.second_serve_pts_won_pct s) ++ "%") ;;
   py_print ("Break points saved percentage: "
             ++ format_f 3 (Summary.break_points_saved_pct s) ++ "%") ;;
   py_print (newline ++ "Wrote: " ++ summary_path))%command%string.

(** [tool.py], lines 56-71. *)
Definition cmd_match (P : Pandas) (csv : list (Row string)) (date_arg : string)
  : command unit :=
  (df <- call (load_matches P csv) ;;
   row <- call (find_match_by_date P df date_arg) ;;
   match row with
   | None =>
       raise (SystemExit ("No match found for date " ++ date_arg
                          ++ ". Try one from the CSV."))
   | Some row =>
       m <- call (compute_match_metrics row) ;;
       py_print "=== Match ===" ;;
       py_print ("Date: " ++ date_isoformat (date row)
                 ++ "  Opponent: " ++ opponent row
                 ++ "  Surface: " ++ surface row) ;;
       py_print ("Result: " ++ result row ++ "  Score: " ++ score row) ;;
       py_print ("Aces: " ++ str_int (aces row)
                 ++ "  Double Faults: " ++ str_int (double_faults row)) ;;
       v <- getitem m "first_serve_pct" ;;
       py_print ("1st serve in percentage: " ++ format_f 3 v ++ "%") ;;
       v <- getitem m "first_serve_pts_won_pct" ;;
       py_print ("1st serve pts won percentage: " ++ format_f 3 v ++ "%") ;;
       v <- getitem m "second_serve_pts_won_pct" ;;
       py_print ("2nd serve pts won percentage: " ++ format_f 3 v ++ "%") ;;
       v <- getitem m "break_points_saved_pct" ;;
       py_print ("Break Ponints saved percentage: " ++ format_f 3 v ++ "%")
   end)%command%string.

(** The loop of [cmd_plot], lines 83-85: the chosen metric of each row is
    appended to [vals]. *)
Fixpoint plot_values (metric : string) (rows : DataFrame) (vals : list float)
  : command (list float) :=
  match rows with
  | [] => ret vals
  | row :: rest =>
      (m <- call (compute_match_metrics row) ;;
       v <- getitem m metric ;;
       plot_values metric rest (vals ++ [v]))%command
  end.

(** [tool.py], lines 74-102. *)
Definition cmd_plot (P : Pandas) (csv : list (Row string)) (metric : string)
  : command unit :=
  (ensure_results ;;
   df <- call (load_matches P csv) ;;
   if negb (allowed metric)
   then raise (SystemExit "metric must be one of: first_serve_pct, first_serve_pts_won_pct, second_serve_pts_won_pct, break_points_saved_pct")
   else
     vals <- plot_values metric df [] ;;
     let x := col date df in
     perform (PltPlot x vals "o") ;;
     perform (PltXlabel "Date") ;;
     perform (PltYlabel metric) ;;
     perform (PltTitle (metric ++ " over time")) ;;
     perform (PltXticks 45) ;;
     perform PltTightLayout ;;
     let out := path_join "results" (metric ++ ".png") in
     perform (PltSavefig out 200) ;;
     perform PltClose ;;
     py_print ("Wrote: " ++ out))%command%string.

(** ** Vocabulary of the properties of the tool *)


(** The lines a command printed. *)
Fixpoint stdout (t : list effect) : list string :=
  match t with
  | [] => []
  | Stdout line :: t' => line :: stdout t'
  | _ :: t' => stdout t'
  end.

(** A stand-in for [float.__repr__] in the examples: seventeen decimals. *)
Definition repr17 (f : float) : string := format_f 17 f.

(** The value a table row has under a metric's name. *)
Definition metric_of (metric : string) (row : Row Timestamp) (v : float) : Prop :=
  exists m : Metrics.t,
    compute_match_metrics row = Ok m /\ Metrics_getitem m metric = Some v.

(** The numeral of [k] thousandths is the fraction [n / d] to three
    decimals: less than one thousandth away from it; and it is zero where
    [d] is zero. *)
Definition three_decimals (k n d : Z) : Prop :=
  if d =? 0 then k = 0 else Z.abs (k * d - 1000 * n) < d.

(** * Lemmas *)

(** Case analysis on every integer comparison of the goal. *)
Ltac Zcompare_cases :=
  repeat match goal with
  | |- context [Z.ltb ?a ?b] => destruct (Z.ltb_spec a b)
  | |- context [Z.leb ?a ?b] => destruct (Z.leb_spec a b)
  | |- context [Z.eqb ?a ?b] => destruct (Z.eqb_spec a b)
  end.

(** ** Binary64: the rounding of [SpecFloat], step by step *)

Lemma fexp_eq e : fexp prec emax e = Z.max (e - 53) (-1074).
Proof. reflexivity. Qed.

Lemma digits2_pos_bounds p :
  2 ^ (Zpos (digits2_pos p) - 1) <= Zpos p < 2 ^ Zpos (digits2_pos p).
Proof.
  induction p as [p IH | p IH |]; cbn [digits2_pos].
  - rewrite Pos2Z.inj_succ.
    replace (Z.succ (Zpos (digits2_pos p)) - 1) with (Z.succ (Zpos (digits2_pos p) - 1)) by lia.
    rewrite !Z.pow_succ_r by lia. lia.
  - rewrite Pos2Z.inj_succ.
    replace (Z.succ (Zpos (digits2_pos p)) - 1) with (Z.succ (Zpos (digits2_pos p) - 1)) by lia.
    rewrite !Z.pow_succ_r by lia. lia.
  - cbn. lia.
Qed.

Lemma iter_pos_nat {A} (f : A -> A) p x :
  iter_pos f p x = Nat.iter (Pos.to_nat p) f x.
Proof.
  revert x. induction p as [p IH | p IH |]; intros x; cbn [iter_pos].
  - rewrite !IH, Pos2Nat.inj_xI.
    replace (S (2 * Pos.to_nat p)) with (Pos.to_nat p + S (Pos.to_nat p))%nat by lia.
    rewrite Nat.iter_add, Nat.iter_succ_r. reflexivity.
  - rewrite !IH, Pos2Nat.inj_xO.
    replace (2 * Pos.to_nat p)%nat with (Pos.to_nat p + Pos.to_nat p)%nat by lia.
    rewrite Nat.iter_add. reflexivity.
  - reflexivity.
Qed.

Lemma shr_1_nonneg m r s :
  0 <= m ->
  shr_1 (Build_shr_record m r s) = Build_shr_record (m / 2) (Z.odd m) (r || s).
Proof.
  intros Hm. rewrite <- Z.div2_div.
  destruct m as [|p|p]; [reflexivity | destruct p; reflexivity | lia].
Qed.

(** [k] one-bit shifts of a non-negative mantissa. *)
Lemma shr_1_iter (k : nat) m r s :
  0 <= m ->
  Nat.iter (S k) shr_1 (Build_shr_record m r s) =
  Build_shr_record (m / 2 ^ Z.of_nat (S k)) (Z.odd (m / 2 ^ Z.of_nat k))
    (r || s || negb (m mod 2 ^ Z.of_nat k =? 0)).
Proof.
  intros Hm. induction k as [|k IH].
  - cbn [Nat.iter]. rewrite shr_1_nonneg by assumption.
    change (2 ^ Z.of_nat 1) with 2. change (2 ^ Z.of_nat 0) with 1.
    rewrite Z.div_1_r, Z.mod_1_r. cbn. now rewrite !orb_false_r.
  - rewrite Nat.iter_succ, IH.
    assert (Hp : 0 < 2 ^ Z.of_nat k) by (apply Z.pow_pos_nonneg; lia).
    assert (Hp' : 0 < 2 ^ Z.of_nat (S k)) by (apply Z.pow_pos_nonneg; lia).
    rewrite shr_1_nonneg by (apply Z.div_pos; lia).
    f_equal.
    + rewrite Z.div_div by lia. f_equal.
      rewrite (Nat2Z.inj_succ (S k)), Z.pow_succ_r by lia. lia.
    + rewrite (Nat2Z.inj_succ k), Z.pow_succ_r by lia.
      rewrite (Z.mul_comm 2), Z.rem_mul_r by lia.
      rewrite Zmod_odd.
      destruct (Z.odd (m / 2 ^ Z.of_nat k)); destruct r, s; cbn [orb];
        try reflexivity.
      * symmetry. apply negb_true_iff, Z.eqb_neq.
        pose proof (Z.mod_pos_bound m (2 ^ Z.of_nat k) Hp). lia.
      * rewrite Z.mul_0_r, Z.add_0_r. reflexivity.
Qed.

Lemma Zdigits2_bounds m :
  0 < m -> 2 ^ (Zdigits2 m - 1) <= m < 2 ^ Zdigits2 m.
Proof.
  destruct m as [|p|p]; try lia. intros _. apply digits2_pos_bounds.
Qed.

Lemma Zdigits2_pos m : 0 < m -> 0 < Zdigits2 m.
Proof. destruct m; cbn; lia. Qed.

Lemma Zdigits2_unique m d :
  2 ^ (d - 1) <= m < 2 ^ d -> 0 < d -> Zdigits2 m = d.
Proof.
  intros [Hlo Hhi] Hd.
  assert (Hm : 0 < m).
  { assert (0 < 2 ^ (d - 1)) by (apply Z.pow_pos_nonneg; lia). lia. }
  pose proof (Zdigits2_bounds m Hm) as [Hlo' Hhi'].
  pose proof (Zdigits2_pos m Hm) as Hd'.
  destruct (Z.lt_trichotomy (Zdigits2 m) d) as [Hlt | [Heq | Hgt]]; [| exact Heq |].
  - assert (2 ^ Zdigits2 m <= 2 ^ (d - 1)) by (apply Z.pow_le_mono_r; lia). lia.
  - assert (2 ^ d <= 2 ^ (Zdigits2 m - 1)) by (apply Z.pow_le_mono_r; lia). lia.
Qed.

Lemma shr_pos m r s e n :
  0 <= m -> 0 < n ->
  shr (Build_shr_record m r s) e n =
  (Build_shr_record (m / 2 ^ n) (Z.odd (m / 2 ^ (n - 1)))
     (r || s || negb (m mod 2 ^ (n - 1) =? 0)), e + n).
Proof.
  intros Hm Hn. destruct n as [|p|p]; try lia.
  unfold shr. rewrite iter_pos_nat.
  destruct (Pos.to_nat p) as [|k] eqn:Hk; [lia|].
  rewrite shr_1_iter by assumption.
  replace (Z.of_nat (S k)) with (Zpos p) by lia.
  replace (Z.of_nat k) with (Zpos p - 1) by lia.
  reflexivity.
Qed.

Lemma shr_nonpos mrs e n : n <= 0 -> shr mrs e n = (mrs, e).
Proof. destruct n; try reflexivity. lia. Qed.

Lemma shr_record_of_loc_m m l : shr_m (shr_record_of_loc m l) = m.
Proof. destruct l as [|[]]; reflexivity. Qed.

Lemma loc_of_shr_record_of_loc m l : loc_of_shr_record (shr_record_of_loc m l) = l.
Proof. destruct l as [|[]]; reflexivity. Qed.

Lemma round_nearest_even_bounds m l :
  m <= round_nearest_even m l <= m + 1.
Proof. destruct l as [|[]]; cbn; try destruct (Z.even m); lia. Qed.

Lemma cut53_bounds m l :
  53 <= Zdigits2 m -> 0 < m ->
  2 ^ 52 <= fst (cut53 m l) < 2 ^ 53.
Proof.
  intros Hd Hm. unfold cut53.
  pose proof (Zdigits2_bounds m Hm) as [Hlo Hhi].
  destruct (Z.leb_spec (Zdigits2 m - 53) 0) as [Hn | Hn]; cbn [fst].
  - replace (Zdigits2 m) with 53 in * by lia. exact (conj Hlo Hhi).
  - set (n := Zdigits2 m - 53) in *.
    assert (Hpn : 0 < 2 ^ n) by (apply Z.pow_pos_nonneg; lia).
    replace (Zdigits2 m) with (n + 53) in Hhi by lia.
    replace (Zdigits2 m - 1) with (n + 52) in Hlo by lia.
    rewrite Z.pow_add_r in Hlo, Hhi by lia.
    split.
    + apply Z.div_le_lower_bound; lia.
    + apply Z.div_lt_upper_bound; lia.
Qed.

Lemma binary_round_aux_53 sx mx ex lx :
  53 <= Zdigits2 (Zpos mx) -> -1074 <= ex ->
  binary_round_aux prec emax sx (Zpos mx) ex lx = round53 sx (Zpos mx) ex lx.
Proof.
  intros Hd He.
  pose proof (cut53_bounds (Zpos mx) lx Hd (Pos2Z.is_pos mx)) as Hcut.
  unfold binary_round_aux, round53, shr_fexp. rewrite fexp_eq.
  set (m := Zpos mx) in *. set (d := Zdigits2 m) in *.
  replace (Z.max (d + ex - 53) (-1074) - ex) with (d - 53) by lia.
  (* first shift *)
  assert (H1 : shr (shr_record_of_loc m lx) ex (d - 53) =
               (shr_record_of_loc (fst (cut53 m lx)) (snd (cut53 m lx)),
                ex + Z.max (d - 53) 0)).
  { unfold cut53. fold d. destruct (Z.leb_spec (d - 53) 0) as [Hn | Hn].
    - rewrite shr_nonpos by assumption. cbn [fst snd]. f_equal. lia.
    - cbn [fst snd]. rewrite Z.max_l by lia.
      destruct lx as [|[]]; cbn [shr_record_of_loc shr_r shr_s];
        rewrite shr_pos by (subst m; lia);
        destruct (Z.odd _), (negb _); reflexivity. }
  rewrite H1. clear H1.
  destruct (cut53 m lx) as [m1 l1]. cbn [fst snd] in *.
  rewrite shr_record_of_loc_m, loc_of_shr_record_of_loc.
  pose proof (round_nearest_even_bounds m1 l1) as Hr.
  set (m2 := round_nearest_even m1 l1) in *.
  set (e1 := ex + Z.max (d - 53) 0).
  rewrite fexp_eq.
  destruct (Z.ltb_spec m2 (2 ^ 53)) as [Hlt | Hge].
  - rewrite (Zdigits2_unique m2 53) by lia.
    replace (Z.max (53 + e1 - 53) (-1074) - e1) with 0 by lia.
    cbn [shr shr_record_of_loc shr_m].
    destruct m2 as [|p|p]; try lia. reflexivity.
  - assert (Hm2 : m2 = 2 ^ 53) by lia. rewrite Hm2.
    change (Zdigits2 (2 ^ 53)) with 54.
    replace (Z.max (54 + e1 - 53) (-1074) - e1) with 1 by lia.
    reflexivity.
Qed.

Lemma Pos_iter_xO p k : Zpos (Pos.iter xO p k) = Zpos p * 2 ^ Zpos k.
Proof.
  induction k as [|k IH] using Pos.peano_ind.
  - cbn. lia.
  - rewrite Pos.iter_succ, Pos2Z.inj_xO, IH, Pos2Z.inj_succ.
    rewrite Z.pow_succ_r by (apply Pos2Z.is_nonneg). lia.
Qed.

Lemma shl_align_spec mx ex ex' :
  Zpos (fst (shl_align mx ex ex')) = Zpos mx * 2 ^ Z.max (ex - ex') 0 /\
  snd (shl_align mx ex ex') = Z.min ex ex'.
Proof.
  unfold shl_align. destruct (ex' - ex) as [|d|d] eqn:Hd; cbn [fst snd].
  - rewrite Z.max_r by lia. rewrite Z.mul_1_r. lia.
  - rewrite Z.max_r by lia. rewrite Z.mul_1_r. lia.
  - rewrite Pos_iter_xO. replace (Z.max (ex - ex') 0) with (Zpos d) by lia. lia.
Qed.

Lemma Zdigits2_shift m k :
  0 < m -> 0 <= k -> Zdigits2 (m * 2 ^ k) = Zdigits2 m + k.
Proof.
  intros Hm Hk. pose proof (Zdigits2_bounds m Hm) as [Hlo Hhi].
  pose proof (Zdigits2_pos m Hm) as Hd.
  assert (Hp : 0 < 2 ^ k) by (apply Z.pow_pos_nonneg; lia).
  apply Zdigits2_unique; [|lia].
  replace (Zdigits2 m + k - 1) with (Zdigits2 m - 1 + k) by lia.
  rewrite !Z.pow_add_r by lia. nia.
Qed.

Lemma align53_digits m e :
  0 < m -> -1074 <= e -> -1074 <= Zdigits2 m + e - 53 ->
  53 <= Zdigits2 (fst (align53 m e)) /\ 0 < fst (align53 m e) /\
  -1074 <= snd (align53 m e).
Proof.
  intros Hm He Hn. unfold align53. cbn [fst snd].
  pose proof (Zdigits2_pos m Hm).
  rewrite Zdigits2_shift by lia.
  assert (0 < 2 ^ Z.max (53 - Zdigits2 m) 0) by (apply Z.pow_pos_nonneg; lia).
  nia.
Qed.

Lemma binary_round_normal sx p e :
  -1074 <= e -> -1074 <= Zdigits2 (Zpos p) + e - 53 ->
  binary_round prec emax sx p e =
  round53 sx (fst (align53 (Zpos p) e)) (snd (align53 (Zpos p) e)) loc_Exact.
Proof.
  intros He Hn. unfold binary_round. rewrite fexp_eq.
  pose proof (shl_align_spec p e (Z.max (Zpos (digits2_pos p) + e - 53) (-1074))) as [Hm Hx].
  pose proof (align53_digits (Zpos p) e (Pos2Z.is_pos p) He Hn) as (Hd & Hpos & Hexp).
  cbn [Zdigits2] in Hn.
  destruct (shl_align _ _ _) as [mz ez]. cbn [fst snd] in Hm, Hx.
  assert (Hmz : Zpos mz = fst (align53 (Zpos p) e)).
  { rewrite Hm. unfold align53. cbn [fst Zdigits2]. f_equal. f_equal. lia. }
  assert (Hez : ez = snd (align53 (Zpos p) e)).
  { rewrite Hx. unfold align53. cbn [snd Zdigits2]. lia. }
  rewrite <- Hmz, <- Hez in *.
  apply binary_round_aux_53; assumption.
Qed.

Lemma round53_cases sx m e l :
  53 <= Zdigits2 m -> 0 < m -> -1074 <= e ->
  (exists m3 e3, round53 sx m e l = S754_finite sx m3 e3 /\
                 2 ^ 52 <= Zpos m3 < 2 ^ 53 /\ e <= e3 <= 971) \/
  round53 sx m e l = S754_infinity sx.
Proof.
  intros Hd Hm He. unfold round53.
  pose proof (cut53_bounds m l Hd Hm) as Hcut.
  destruct (cut53 m l) as [m1 l1]. cbn [fst] in Hcut.
  pose proof (round_nearest_even_bounds m1 l1) as Hr.
  set (m2 := round_nearest_even m1 l1) in *.
  destruct (Z.ltb_spec m2 (2 ^ 53)) as [Hlt | Hge];
    match goal with |- context [?x <=? 971] => destruct (Z.leb_spec x 971) end;
    auto; left.
  - exists (Z.to_pos m2), (e + Z.max (Zdigits2 m - 53) 0).
    rewrite Z2Pos.id by lia. repeat split; lia.
  - exists (Z.to_pos (2 ^ 52)), (e + Z.max (Zdigits2 m - 53) 0 + 1).
    repeat split; cbn; lia.
Qed.

Lemma valid_binary_53 sx m e :
  2 ^ 52 <= Zpos m < 2 ^ 53 -> -1074 <= e <= 971 ->
  valid_binary (S754_finite sx m e) = true.
Proof.
  intros Hm He. cbn [SpecFloat.valid_binary]. unfold bounded, canonical_mantissa.
  rewrite fexp_eq.
  change (Zpos (digits2_pos m)) with (Zdigits2 (Zpos m)).
  rewrite (Zdigits2_unique (Zpos m) 53) by lia.
  apply andb_true_intro. split; [apply Z.eqb_eq | apply Z.leb_le].
  - lia.
  - change (emax - prec) with 971. lia.
Qed.

Lemma binary_round_int_cases sx p :
  (exists m e, binary_round prec emax sx p 0 = S754_finite sx m e /\
               2 ^ 52 <= Zpos m < 2 ^ 53 /\ -52 <= e <= 971) \/
  binary_round prec emax sx p 0 = S754_infinity sx.
Proof.
  pose proof (Zdigits2_pos (Zpos p) (Pos2Z.is_pos p)) as Hdp.
  rewrite binary_round_normal by lia.
  destruct (align53_digits (Zpos p) 0 (Pos2Z.is_pos p)) as (Hd & Hpos & Hexp); [lia.. |].
  destruct (round53_cases sx _ _ loc_Exact Hd Hpos Hexp)
    as [(m3 & e3 & Heq & Hm3 & He3) | Heq]; [left | right; exact Heq].
  exists m3, e3. split; [exact Heq|]. split; [exact Hm3|].
  unfold align53 in He3. cbn [snd] in He3. lia.
Qed.

Lemma SFint_cases z :
  z <> 0 ->
  (exists m e, SFint z = S754_finite (z <? 0) m e /\
               2 ^ 52 <= Zpos m < 2 ^ 53 /\ -52 <= e <= 971) \/
  SFint z = S754_infinity (z <? 0).
Proof.
  intros Hz. unfold SFint, binary_normalize.
  destruct z as [|p|p]; [lia | |]; apply binary_round_int_cases.
Qed.

Lemma SFint_valid z : valid_binary (SFint z) = true.
Proof.
  destruct (Z.eq_dec z 0) as [-> | Hz]; [reflexivity|].
  destruct (SFint_cases z Hz) as [(m & e & -> & Hm & He) | ->]; [|reflexivity].
  apply valid_binary_53; lia.
Qed.

Lemma Prim2SF_float_of_Z z : Prim2SF (float_of_Z z) = SFint z.
Proof. apply Prim2SF_SF2Prim, SFint_valid. Qed.

Lemma float_of_Z_nonzero z : z <> 0 -> (float_of_Z z =? 0)%float = false.
Proof.
  intros Hz. rewrite eqb_spec, Prim2SF_float_of_Z.
  change (Prim2SF 0) with (S754_zero false).
  destruct (SFint_cases z Hz) as [(m & e & -> & _) | ->]; destruct (z <? 0); reflexivity.
Qed.

(** ** Integers below 2^53 are represented exactly *)

Lemma round53_exact sx v j e :
  0 < v < 2 ^ 53 -> 53 - Zdigits2 v <= j -> e + j = 0 ->
  round53 sx (v * 2 ^ j) e loc_Exact = SFexact sx v.
Proof.
  intros Hv Hj He.
  assert (Hv0 : 0 < v) by lia.
  pose proof (Zdigits2_bounds v Hv0) as [Hlo Hhi].
  pose proof (Zdigits2_pos v Hv0) as Hd.
  assert (Hd53 : Zdigits2 v <= 53).
  { destruct (Z.le_gt_cases (Zdigits2 v) 53) as [H|H]; [exact H|].
    assert (2 ^ 53 <= 2 ^ (Zdigits2 v - 1)) by (apply Z.pow_le_mono_r; lia). lia. }
  unfold round53, cut53, SFexact.
  rewrite Zdigits2_shift by lia.
  remember (Zdigits2 v) as d eqn:Ed. remember (53 - d) as c eqn:Ec.
  assert (Hc : 0 < 2 ^ c) by (apply Z.pow_pos_nonneg; lia).
  assert (E52 : 2 ^ 52 = 2 ^ (d - 1) * 2 ^ c).
  { rewrite <- Z.pow_add_r by lia. f_equal. lia. }
  assert (E53 : 2 ^ 53 = 2 ^ d * 2 ^ c).
  { rewrite <- Z.pow_add_r by lia. f_equal. lia. }
  assert (Hm1 : 2 ^ 52 <= v * 2 ^ c < 2 ^ 53).
  { rewrite E52, E53. nia. }
  clear E52 E53.
  replace (d + j - 53) with (j - c) by lia.
  assert (Hsplit : v * 2 ^ j = v * 2 ^ c * 2 ^ (j - c)).
  { rewrite <- Z.mul_assoc, <- Z.pow_add_r by lia. do 2 f_equal. lia. }
  destruct (Z.leb_spec (j - c) 0) as [Hn | Hn].
  - assert (j = c) by lia. subst j.
    cbn [round_nearest_even].
    destruct (Z.ltb_spec (v * 2 ^ c) (2 ^ 53)); [|lia].
    rewrite Z.max_r by lia.
    destruct (Z.leb_spec (e + 0) 971); [|lia].
    f_equal. lia.
  - set (n := j - c) in *.
    assert (Hpn : 0 < 2 ^ n) by (apply Z.pow_pos_nonneg; lia).
    assert (Hq : v * 2 ^ j / 2 ^ n = v * 2 ^ c).
    { rewrite Hsplit. apply Z.div_mul. lia. }
    assert (Hodd : Z.odd (v * 2 ^ j / 2 ^ (n - 1)) = false).
    { replace (v * 2 ^ j) with (v * 2 ^ c * 2 * 2 ^ (n - 1)).
      - rewrite Z.div_mul by (apply Z.pow_nonzero; lia).
        rewrite Z.odd_mul. cbn. apply andb_false_r.
      - rewrite Hsplit. replace n with (1 + (n - 1)) at 2 by lia.
        rewrite Z.pow_add_r by lia. change (2 ^ 1) with 2. lia. }
    assert (Hrem : v * 2 ^ j mod 2 ^ (n - 1) = 0).
    { replace (v * 2 ^ j) with (v * 2 ^ c * 2 * 2 ^ (n - 1)).
      - apply Z.mod_mul. apply Z.pow_nonzero; lia.
      - rewrite Hsplit. replace n with (1 + (n - 1)) at 2 by lia.
        rewrite Z.pow_add_r by lia. change (2 ^ 1) with 2. lia. }
    rewrite Hq, Hodd, Hrem. cbn [shr_record_of_loc shr_r shr_s orb Z.eqb negb
      loc_of_shr_record round_nearest_even].
    destruct (Z.ltb_spec (v * 2 ^ c) (2 ^ 53)); [|lia].
    rewrite Z.max_l by lia.
    destruct (Z.leb_spec (e + n) 971); [|lia].
    f_equal. lia.
Qed.

Lemma SFint_exact v : 0 < v < 2 ^ 53 -> SFint v = SFexact false v.
Proof.
  intros Hv. unfold SFint, binary_normalize.
  destruct v as [|p|p]; try lia.
  pose proof (Zdigits2_pos (Zpos p) (Pos2Z.is_pos p)) as Hdp.
  rewrite binary_round_normal by lia.
  unfold align53. cbn [fst snd].
  assert (Hd53 : Zdigits2 (Zpos p) <= 53).
  { pose proof (Zdigits2_bounds (Zpos p) (Pos2Z.is_pos p)) as [Hlo _].
    destruct (Z.le_gt_cases (Zdigits2 (Zpos p)) 53) as [H|H]; [exact H|].
    assert (2 ^ 53 <= 2 ^ (Zdigits2 (Zpos p) - 1)) by (apply Z.pow_le_mono_r; lia). lia. }
  apply round53_exact; lia.
Qed.

Lemma Zdigits2_le_53 v : 0 < v < 2 ^ 53 -> 0 < Zdigits2 v <= 53.
Proof.
  intros Hv. assert (Hv0 : 0 < v) by lia.
  pose proof (Zdigits2_bounds v Hv0) as [Hlo _].
  pose proof (Zdigits2_pos v Hv0).
  destruct (Z.le_gt_cases (Zdigits2 v) 53) as [H'|H']; [lia|].
  assert (2 ^ 53 <= 2 ^ (Zdigits2 v - 1)) by (apply Z.pow_le_mono_r; lia). lia.
Qed.

Lemma SFexact_mantissa v :
  0 < v < 2 ^ 53 ->
  Zpos (Z.to_pos (v * 2 ^ (53 - Zdigits2 v))) = v * 2 ^ (53 - Zdigits2 v).
Proof.
  intros Hv. pose proof (Zdigits2_le_53 v Hv).
  assert (0 < 2 ^ (53 - Zdigits2 v)) by (apply Z.pow_pos_nonneg; lia).
  apply Z2Pos.id. nia.
Qed.

(** Adding two non-negative integers whose sum is below 2^53 is exact. *)
Lemma SFadd_int a b :
  0 <= a -> 0 <= b -> a + b < 2 ^ 53 ->
  SFadd prec emax (SFint a) (SFint b) = SFint (a + b).
Proof.
  intros Ha Hb Hab.
  destruct (Z.eq_dec a 0) as [-> | Ha0].
  { destruct (Z.eq_dec b 0) as [-> | Hb0]; [reflexivity|].
    rewrite Z.add_0_l, (SFint_exact b) by lia. reflexivity. }
  destruct (Z.eq_dec b 0) as [-> | Hb0].
  { rewrite Z.add_0_r, (SFint_exact a) by lia. reflexivity. }
  rewrite (SFint_exact a), (SFint_exact b), (SFint_exact (a + b)) by lia.
  pose proof (Zdigits2_le_53 a ltac:(lia)) as Hda.
  pose proof (Zdigits2_le_53 b ltac:(lia)) as Hdb.
  pose proof (Zdigits2_le_53 (a + b) ltac:(lia)) as Hdv.
  unfold SFexact at 1 2. cbn [SFadd cond_Zopp].
  set (ea := Zdigits2 a - 53). set (eb := Zdigits2 b - 53).
  set (ez := Z.min ea eb).
  destruct (shl_align_spec (Z.to_pos (a * 2 ^ (53 - Zdigits2 a))) ea ez) as [Hma _].
  destruct (shl_align_spec (Z.to_pos (b * 2 ^ (53 - Zdigits2 b))) eb ez) as [Hmb _].
  rewrite Hma, Hmb, !SFexact_mantissa by lia. clear Hma Hmb.
  assert (Hez : ez <= 0) by (subst ez ea eb; lia).
  assert (Hsa : a * 2 ^ (53 - Zdigits2 a) * 2 ^ Z.max (ea - ez) 0 = a * 2 ^ (- ez)).
  { rewrite <- Z.mul_assoc, <- Z.pow_add_r by lia. do 2 f_equal. subst ez ea eb. lia. }
  assert (Hsb : b * 2 ^ (53 - Zdigits2 b) * 2 ^ Z.max (eb - ez) 0 = b * 2 ^ (- ez)).
  { rewrite <- Z.mul_assoc, <- Z.pow_add_r by lia. do 2 f_equal. subst ez ea eb. lia. }
  rewrite Hsa, Hsb, <- Z.mul_add_distr_r. clear Hsa Hsb.
  assert (Hp : 0 < 2 ^ (- ez)) by (apply Z.pow_pos_nonneg; lia).
  assert (Hdab : Zdigits2 a <= Zdigits2 (a + b) /\ Zdigits2 b <= Zdigits2 (a + b)).
  { pose proof (Zdigits2_bounds a ltac:(lia)) as [Hla _].
    pose proof (Zdigits2_bounds b ltac:(lia)) as [Hlb _].
    pose proof (Zdigits2_bounds (a + b) ltac:(lia)) as [_ Hhv].
    split.
    - destruct (Z.le_gt_cases (Zdigits2 a) (Zdigits2 (a + b))) as [H|H]; [exact H|].
      assert (2 ^ Zdigits2 (a + b) <= 2 ^ (Zdigits2 a - 1)) by (apply Z.pow_le_mono_r; lia). lia.
    - destruct (Z.le_gt_cases (Zdigits2 b) (Zdigits2 (a + b))) as [H|H]; [exact H|].
      assert (2 ^ Zdigits2 (a + b) <= 2 ^ (Zdigits2 b - 1)) by (apply Z.pow_le_mono_r; lia). lia. }
  destruct ((a + b) * 2 ^ (- ez)) as [|P|P] eqn:EP; try nia.
  cbn [binary_normalize].
  assert (HdP : Zdigits2 (Zpos P) = Zdigits2 (a + b) - ez).
  { rewrite <- EP, Zdigits2_shift by lia. lia. }
  rewrite binary_round_normal by (subst ez ea eb; lia).
  unfold align53. cbn [fst snd]. rewrite HdP, <- EP.
  rewrite <- Z.mul_assoc, <- Z.pow_add_r by lia.
  apply round53_exact; subst ez ea eb; lia.
Qed.

(** ** Integers of more than 53 bits: rounding to nearest, ties to even *)

Lemma cut53_round m :
  0 < m -> 53 < Zdigits2 m ->
  round_nearest_even (fst (cut53 m loc_Exact)) (snd (cut53 m loc_Exact)) =
  rne m (Zdigits2 m - 53).
Proof.
  intros Hm Hd. unfold cut53, rne.
  destruct (Z.leb_spec (Zdigits2 m - 53) 0) as [Hn | Hn]; [lia|].
  set (k := Zdigits2 m - 53) in *. cbn [fst snd shr_record_of_loc shr_r shr_s orb].
  assert (Hk : 2 ^ k = 2 ^ (k - 1) * 2).
  { replace k with (k - 1 + 1) at 1 by lia. rewrite Z.pow_add_r by lia. reflexivity. }
  assert (Hp : 0 < 2 ^ (k - 1)) by (apply Z.pow_pos_nonneg; lia).
  assert (Hrem : m mod 2 ^ k = m mod 2 ^ (k - 1) + 2 ^ (k - 1) * (if Z.odd (m / 2 ^ (k - 1)) then 1 else 0)).
  { rewrite Hk, Z.rem_mul_r, Zmod_odd by lia. reflexivity. }
  assert (Hq : m / 2 ^ k = m / 2 ^ (k - 1) / 2).
  { rewrite Hk, Z.div_div by lia. reflexivity. }
  pose proof (Z.mod_pos_bound m (2 ^ (k - 1)) Hp) as Ht.
  rewrite Hrem.
  set (t := m mod 2 ^ (k - 1)) in *. set (h := 2 ^ (k - 1)) in *.
  destruct (Z.odd (m / h)); destruct (Z.eqb_spec t 0) as [Ht0 | Ht0];
    cbn [negb loc_of_shr_record round_nearest_even];
    try rewrite <- Z.negb_odd;
    Zcompare_cases; cbn [orb andb]; try lia; try reflexivity;
    destruct (Z.odd (m / 2 ^ k)); reflexivity.
Qed.

Lemma rne_bounds p k : p / 2 ^ k <= rne p k <= p / 2 ^ k + 1.
Proof. unfold rne. destruct (_ || _); lia. Qed.

Lemma rne_mono k a b : 0 <= k -> a <= b -> rne a k <= rne b k.
Proof.
  intros Hk Hab.
  assert (Hp : 0 < 2 ^ k) by (apply Z.pow_pos_nonneg; lia).
  pose proof (Z.div_le_mono a b (2 ^ k) Hp Hab) as Hq.
  pose proof (rne_bounds a k) as Ha. pose proof (rne_bounds b k) as Hb.
  destruct (Z.eq_dec (a / 2 ^ k) (b / 2 ^ k)) as [Heq | Hne]; [|lia].
  assert (Hr : a mod 2 ^ k <= b mod 2 ^ k).
  { pose proof (Z.div_mod a (2 ^ k) ltac:(lia)). pose proof (Z.div_mod b (2 ^ k) ltac:(lia)).
    rewrite Heq in *. lia. }
  unfold rne. rewrite Heq.
  Zcompare_cases; destruct (Z.odd (b / 2 ^ k)); cbn [orb andb]; lia.
Qed.

Lemma fl_mant_bounds z : 0 < z -> 2 ^ 52 <= fl_mant z <= 2 ^ 53.
Proof.
  intros Hz. unfold fl_mant.
  pose proof (Zdigits2_bounds z Hz) as [Hlo Hhi].
  pose proof (Zdigits2_pos z Hz) as Hd.
  destruct (Z.leb_spec (Zdigits2 z) 53) as [Hle | Hgt].
  - remember (Zdigits2 z) as d. remember (53 - d) as c.
    assert (Hc : 0 < 2 ^ c) by (apply Z.pow_pos_nonneg; lia).
    assert (E52 : 2 ^ 52 = 2 ^ (d - 1) * 2 ^ c).
    { rewrite <- Z.pow_add_r by lia. f_equal. lia. }
    assert (E53 : 2 ^ 53 = 2 ^ d * 2 ^ c).
    { rewrite <- Z.pow_add_r by lia. f_equal. lia. }
    rewrite E52, E53. nia.
  - pose proof (cut53_bounds z loc_Exact ltac:(lia) Hz) as Hc.
    unfold cut53 in Hc.
    destruct (Z.leb_spec (Zdigits2 z - 53) 0); [lia|]. cbn [fst] in Hc.
    pose proof (rne_bounds z (Zdigits2 z - 53)). lia.
Qed.

Lemma SFint_parts z :
  0 < z -> Zdigits2 z <= 1023 ->
  SFint z = S754_finite false (Z.to_pos (fst (fl_parts z))) (snd (fl_parts z)).
Proof.
  intros Hz Hd. pose proof (fl_mant_bounds z Hz) as Hb.
  pose proof (Zdigits2_pos z Hz) as Hdp.
  unfold SFint, binary_normalize. destruct z as [|p|p]; try lia.
  rewrite binary_round_normal by lia.
  set (z := Zpos p) in *.
  unfold fl_parts, round53.
  assert (Hm2 : round_nearest_even (fst (cut53 (fst (align53 z 0)) loc_Exact))
                  (snd (cut53 (fst (align53 z 0)) loc_Exact)) = fl_mant z).
  { unfold fl_mant, align53. cbn [fst].
    destruct (Z.leb_spec (Zdigits2 z) 53) as [Hle | Hgt].
    - rewrite Z.max_l by lia. unfold cut53.
      rewrite Zdigits2_shift by lia.
      destruct (Z.leb_spec (Zdigits2 z + (53 - Zdigits2 z) - 53) 0); [|lia].
      reflexivity.
    - rewrite Z.max_r by lia. rewrite Z.mul_1_r. apply cut53_round; lia. }
  destruct (cut53 (fst (align53 z 0)) loc_Exact) as [m1 l1]. cbn [fst snd] in Hm2.
  rewrite Hm2.
  unfold align53. cbn [fst snd]. rewrite Zdigits2_shift by lia.
  destruct (Z.ltb_spec (fl_mant z) (2 ^ 53)); cbn [fst snd];
    match goal with |- context [?x <=? 971] => destruct (Z.leb_spec x 971); [|lia] end;
    f_equal; lia.
Qed.

Lemma Zdigits2_mono a b : 0 < a <= b -> Zdigits2 a <= Zdigits2 b.
Proof.
  intros Hab.
  pose proof (Zdigits2_bounds a ltac:(lia)) as [Hla _].
  pose proof (Zdigits2_bounds b ltac:(lia)) as [_ Hhb].
  destruct (Z.le_gt_cases (Zdigits2 a) (Zdigits2 b)) as [H|H]; [exact H|].
  assert (2 ^ Zdigits2 b <= 2 ^ (Zdigits2 a - 1)).
  { apply Z.pow_le_mono_r; [lia|]. lia. }
  lia.
Qed.

Lemma fl_parts_mono a b : 0 < a <= b -> parts_le (fl_parts a) (fl_parts b).
Proof.
  intros Hab.
  pose proof (Zdigits2_mono a b Hab) as Hd.
  pose proof (fl_mant_bounds a ltac:(lia)) as Hma.
  pose proof (fl_mant_bounds b ltac:(lia)) as Hmb.
  assert (Hm : Zdigits2 a = Zdigits2 b -> fl_mant a <= fl_mant b).
  { intros E. unfold fl_mant. rewrite E.
    destruct (Z.leb_spec (Zdigits2 b) 53).
    - apply Z.mul_le_mono_nonneg_r; [|lia]. apply Z.pow_nonneg. lia.
    - apply rne_mono; lia. }
  unfold parts_le, fl_parts.
  destruct (Z.ltb_spec (fl_mant a) (2 ^ 53)); destruct (Z.ltb_spec (fl_mant b) (2 ^ 53));
    cbn [fst snd]; lia.
Qed.

(** ** Division of two positive normal numbers *)

Lemma SFdiv_core_53 ma ea mb eb :
  2 ^ 52 <= Zpos ma < 2 ^ 53 -> 2 ^ 52 <= Zpos mb < 2 ^ 53 ->
  -1021 <= ea - eb ->
  SFdiv_core_binary prec emax (Zpos ma) ea (Zpos mb) eb =
  (Zpos ma * 2 ^ 53 / Zpos mb, ea - eb - 53,
   new_location (Zpos mb) (Zpos ma * 2 ^ 53 mod Zpos mb)).
Proof.
  intros Ha Hb He. unfold SFdiv_core_binary.
  rewrite (Zdigits2_unique (Zpos ma) 53), (Zdigits2_unique (Zpos mb) 53) by lia.
  rewrite fexp_eq.
  replace (Z.min (Z.max (53 + ea - (53 + eb) - 53) (-1074)) (ea - eb)) with (ea - eb - 53) by lia.
  replace (ea - eb - (ea - eb - 53)) with 53 by lia.
  cbv beta iota. rewrite Z.shiftl_mul_pow2 by lia.
  unfold Z.div, Z.modulo. destruct (Z.div_eucl _ _) as [q r]. reflexivity.
Qed.

Lemma Zdigits2_ge m k : 0 < k -> 2 ^ (k - 1) <= m -> k <= Zdigits2 m.
Proof.
  intros Hk Hm.
  assert (0 < 2 ^ (k - 1)) by (apply Z.pow_pos_nonneg; lia).
  pose proof (Zdigits2_bounds m ltac:(lia)) as [_ Hhi].
  destruct (Z.le_gt_cases k (Zdigits2 m)) as [H'|H']; [exact H'|].
  assert (2 ^ Zdigits2 m <= 2 ^ (k - 1)).
  { apply Z.pow_le_mono_r; [lia|]. lia. }
  lia.
Qed.

Lemma Zdigits2_le m k : 0 < m < 2 ^ k -> Zdigits2 m <= k.
Proof.
  intros Hm.
  pose proof (Zdigits2_bounds m ltac:(lia)) as [Hlo _].
  destruct (Z.le_gt_cases (Zdigits2 m) k) as [H'|H']; [exact H'|].
  assert (0 <= k).
  { destruct (Z.le_gt_cases 0 k); [assumption|]. rewrite Z.pow_neg_r in Hm; lia. }
  assert (2 ^ k <= 2 ^ (Zdigits2 m - 1)).
  { apply Z.pow_le_mono_r; [lia|]. lia. }
  lia.
Qed.

(** A quotient of two positive normal numbers, the divisor the larger, is
    a positive number not above one. *)
Lemma SFdiv_le_one ma ea mb eb :
  2 ^ 52 <= Zpos ma < 2 ^ 53 -> 2 ^ 52 <= Zpos mb < 2 ^ 53 ->
  -1021 <= ea - eb ->
  parts_le (Zpos ma, ea) (Zpos mb, eb) ->
  exists m e,
    SFdiv prec emax (S754_finite false ma ea) (S754_finite false mb eb) =
    S754_finite false m e /\
    (e < -52 \/ (e = -52 /\ Zpos m = 2 ^ 52)).
Proof.
  intros Ha Hb He Hle. cbn [SFdiv xorb].
  rewrite SFdiv_core_53 by assumption.
  set (a := Zpos ma) in *. set (b := Zpos mb) in *.
  pose proof (Z.div_mod (a * 2 ^ 53) b ltac:(lia)) as Hdm.
  pose proof (Z.mod_pos_bound (a * 2 ^ 53) b ltac:(lia)) as Hr.
  set (q := a * 2 ^ 53 / b) in *. set (r := a * 2 ^ 53 mod b) in *.
  clearbody q r.
  assert (Hq : 2 ^ 52 <= q < 2 ^ 54) by nia.
  assert (Hdq : 53 <= Zdigits2 q <= 54).
  { split; [apply Zdigits2_ge; lia | apply Zdigits2_le; lia]. }
  assert (Hbra : binary_round_aux prec emax false q (ea - eb - 53) (new_location b r) =
                 round53 false q (ea - eb - 53) (new_location b r)).
  { destruct q as [|qp|qp]; try lia. apply binary_round_aux_53; lia. }
  rewrite Hbra. clear Hbra.
  destruct Hle as [Hlt | [Heq Hm]]; cbn [fst snd] in *.
  - (* smaller exponent *)
    unfold round53.
    pose proof (cut53_bounds q (new_location b r) ltac:(lia) ltac:(lia)) as Hcut.
    destruct (cut53 q (new_location b r)) as [m1 l1]. cbn [fst] in Hcut.
    pose proof (round_nearest_even_bounds m1 l1) as Hrn.
    destruct (Z.ltb_spec (round_nearest_even m1 l1) (2 ^ 53));
      match goal with |- context [?x <=? 971] => destruct (Z.leb_spec x 971); [|lia] end;
      eexists _, _; (split; [reflexivity|]).
    + left. lia.
    + destruct (Z.eq_dec (ea - eb - 53 + Z.max (Zdigits2 q - 53) 0 + 1) (-52));
        [right; split; [assumption | reflexivity] | left; lia].
  - (* same exponent *)
    assert (Hq53 : q <= 2 ^ 53) by nia.
    destruct (Z.eq_dec q (2 ^ 53)) as [Eq53 | Hne].
    + assert (r = 0) by nia. subst r.
      rewrite Eq53. replace (ea - eb - 53) with (-53) by lia.
      exists (Z.to_pos (2 ^ 52)), (-52). split; [|right; split; reflexivity].
      unfold new_location, new_location_even, new_location_odd.
      destruct (Z.even b); reflexivity.
    + unfold round53.
      assert (Hd53 : Zdigits2 q = 53) by (apply Zdigits2_unique; lia).
      pose proof (cut53_bounds q (new_location b r) ltac:(lia) ltac:(lia)) as Hcut.
      destruct (cut53 q (new_location b r)) as [m1 l1]. cbn [fst] in Hcut.
      pose proof (round_nearest_even_bounds m1 l1) as Hrn.
      rewrite Hd53.
      destruct (Z.ltb_spec (round_nearest_even m1 l1) (2 ^ 53));
        match goal with |- context [?x <=? 971] => destruct (Z.leb_spec x 971); [|lia] end;
        eexists _, _; (split; [reflexivity|]).
      * left. lia.
      * right. split; [lia | reflexivity].
Qed.

Lemma fl_parts_bounds z :
  0 < z ->
  2 ^ 52 <= fst (fl_parts z) < 2 ^ 53 /\
  Zdigits2 z - 53 <= snd (fl_parts z) <= Zdigits2 z - 52.
Proof.
  intros Hz. pose proof (fl_mant_bounds z Hz). unfold fl_parts.
  Zcompare_cases; cbn [fst snd]; lia.
Qed.

(** The quotient of two table cells [0 <= n <= d], [d] positive, as
    [_safe_div] computes it, lies between 0.0 and 1.0. *)
Lemma float_div_unit n d :
  0 <= n <= d -> 0 < d < 2 ^ 63 ->
  (0 <=? float_of_Z n / float_of_Z d)%float = true /\
  (float_of_Z n / float_of_Z d <=? 1)%float = true.
Proof.
  intros Hn Hd.
  rewrite !leb_spec, div_spec, !Prim2SF_float_of_Z. unfold SF64div.
  change (Prim2SF 0) with (S754_zero false).
  change (Prim2SF 1) with (S754_finite false 4503599627370496 (-52)).
  pose proof (Zdigits2_le d 63 ltac:(lia)) as Hdd.
  pose proof (Zdigits2_pos d ltac:(lia)) as Hdd0.
  pose proof (fl_parts_bounds d ltac:(lia)) as [Hmd Hed].
  rewrite (SFint_parts d) by lia.
  destruct (Z.eq_dec n 0) as [-> | Hn0].
  { split; reflexivity. }
  pose proof (Zdigits2_le n 63 ltac:(lia)) as Hdn.
  pose proof (Zdigits2_pos n ltac:(lia)) as Hdn0.
  pose proof (fl_parts_bounds n ltac:(lia)) as [Hmn Hen].
  rewrite (SFint_parts n) by lia.
  pose proof (fl_parts_mono n d ltac:(lia)) as Hle.
  destruct (SFdiv_le_one (Z.to_pos (fst (fl_parts n))) (snd (fl_parts n))
              (Z.to_pos (fst (fl_parts d))) (snd (fl_parts d)))
    as (m & e & -> & He); rewrite ?Z2Pos.id by lia; try lia.
  { destruct Hle; [left | right]; cbn [fst snd]; assumption. }
  split; [reflexivity|].
  unfold SFleb, SFcompare.
  destruct He as [He | [-> Hm]].
  - apply Z.compare_lt_iff in He. rewrite He. reflexivity.
  - assert (m = 4503599627370496%positive) as -> by lia. reflexivity.
Qed.


(** ** [_safe_div] *)

Lemma float_eqb_zero f : (f =? 0)%float = true <-> f = 0%float \/ f = (-0)%float.
Proof.
  split.
  - intros H. rewrite eqb_spec in H.
    change (Prim2SF 0) with (S754_zero false) in H.
    rewrite <- (SF2Prim_Prim2SF f).
    destruct (Prim2SF f) as [[] | [] | | [] m e]; try discriminate H; auto.
  - intros [-> | ->]; reflexivity.
Qed.

Lemma truthy_false d :
  truthy d = false <->
  d = Int 0 \/ d = PyLong 0 \/ d = Float 0%float \/ d = Float (-0)%float.
Proof.
  split.
  - destruct d as [z | f | z]; cbn [truthy]; intros H; apply negb_false_iff in H.
    + apply Z.eqb_eq in H. subst z. auto.
    + apply float_eqb_zero in H. destruct H as [-> | ->]; auto.
    + apply Z.eqb_eq in H. subst z. auto.
  - intros [-> | [-> | [-> | ->]]]; reflexivity.
Qed.

Lemma truthy_float_value d : truthy d = true -> (float_value d =? 0)%float = false.
Proof.
  destruct d as [z | f | z]; cbn [truthy float_value]; intros H;
    apply negb_true_iff in H.
  - apply float_of_Z_nonzero. now apply Z.eqb_neq.
  - exact H.
  - apply float_of_Z_nonzero. now apply Z.eqb_neq.
Qed.

(** What [_safe_div] returns when both conversions succeed. *)
Lemma safe_div_eq n d :
  float_overflows n = false -> float_overflows d = false ->
  _safe_div n d = Ok (safe_div_value n d).
Proof.
  intros Hn Hd. unfold _safe_div, safe_div_value, py_float, py_truediv.
  destruct (truthy d) eqn:Ht; [|reflexivity].
  rewrite Hn, Hd. cbn [bind]. now rewrite (truthy_float_value d Ht).
Qed.

(** On the integers the module passes [_safe_div] never raises. *)
Lemma safe_div_value_eq a b :
  _safe_div (Int a) (Int b) = Ok (safe_div_value (Int a) (Int b)).
Proof. now apply safe_div_eq. Qed.

(** ** [compute_match_metrics] *)

(** C3.  [compute_match_metrics] never raises; the dictionary it returns
    holds the four rates, each the [_safe_div] of its pair of counters; on
    the row of the repository's test it returns 0.8, 0.75, 0.5 and 0.75. *)
Theorem compute_match_metrics_spec :
  (forall (D : Type) (row : Row D),
     exists m : Metrics.t,
       compute_match_metrics row = Ok m /\
       _safe_div (Int (first_serve_in row)) (Int (first_serve_total row))
         = Ok (Metrics.first_serve_pct m) /\
       _safe_div (Int (first_serve_points_won row)) (Int (first_serve_points_total row))
         = Ok (Metrics.first_serve_pts_won_pct m) /\
       _safe_div (Int (second_serve_points_won row)) (Int (second_serve_points_total row))
         = Ok (Metrics.second_serve_pts_won_pct m) /\
       _safe_div (Int (break_points_saved row)) (Int (break_points_faced row))
         = Ok (Metrics.break_points_saved_pct m)) /\
  compute_match_metrics test_row_1 = Ok (Metrics.mk 0.8 0.75 0.5 0.75).
Proof.
  split; [|reflexivity].
  intros D row. unfold compute_match_metrics.
  rewrite !safe_div_value_eq. cbn [bind]. eexists. split; [reflexivity|].
  cbn [Metrics.first_serve_pct Metrics.first_serve_pts_won_pct
       Metrics.second_serve_pts_won_pct Metrics.break_points_saved_pct].
  repeat split; reflexivity.
Qed.

(** ** Columns *)

Lemma wrap64_small z : int64 z -> wrap64 z = z.
Proof. unfold int64. intros Hz. unfold wrap64. rewrite Z.mod_small; lia. Qed.

Lemma wrap64_range z : int64 (wrap64 z).
Proof.
  unfold int64, wrap64. pose proof (Z.mod_pos_bound (z + 2 ^ 63) (2 ^ 64) ltac:(lia)). lia.
Qed.

Lemma wrap64_add_l a x : wrap64 (wrap64 a + x) = wrap64 (a + x).
Proof.
  unfold wrap64.
  replace ((a + 2 ^ 63) mod 2 ^ 64 - 2 ^ 63 + x + 2 ^ 63)
    with ((a + 2 ^ 63) mod 2 ^ 64 + x) by lia.
  rewrite Zplus_mod_idemp_l. f_equal. f_equal. lia.
Qed.

Lemma Series_sum_from xs acc :
  fold_left (fun a x => wrap64 (a + x)) xs (wrap64 acc) = wrap64 (acc + Zsum xs).
Proof.
  revert acc. induction xs as [|x xs IH]; intros acc; cbn [fold_left Zsum fold_right].
  - now rewrite Z.add_0_r.
  - rewrite wrap64_add_l, IH. f_equal. unfold Zsum. lia.
Qed.

(** The int64 column sum is the exact sum reduced modulo 2^64. *)
Lemma Series_sum_spec xs : Series_sum xs = wrap64 (Zsum xs).
Proof. exact (Series_sum_from xs 0). Qed.

Lemma Zsum_perm xs ys : Permutation xs ys -> Zsum xs = Zsum ys.
Proof.
  induction 1; cbn [Zsum fold_right] in *; unfold Zsum in *; cbn [fold_right]; lia.
Qed.

Lemma bool_sum_from bs acc :
  fold_left (fun a (b : bool) => if b then a + 1 else a) bs acc =
  acc + Z.of_nat (List.length (filter (fun b => b) bs)).
Proof.
  revert acc. induction bs as [|b bs IH]; intros acc; cbn [fold_left filter].
  - cbn. lia.
  - rewrite IH. destruct b; cbn [List.length]; lia.
Qed.

Lemma bool_sum_count {D : Type} (s : string) (df : list (Row D)) :
  bool_sum (Series_eq (col result df) s) = count_result s df.
Proof.
  unfold bool_sum, count_result, Series_eq, col. rewrite bool_sum_from, Z.add_0_l.
  f_equal. induction df as [|r df IH]; [reflexivity|].
  cbn [map filter]. destruct (String.eqb (result r) s); cbn [List.length]; now rewrite IH.
Qed.

Lemma count_result_perm {D : Type} (s : string) (df1 df2 : list (Row D)) :
  Permutation df1 df2 -> count_result s df1 = count_result s df2.
Proof.
  intros H. unfold count_result. f_equal.
  induction H as [| x l l' _ IH | x y l | l l' l'' _ IH1 _ IH2]; cbn [filter].
  - reflexivity.
  - destruct (String.eqb (result x) s); cbn [List.length]; now rewrite IH.
  - destruct (String.eqb (result x) s), (String.eqb (result y) s); reflexivity.
  - now rewrite IH1.
Qed.

(** ** [compute_summary] *)

(** [compute_summary] never raises, and this is what it returns. *)
Lemma compute_summary_eq {D : Type} (df : list (Row D)) :
  compute_summary df =
  Ok (Summary.mk
        (Z.of_nat (List.length df))
        (count_result "W" df)
        (count_result "L" df)
        (safe_div_value (Int (count_result "W" df)) (Int (Z.of_nat (List.length df))))
        (if truthy (Int (Z.of_nat (List.length df)))
         then Series_mean (col aces df) else 0%float)
        (if truthy (Int (Z.of_nat (List.length df)))
         then Series_mean (col double_faults df) else 0%float)
        (safe_div_value (Int (wrap64 (Zsum (col first_serve_in df))))
                        (Int (wrap64 (Zsum (col first_serve_total df)))))
        (safe_div_value (Int (wrap64 (Zsum (col first_serve_points_won df))))
                        (Int (wrap64 (Zsum (col first_serve_points_total df)))))
        (safe_div_value (Int (wrap64 (Zsum (col second_serve_points_won df))))
                        (Int (wrap64 (Zsum (col second_serve_points_total df)))))
        (safe_div_value (Int (wrap64 (Zsum (col break_points_saved df))))
                        (Int (wrap64 (Zsum (col break_points_faced df)))))).
Proof.
  unfold compute_summary. rewrite !safe_div_value_eq. cbn [bind].
  now rewrite !bool_sum_count, !Series_sum_spec.
Qed.

(** C1, as the code has it.  Each of the four season rates of
    [compute_summary] is [_safe_div] of two column sums, the numerator's
    and the denominator's, each summed over all rows.  The sums are
    pandas' sums of int64 columns: the exact sums whenever these fit an
    int64, and reduced modulo 2^64 otherwise.  On the two rows of the
    repository's test, whose denominators differ, each rate differs from
    the mean of the two per-match rates. *)
Theorem season_rates_sum_then_divide :
  (forall (D : Type) (df : list (Row D)),
     exists s : Summary.t,
       compute_summary df = Ok s /\
       _safe_div (Int (wrap64 (Zsum (col first_serve_in df))))
                 (Int (wrap64 (Zsum (col first_serve_total df))))
         = Ok (Summary.first_serve_pct s) /\
       _safe_div (Int (wrap64 (Zsum (col first_serve_points_won df))))
                 (Int (wrap64 (Zsum (col first_serve_points_total df))))
         = Ok (Summary.first_serve_pts_won_pct s) /\
       _safe_div (Int (wrap64 (Zsum (col second_serve_points_won df))))
                 (Int (wrap64 (Zsum (col second_serve_points_total df))))
         = Ok (Summary.second_serve_pts_won_pct s) /\
       _safe_div (Int (wrap64 (Zsum (col break_points_saved df))))
                 (Int (wrap64 (Zsum (col break_points_faced df))))
         = Ok (Summary.break_points_saved_pct s)) /\
  (forall (D : Type) (df : list (Row D)) (s : Summary.t),
     compute_summary df = Ok s ->
     (int64 (Zsum (col first_serve_in df)) ->
      int64 (Zsum (col first_serve_total df)) ->
      _safe_div (Int (Zsum (col first_serve_in df)))
                (Int (Zsum (col first_serve_total df)))
        = Ok (Summary.first_serve_pct s)) /\
     (int64 (Zsum (col first_serve_points_won df)) ->
      int64 (Zsum (col first_serve_points_total df)) ->
      _safe_div (Int (Zsum (col first_serve_points_won df)))
                (Int (Zsum (col first_serve_points_total df)))
        = Ok (Summary.first_serve_pts_won_pct s)) /\
     (int64 (Zsum (col second_serve_points_won df)) ->
      int64 (Zsum (col second_serve_points_total df)) ->
      _safe_div (Int (Zsum (col second_serve_points_won df)))
                (Int (Zsum (col second_serve_points_total df)))
        = Ok (Summary.second_serve_pts_won_pct s)) /\
     (int64 (Zsum (col break_points_saved df)) ->
      int64 (Zsum (col break_points_faced df)) ->
      _safe_div (Int (Zsum (col break_points_saved df)))
                (Int (Zsum (col break_points_faced df)))
        = Ok (Summary.break_points_saved_pct s))) /\
  (exists (s : Summary.t) (m1 m2 : Metrics.t),
     compute_summary [test_row_1; test_row_2] = Ok s /\
     compute_match_metrics test_row_1 = Ok m1 /\
     compute_match_metrics test_row_2 = Ok m2 /\
     first_serve_total test_row_1 <> first_serve_total test_row_2 /\
     _safe_div (Int (40 + 30)) (Int (50 + 60)) = Ok (Summary.first_serve_pct s) /\
     (Summary.first_serve_pct s
      =? (Metrics.first_serve_pct m1 + Metrics.first_serve_pct m2) / 2)%float = false /\
     (Summary.first_serve_pts_won_pct s
      =? (Metrics.first_serve_pts_won_pct m1 + Metrics.first_serve_pts_won_pct m2) / 2)%float
       = false /\
     (Summary.second_serve_pts_won_pct s
      =? (Metrics.second_serve_pts_won_pct m1 + Metrics.second_serve_pts_won_pct m2) / 2)%float
       = false /\
     (Summary.break_points_saved_pct s
      =? (Metrics.break_points_saved_pct m1 + Metrics.break_points_saved_pct m2) / 2)%float
       = false).
Proof.
  split; [| split].
  - intros D df. rewrite compute_summary_eq. eexists. split; [reflexivity|].
    cbn [Summary.first_serve_pct Summary.first_serve_pts_won_pct
         Summary.second_serve_pts_won_pct Summary.break_points_saved_pct].
    repeat split; apply safe_div_value_eq.
  - intros D df s Hs. rewrite compute_summary_eq in Hs. injection Hs as <-.
    cbn [Summary.first_serve_pct Summary.first_serve_pts_won_pct
         Summary.second_serve_pts_won_pct Summary.break_points_saved_pct].
    repeat split; intros Hn Hd;
      rewrite (wrap64_small _ Hn), (wrap64_small _ Hd); apply safe_div_value_eq.
  - do 3 eexists.
    split; [vm_compute; reflexivity|].
    split; [vm_compute; reflexivity|].
    split; [vm_compute; reflexivity|].
    split; [discriminate|].
    repeat split; vm_compute; reflexivity.
Qed.

Lemma season_rates_sum_then_divide_witness :
  exists s : Summary.t,
    compute_summary [test_row_1; test_row_2] = Ok s /\
    _safe_div (Int (Zsum [40; 30])) (Int (Zsum [50; 60])) = Ok (Summary.first_serve_pct s).
Proof.
  destruct (proj1 season_rates_sum_then_divide unit [test_row_1; test_row_2])
    as (s & Hs & _).
  exists s. split; [exact Hs|].
  apply (proj1 (proj2 season_rates_sum_then_divide) unit [test_row_1; test_row_2] s Hs);
    unfold int64; cbn; lia.
Defined.

(** C1, as stated, fails on a table whose totals do not fit an int64.
    Three matches with 2^62 first serves each, all in but those of the
    third match, have valid counters; the exact totals are 2^63 in of
    3 * 2^62, two thirds, but the column sums wrap around to -2^63 and
    -2^62, and the season rate is 2.0. *)
Lemma season_rate_wraps :
  Forall counters_valid long_season /\
  Forall (fun r => first_serve_in r <= first_serve_total r) long_season /\
  Zsum (col first_serve_in long_season) = 2 ^ 63 /\
  Zsum (col first_serve_total long_season) = 3 * 2 ^ 62 /\
  (exists s : Summary.t,
     compute_summary long_season = Ok s /\ Summary.first_serve_pct s = 2%float) /\
  (exists r : float,
     _safe_div (PyLong (Zsum (col first_serve_in long_season)))
               (PyLong (Zsum (col first_serve_total long_season))) = Ok r /\
     (r <? 1)%float = true).
Proof.
  split; [repeat constructor; cbn; lia|].
  split; [repeat constructor; cbn; lia|].
  split; [reflexivity|]. split; [reflexivity|].
  split; eexists; (split; [vm_compute; reflexivity|]); reflexivity.
Qed.

(** C4.  On the empty table [compute_summary] returns zero matches, wins
    and losses, and 0.0 for the win rate, both averages and the four
    rates.  The averages are 0.0 because the guard [if matches] skips
    [Series.mean], which on an empty column is NaN. *)
Theorem compute_summary_empty :
  forall D : Type,
    compute_summary (@nil (Row D)) = Ok (Summary.mk 0 0 0 0 0 0 0 0 0 0) /\
    Series_mean (col aces (@nil (Row D))) = nan /\
    Series_mean (col double_faults (@nil (Row D))) = nan.
Proof. intros D. repeat split; reflexivity. Qed.

Lemma count_result_bounds {D : Type} (df : list (Row D)) :
  0 <= count_result "W" df /\ 0 <= count_result "L" df /\
  count_result "W" df + count_result "L" df <= Z.of_nat (List.length df) /\
  (Forall (fun r => result r = "W"%string \/ result r = "L"%string) df ->
   count_result "W" df + count_result "L" df = Z.of_nat (List.length df)).
Proof.
  unfold count_result. induction df as [|r df (HW & HL & Hle & Heq)].
  - cbn. repeat split; try lia.
  - cbn [filter].
    destruct (String.eqb_spec (result r) "W") as [EW | NW];
      destruct (String.eqb_spec (result r) "L") as [EL | NL];
      try (rewrite EW in EL; discriminate EL);
      cbn [List.length]; (repeat split; try lia);
      intros HF; inversion HF as [| ? ? Hr HF']; subst;
      specialize (Heq HF'); try lia.
    destruct Hr; contradiction.
Qed.

(** C10.  In the summary, [wins] counts the rows whose result is "W",
    [losses] those whose result is "L" and [matches] all rows; no row is
    counted twice, so [wins + losses <= matches], with equality when every
    result is "W" or "L". *)
Theorem wins_losses_matches :
  forall (D : Type) (df : list (Row D)),
    exists s : Summary.t,
      compute_summary df = Ok s /\
      Summary.matches s = Z.of_nat (List.length df) /\
      Summary.wins s = count_result "W" df /\
      Summary.losses s = count_result "L" df /\
      (forall r : Row D,
         String.eqb (result r) "W" && String.eqb (result r) "L" = false) /\
      Summary.wins s + Summary.losses s <= Summary.matches s /\
      (Forall (fun r => result r = "W"%string \/ result r = "L"%string) df ->
       Summary.wins s + Summary.losses s = Summary.matches s).
Proof.
  intros D df. rewrite compute_summary_eq. eexists. split; [reflexivity|].
  cbn [Summary.matches Summary.wins Summary.losses].
  destruct (count_result_bounds df) as (_ & _ & Hle & Heq).
  repeat split; try assumption.
  intros r. destruct (String.eqb_spec (result r) "W") as [-> | _]; reflexivity.
Qed.

(** ** Rates lie between 0.0 and 1.0 *)

Lemma safe_div_value_unit n d :
  counter n -> counter d -> n <= d -> 0 < d ->
  unit_interval (safe_div_value (Int n) (Int d)).
Proof.
  unfold counter. intros Hn Hd Hle Hpos. unfold safe_div_value, truthy, float_value.
  destruct (Z.eqb_spec d 0) as [E | _]; [lia|]. cbn [negb].
  apply float_div_unit; lia.
Qed.

Lemma safe_div_value_zero n d : d = 0 -> safe_div_value n (Int d) = 0%float.
Proof. intros ->. reflexivity. Qed.

(** C5.  For a match record, whose counters are non-negative integers
    (held in int64 cells), each of the four rates of
    [compute_match_metrics] lies in [0.0, 1.0] when its numerator is at
    most its denominator and the denominator is positive, and is 0.0
    when the denominator is zero. *)
Theorem metrics_in_unit_interval :
  forall (D : Type) (row : Row D) (m : Metrics.t),
    counters_valid row ->
    compute_match_metrics row = Ok m ->
    ((first_serve_in row <= first_serve_total row -> 0 < first_serve_total row ->
      unit_interval (Metrics.first_serve_pct m)) /\
     (first_serve_total row = 0 -> Metrics.first_serve_pct m = 0%float)) /\
    ((first_serve_points_won row <= first_serve_points_total row ->
      0 < first_serve_points_total row ->
      unit_interval (Metrics.first_serve_pts_won_pct m)) /\
     (first_serve_points_total row = 0 -> Metrics.first_serve_pts_won_pct m = 0%float)) /\
    ((second_serve_points_won row <= second_serve_points_total row ->
      0 < second_serve_points_total row ->
      unit_interval (Metrics.second_serve_pts_won_pct m)) /\
     (second_serve_points_total row = 0 -> Metrics.second_serve_pts_won_pct m = 0%float)) /\
    ((break_points_saved row <= break_points_faced row -> 0 < break_points_faced row ->
      unit_interval (Metrics.break_points_saved_pct m)) /\
     (break_points_faced row = 0 -> Metrics.break_points_saved_pct m = 0%float)).
Proof.
  intros D row m (H1 & H2 & H3 & H4 & H5 & H6 & H7 & H8) Hm.
  unfold compute_match_metrics in Hm. rewrite !safe_div_value_eq in Hm.
  cbn [bind] in Hm. injection Hm as <-.
  cbn [Metrics.first_serve_pct Metrics.first_serve_pts_won_pct
       Metrics.second_serve_pts_won_pct Metrics.break_points_saved_pct].
  repeat split;
    solve [ intros; apply safe_div_value_unit; assumption
          | intros; apply safe_div_value_zero; assumption ].
Qed.

Lemma metrics_in_unit_interval_witness :
  counters_valid test_row_1 /\
  compute_match_metrics test_row_1 = Ok (Metrics.mk 0.8 0.75 0.5 0.75) /\
  unit_interval 0.8%float /\ unit_interval 0.75%float /\ unit_interval 0.5%float.
Proof.
  assert (Hv : counters_valid test_row_1) by (unfold counters_valid, counter; cbn; lia).
  assert (Hm : compute_match_metrics test_row_1 = Ok (Metrics.mk 0.8 0.75 0.5 0.75))
    by reflexivity.
  pose proof (metrics_in_unit_interval unit test_row_1 _ Hv Hm)
    as ((U1 & _) & (U2 & _) & (U3 & _) & _).
  split; [exact Hv|]. split; [exact Hm|].
  split; [apply U1; cbn; lia|]. split; [apply U2; cbn; lia | apply U3; cbn; lia].
Defined.

(** ** [compute_summary] and the order of the rows *)

Lemma float_add_int a b :
  0 <= a -> 0 <= b -> a + b < 2 ^ 53 ->
  (float_of_Z a + float_of_Z b)%float = float_of_Z (a + b).
Proof.
  intros Ha Hb Hab. apply Prim2SF_inj.
  rewrite add_spec, !Prim2SF_float_of_Z. now apply SFadd_int.
Qed.

Lemma float_sum_exact xs a :
  0 <= a -> Forall (fun x => 0 <= x) xs -> a + Zsum xs < 2 ^ 53 ->
  fold_left (fun acc x => acc + float_of_Z x)%float xs (float_of_Z a) =
  float_of_Z (a + Zsum xs).
Proof.
  revert a. induction xs as [|x xs IH]; intros a Ha Hxs Hsum;
    cbn [fold_left Zsum fold_right] in *.
  - now rewrite Z.add_0_r.
  - inversion Hxs as [| ? ? Hx Hxs']; subst.
    fold (Zsum xs) in Hsum.
    assert (Hnn : 0 <= Zsum xs).
    { clear -Hxs'. induction Hxs'; cbn [Zsum fold_right]; [lia|]. unfold Zsum in *. lia. }
    rewrite float_add_int by lia.
    rewrite IH by (try assumption; lia).
    fold (Zsum xs). f_equal. lia.
Qed.

(** The mean of a column whose running sums are exact. *)
Lemma Series_mean_exact xs :
  exact_column xs -> xs <> [] ->
  Series_mean xs =
  (float_of_Z (Zsum xs) / float_of_Z (Z.of_nat (List.length xs)))%float.
Proof.
  intros [Hnn Hsum] Hne. unfold Series_mean.
  destruct xs as [|x xs]; [contradiction|].
  change 0%float with (float_of_Z 0) at 1.
  now rewrite float_sum_exact by (try assumption; lia).
Qed.

Lemma Zsum_app xs ys : Zsum (xs ++ ys) = Zsum xs + Zsum ys.
Proof.
  unfold Zsum. induction xs as [|x xs IH]; cbn [app fold_right]; lia.
Qed.

Lemma Zsum_nonneg xs : Forall (fun x => 0 <= x) xs -> 0 <= Zsum xs.
Proof.
  unfold Zsum. induction 1 as [|x xs Hx _ IH]; cbn [fold_right]; lia.
Qed.

(** Whatever the order and grouping of the additions, the float64 sum of
    an exact column is the float of its exact sum. *)
Lemma tree_sum_exact t :
  exact_column (tree_cells t) -> tree_sum t = float_of_Z (Zsum (tree_cells t)).
Proof.
  induction t as [x | l IHl r IHr]; intros [Hnn Hsum]; cbn [tree_sum tree_cells] in *.
  - cbn [Zsum fold_right]. now rewrite Z.add_0_r.
  - apply Forall_app in Hnn as [Hl Hr]. rewrite Zsum_app in *.
    pose proof (Zsum_nonneg _ Hl). pose proof (Zsum_nonneg _ Hr).
    rewrite IHl, IHr by (split; [assumption | lia]).
    apply float_add_int; lia.
Qed.

Lemma exact_column_perm xs ys :
  Permutation xs ys -> exact_column xs -> exact_column ys.
Proof.
  intros HP [Hnn Hsum]. split.
  - eapply Permutation_Forall; eassumption.
  - now rewrite <- (Zsum_perm xs ys HP).
Qed.

Lemma Series_mean_perm xs ys :
  Permutation xs ys -> exact_column xs -> Series_mean xs = Series_mean ys.
Proof.
  intros HP Hex.
  destruct xs as [|x xs].
  - apply Permutation_nil in HP. now subst.
  - assert (Hys : ys <> []).
    { intros ->. apply Permutation_sym, Permutation_nil in HP. discriminate. }
    rewrite (Series_mean_exact (x :: xs)), (Series_mean_exact ys);
      try discriminate; try assumption; [| eapply exact_column_perm; eassumption].
    now rewrite (Zsum_perm _ _ HP), (Permutation_length HP).
Qed.

(** ** Float64 addition of integers of any size *)

Lemma rne_shift p n j :
  0 <= n -> 0 <= j -> rne (p * 2 ^ j) (n + j) = rne p n.
Proof.
  intros Hn Hj. unfold rne.
  assert (Hpn : 0 < 2 ^ n) by (apply Z.pow_pos_nonneg; lia).
  assert (Hpj : 0 < 2 ^ j) by (apply Z.pow_pos_nonneg; lia).
  rewrite Z.pow_add_r by lia.
  rewrite Z.div_mul_cancel_r by lia.
  rewrite Z.mul_mod_distr_r by lia.
  set (q := p / 2 ^ n). set (r := p mod 2 ^ n).
  replace (2 ^ n * 2 ^ j <? 2 * (r * 2 ^ j)) with (2 ^ n <? 2 * r).
  2:{ destruct (Z.ltb_spec (2 ^ n) (2 * r)), (Z.ltb_spec (2 ^ n * 2 ^ j) (2 * (r * 2 ^ j)));
        try reflexivity; nia. }
  replace (2 ^ n * 2 ^ j =? 2 * (r * 2 ^ j)) with (2 ^ n =? 2 * r).
  2:{ destruct (Z.eqb_spec (2 ^ n) (2 * r)), (Z.eqb_spec (2 ^ n * 2 ^ j) (2 * (r * 2 ^ j)));
        try reflexivity; nia. }
  reflexivity.
Qed.

Lemma rne_0 p : rne p 0 = p.
Proof.
  unfold rne. change (2 ^ 0) with 1. rewrite Z.div_1_r, Z.mod_1_r. reflexivity.
Qed.

Lemma fl_mant_shift z k : 0 < z -> 0 <= k -> fl_mant (z * 2 ^ k) = fl_mant z.
Proof.
  intros Hz Hk. unfold fl_mant. rewrite Zdigits2_shift by lia.
  pose proof (Zdigits2_pos z Hz) as Hd.
  set (d := Zdigits2 z) in *.
  destruct (Z.leb_spec (d + k) 53) as [H1 | H1]; destruct (Z.leb_spec d 53) as [H2 | H2];
    try lia.
  - rewrite <- Z.mul_assoc, <- Z.pow_add_r by lia. do 2 f_equal. lia.
  - replace (z * 2 ^ k) with (z * 2 ^ (53 - d) * 2 ^ (d + k - 53)).
    + replace (d + k - 53) with (0 + (d + k - 53)) at 2 by lia.
      rewrite rne_shift by lia. apply rne_0.
    + rewrite <- Z.mul_assoc, <- Z.pow_add_r by lia. do 2 f_equal. lia.
  - replace (d + k - 53) with (d - 53 + k) by lia. apply rne_shift; lia.
Qed.

Lemma fl_parts_shift z k :
  0 < z -> 0 <= k ->
  fl_parts (z * 2 ^ k) = (fst (fl_parts z), snd (fl_parts z) + k).
Proof.
  intros Hz Hk. unfold fl_parts. rewrite fl_mant_shift, Zdigits2_shift by lia.
  destruct (Z.ltb_spec (fl_mant z) (2 ^ 53)); cbn [fst snd]; f_equal; lia.
Qed.

(** The float64 value of [p * 2^e], for an exponent in the normal range. *)
Lemma binary_round_parts sx p e :
  -1074 <= e -> -1074 <= Zdigits2 (Zpos p) + e - 53 -> Zdigits2 (Zpos p) + e <= 1023 ->
  binary_round prec emax sx p e =
  S754_finite sx (Z.to_pos (fst (fl_parts (Zpos p)))) (snd (fl_parts (Zpos p)) + e).
Proof.
  intros He Hlo Hhi. pose proof (fl_mant_bounds (Zpos p) (Pos2Z.is_pos p)) as Hb.
  pose proof (Zdigits2_pos (Zpos p) (Pos2Z.is_pos p)) as Hdp.
  rewrite binary_round_normal by lia.
  set (z := Zpos p) in *.
  assert (Hz : 0 < z) by (subst z; lia).
  unfold fl_parts, round53.
  assert (Hm2 : round_nearest_even (fst (cut53 (fst (align53 z e)) loc_Exact))
                  (snd (cut53 (fst (align53 z e)) loc_Exact)) = fl_mant z).
  { unfold fl_mant, align53. cbn [fst].
    destruct (Z.leb_spec (Zdigits2 z) 53) as [Hle | Hgt].
    - rewrite Z.max_l by lia. unfold cut53.
      rewrite Zdigits2_shift by lia.
      destruct (Z.leb_spec (Zdigits2 z + (53 - Zdigits2 z) - 53) 0); [|lia].
      reflexivity.
    - rewrite Z.max_r by lia. rewrite Z.mul_1_r. apply cut53_round; lia. }
  destruct (cut53 (fst (align53 z e)) loc_Exact) as [m1 l1]. cbn [fst snd] in Hm2.
  rewrite Hm2.
  unfold align53. cbn [fst snd]. rewrite Zdigits2_shift by lia.
  destruct (Z.ltb_spec (fl_mant z) (2 ^ 53)); cbn [fst snd];
    match goal with |- context [?x <=? 971] => destruct (Z.leb_spec x 971); [|lia] end;
    f_equal; lia.
Qed.

(** The value of the float of a positive integer, scaled to an integer. *)
Lemma round53Z_scaled z k :
  0 < z -> 0 <= k -> 0 <= snd (fl_parts z) + k ->
  round53Z z * 2 ^ k = fst (fl_parts z) * 2 ^ (snd (fl_parts z) + k).
Proof.
  intros Hz Hk Hek. unfold round53Z.
  destruct (Z.ltb_spec (snd (fl_parts z)) 0) as [Hneg | Hpos].
  - (* below 2^53: the integer itself *)
    unfold fl_parts in *. pose proof (fl_mant_bounds z Hz) as Hb.
    pose proof (Zdigits2_pos z Hz) as Hd.
    destruct (Z.ltb_spec (fl_mant z) (2 ^ 53)) as [Hlt | Hge]; cbn [fst snd] in *.
    + unfold fl_mant in *.
      destruct (Z.leb_spec (Zdigits2 z) 53); [|lia].
      rewrite <- Z.mul_assoc, <- Z.pow_add_r by lia. do 2 f_equal. lia.
    + exfalso. unfold fl_mant in Hge.
      destruct (Z.leb_spec (Zdigits2 z) 53) as [Hle | Hgt]; [|lia].
      pose proof (Zdigits2_bounds z Hz) as [_ Hhi].
      assert (z * 2 ^ (53 - Zdigits2 z) < 2 ^ 53).
      { replace (2 ^ 53) with (2 ^ Zdigits2 z * 2 ^ (53 - Zdigits2 z)).
        - apply Z.mul_lt_mono_pos_r; [apply Z.pow_pos_nonneg; lia | exact Hhi].
        - rewrite <- Z.pow_add_r by lia. f_equal. lia. }
      lia.
  - rewrite <- Z.mul_assoc, <- Z.pow_add_r by lia. reflexivity.
Qed.

Lemma round53Z_pos z : 0 < z -> 0 < round53Z z.
Proof.
  intros Hz. unfold round53Z. pose proof (fl_parts_bounds z Hz) as [Hm _].
  destruct (Z.ltb_spec (snd (fl_parts z)) 0); [exact Hz|].
  assert (0 < 2 ^ snd (fl_parts z)) by (apply Z.pow_pos_nonneg; lia). nia.
Qed.

Lemma round53Z_lt z k :
  0 <= k -> 0 < z < 2 ^ (54 + k) -> round53Z z < 2 ^ (55 + k).
Proof.
  intros Hk Hz. unfold round53Z.
  pose proof (fl_parts_bounds z ltac:(lia)) as [Hm He].
  pose proof (Zdigits2_le z (54 + k) Hz) as Hd.
  assert (Hp : 2 ^ (54 + k) < 2 ^ (55 + k)) by (apply Z.pow_lt_mono_r; lia).
  destruct (Z.ltb_spec (snd (fl_parts z)) 0) as [L | G]; [lia|].
  assert (2 ^ snd (fl_parts z) <= 2 ^ (2 + k)) by (apply Z.pow_le_mono_r; lia).
  assert (0 < 2 ^ snd (fl_parts z)) by (apply Z.pow_pos_nonneg; lia).
  replace (55 + k) with (53 + (2 + k)) by lia. rewrite Z.pow_add_r by lia.
  nia.
Qed.

(** The sum of the floats of two positive integers is the float of the
    sum of the two integers these floats hold. *)
Lemma SFadd_pos a b k :
  0 <= k <= 900 -> 0 < a < 2 ^ (54 + k) -> 0 < b < 2 ^ (54 + k) ->
  SFadd prec emax (SFint a) (SFint b) = SFint (round53Z a + round53Z b).
Proof.
  intros Hk9 Ha Hb.
  pose proof (Zdigits2_le a (54 + k) Ha) as Hda.
  pose proof (Zdigits2_pos a ltac:(lia)) as Hda0.
  pose proof (Zdigits2_le b (54 + k) Hb) as Hdb.
  pose proof (Zdigits2_pos b ltac:(lia)) as Hdb0.
  pose proof (fl_parts_bounds a ltac:(lia)) as [Hma Hea].
  pose proof (fl_parts_bounds b ltac:(lia)) as [Hmb Heb].
  pose proof (round53Z_pos a ltac:(lia)) as Hra.
  pose proof (round53Z_pos b ltac:(lia)) as Hrb.
  rewrite (SFint_parts a), (SFint_parts b) by lia.
  set (ma := fst (fl_parts a)) in *. set (ea := snd (fl_parts a)) in *.
  set (mb := fst (fl_parts b)) in *. set (eb := snd (fl_parts b)) in *.
  cbn [SFadd cond_Zopp].
  set (ez := Z.min ea eb).
  destruct (shl_align_spec (Z.to_pos ma) ea ez) as [HMa _].
  destruct (shl_align_spec (Z.to_pos mb) eb ez) as [HMb _].
  rewrite HMa, HMb, !Z2Pos.id by lia. clear HMa HMb.
  rewrite !Z.max_l by (subst ez; lia).
  set (S := round53Z a + round53Z b) in *.
  set (M := ma * 2 ^ (ea - ez) + mb * 2 ^ (eb - ez)).
  assert (HpA : 0 < 2 ^ (ea - ez)) by (apply Z.pow_pos_nonneg; subst ez; lia).
  assert (HpB : 0 < 2 ^ (eb - ez)) by (apply Z.pow_pos_nonneg; subst ez; lia).
  assert (HM : 0 < M) by (subst M; nia).
  assert (HS : 0 < S) by (subst S; lia).
  (* the exact sum, as an integer and as a mantissa with the exponent [ez] *)
  assert (Hrel : exists k j, 0 <= k /\ 0 <= j /\ ez + k = j /\ S * 2 ^ k = M * 2 ^ j /\
                             (k = 0 \/ j = 0)).
  { destruct (Z.le_gt_cases 0 ez) as [Hez | Hez].
    - exists 0, ez. repeat split; try lia.
      pose proof (round53Z_scaled a 0 ltac:(lia) ltac:(lia)) as Ea.
      pose proof (round53Z_scaled b 0 ltac:(lia) ltac:(lia)) as Eb.
      fold ma ea in Ea. fold mb eb in Eb.
      rewrite Z.add_0_r in Ea, Eb by (subst ez; lia).
      specialize (Ea ltac:(subst ez; lia)). specialize (Eb ltac:(subst ez; lia)).
      change (2 ^ 0) with 1 in *. rewrite Z.mul_1_r in *.
      subst S M. rewrite Ea, Eb, Z.mul_add_distr_r.
      rewrite <- !Z.mul_assoc, <- !Z.pow_add_r by (subst ez; lia).
      f_equal; do 2 f_equal; lia.
    - exists (- ez), 0. repeat split; try lia.
      pose proof (round53Z_scaled a (- ez) ltac:(lia) ltac:(lia)) as Ea.
      pose proof (round53Z_scaled b (- ez) ltac:(lia) ltac:(lia)) as Eb.
      fold ma ea in Ea. fold mb eb in Eb.
      specialize (Ea ltac:(subst ez; lia)). specialize (Eb ltac:(subst ez; lia)).
      change (2 ^ 0) with 1. rewrite Z.mul_1_r.
      subst S M. rewrite Z.mul_add_distr_r, Ea, Eb.
      f_equal; do 2 f_equal; lia. }
  destruct Hrel as (i & j & Hk & Hj & Hkj & Hrel & Hkj0).
  assert (Hparts : fst (fl_parts M) = fst (fl_parts S) /\
                   snd (fl_parts M) + ez = snd (fl_parts S)).
  { pose proof (fl_parts_shift S i HS Hk) as HFS.
    pose proof (fl_parts_shift M j HM Hj) as HFM.
    rewrite Hrel in HFS. rewrite HFS in HFM.
    injection HFM as H1 H2. split; [now symmetry|]. lia. }
  destruct Hparts as [HP1 HP2].
  (* sizes *)
  assert (HdM : Zdigits2 M + ez <= 57 + k /\ 53 <= Zdigits2 M + ez + 53 /\
                Zdigits2 S <= 56 + k).
  { pose proof (fl_parts_bounds M HM) as [_ HeM].
    pose proof (fl_parts_bounds S HS) as [_ HeS].
    assert (HSlt : S < 2 ^ (56 + k)).
    { pose proof (round53Z_lt a k ltac:(lia) Ha). pose proof (round53Z_lt b k ltac:(lia) Hb).
      subst S. replace (56 + k) with (1 + (55 + k)) by lia.
      rewrite Z.pow_add_r by lia. change (2 ^ 1) with 2. lia. }
    pose proof (Zdigits2_le S (56 + k) ltac:(lia)) as HdS.
    pose proof (Zdigits2_pos S HS) as HdS0.
    lia. }
  destruct M as [|P|P] eqn:EM; try lia.
  cbn [binary_normalize]. rewrite binary_round_parts by (subst ez; lia).
  rewrite (SFint_parts S) by lia.
  rewrite HP1, HP2. reflexivity.
Qed.

(** ** How far the float of an integer is from the integer *)

Lemma rne_half p k : 0 <= k -> 2 * Z.abs (rne p k * 2 ^ k - p) <= 2 ^ k.
Proof.
  intros Hk. unfold rne.
  assert (Hp : 0 < 2 ^ k) by (apply Z.pow_pos_nonneg; lia).
  pose proof (Z.div_mod p (2 ^ k) ltac:(lia)) as Hdm.
  pose proof (Z.mod_pos_bound p (2 ^ k) Hp) as Hr.
  set (q := p / 2 ^ k) in *. set (r := p mod 2 ^ k) in *.
  destruct (Z.ltb_spec (2 ^ k) (2 * r)) as [L | L]; cbn [orb].
  - nia.
  - destruct (Z.eqb_spec (2 ^ k) (2 * r)) as [E | E]; cbn [andb]; [destruct (Z.odd q)|]; nia.
Qed.

Lemma round53Z_small z : 0 < z -> Zdigits2 z <= 53 -> round53Z z = z.
Proof.
  intros Hz Hd. unfold round53Z.
  destruct (Z.ltb_spec (snd (fl_parts z)) 0) as [L | G]; [reflexivity|].
  pose proof (round53Z_scaled z 0 Hz ltac:(lia) ltac:(lia)) as E.
  unfold round53Z in E. destruct (Z.ltb_spec (snd (fl_parts z)) 0); [lia|].
  pose proof (fl_parts_bounds z Hz) as [Hm He].
  pose proof (Zdigits2_bounds z Hz) as [Hlo Hhi].
  assert (He0 : snd (fl_parts z) = 0 \/ snd (fl_parts z) = 1) by lia.
  unfold fl_parts, fl_mant in *.
  destruct (Z.leb_spec (Zdigits2 z) 53); [|lia].
  assert (Hlt : z * 2 ^ (53 - Zdigits2 z) < 2 ^ 53).
  { replace (2 ^ 53) with (2 ^ Zdigits2 z * 2 ^ (53 - Zdigits2 z)).
    - apply Z.mul_lt_mono_pos_r; [apply Z.pow_pos_nonneg; lia | exact Hhi].
    - rewrite <- Z.pow_add_r by lia. f_equal. lia. }
  destruct (Z.ltb_spec (z * 2 ^ (53 - Zdigits2 z)) (2 ^ 53)); [|lia].
  cbn [fst snd] in *.
  assert (Zdigits2 z = 53) by lia.
  replace (53 - Zdigits2 z) with 0 by lia. replace (Zdigits2 z - 53) with 0 by lia.
  change (2 ^ 0) with 1. lia.
Qed.

Lemma round53Z_large z :
  0 < z -> 53 < Zdigits2 z ->
  round53Z z = rne z (Zdigits2 z - 53) * 2 ^ (Zdigits2 z - 53).
Proof.
  intros Hz Hd. unfold round53Z.
  pose proof (fl_parts_bounds z Hz) as [Hm He].
  destruct (Z.ltb_spec (snd (fl_parts z)) 0) as [L | G]; [lia|].
  pose proof (fl_mant_bounds z Hz) as Hb.
  unfold fl_parts in *.
  assert (Hmant : fl_mant z = rne z (Zdigits2 z - 53)).
  { unfold fl_mant. destruct (Z.leb_spec (Zdigits2 z) 53); [lia | reflexivity]. }
  rewrite <- Hmant.
  destruct (Z.ltb_spec (fl_mant z) (2 ^ 53)) as [Hlt | Hge]; cbn [fst snd] in *.
  - reflexivity.
  - replace (fl_mant z) with (2 ^ 53) by lia.
    replace (Zdigits2 z - 52) with (1 + (Zdigits2 z - 53)) by lia.
    rewrite Z.pow_add_r by lia. change (2 ^ 53) with (2 ^ 52 * 2 ^ 1). lia.
Qed.

(** An integer below 2^(54+k) and its float are at most 2^k apart. *)
Lemma round53Z_near z k :
  0 <= k -> 0 < z < 2 ^ (54 + k) -> Z.abs (round53Z z - z) <= 2 ^ k.
Proof.
  intros Hk Hz.
  assert (Hp : 0 < 2 ^ k) by (apply Z.pow_pos_nonneg; lia).
  pose proof (Zdigits2_le z (54 + k) Hz) as Hd.
  destruct (Z.le_gt_cases (Zdigits2 z) 53) as [Hs | Hl].
  - rewrite round53Z_small by lia. rewrite Z.sub_diag. cbn [Z.abs]. lia.
  - rewrite round53Z_large by lia.
    pose proof (rne_half z (Zdigits2 z - 53) ltac:(lia)) as Hh.
    assert (2 ^ (Zdigits2 z - 53) <= 2 ^ (1 + k)) by (apply Z.pow_le_mono_r; lia).
    rewrite Z.pow_add_r in * by lia. change (2 ^ 1) with 2 in *. lia.
Qed.

Lemma round53Z_0 : round53Z 0 = 0.
Proof. reflexivity. Qed.

(** The float of an integer holds an integer that [float] leaves as it is. *)
Lemma fl_parts_53 m : 2 ^ 52 <= m < 2 ^ 53 -> fl_parts m = (m, 0).
Proof.
  intros Hm.
  assert (Hd : Zdigits2 m = 53).
  { pose proof (Zdigits2_le m 53 ltac:(lia)).
    pose proof (Zdigits2_bounds m ltac:(lia)) as [_ Hhi].
    destruct (Z.le_gt_cases 53 (Zdigits2 m)); [lia|].
    assert (2 ^ Zdigits2 m <= 2 ^ 52) by (apply Z.pow_le_mono_r; lia). lia. }
  unfold fl_parts, fl_mant. rewrite Hd. cbn [Z.leb Z.compare Pos.compare Pos.compare_cont].
  change (53 - 53) with 0. change (2 ^ 0) with 1. rewrite Z.mul_1_r.
  destruct (Z.ltb_spec m (2 ^ 53)); [reflexivity | lia].
Qed.

Lemma fl_parts_round z : 0 < z -> fl_parts (round53Z z) = fl_parts z.
Proof.
  intros Hz. unfold round53Z.
  destruct (Z.ltb_spec (snd (fl_parts z)) 0) as [L | G]; [reflexivity|].
  pose proof (fl_parts_bounds z Hz) as [Hm _].
  rewrite fl_parts_shift by lia. rewrite fl_parts_53 by lia. cbn [fst snd].
  rewrite Z.add_0_l. now destruct (fl_parts z).
Qed.

Lemma round53Z_near0 z k :
  0 <= k -> 0 <= z < 2 ^ (54 + k) ->
  0 <= round53Z z /\ Z.abs (round53Z z - z) <= 2 ^ k.
Proof.
  intros Hk Hz.
  assert (Hp : 0 < 2 ^ k) by (apply Z.pow_pos_nonneg; lia).
  destruct (Z.eq_dec z 0) as [-> | Hz0].
  - rewrite round53Z_0. cbn [Z.sub Z.abs Z.opp]. lia.
  - pose proof (round53Z_pos z ltac:(lia)). split; [lia|].
    apply round53Z_near; lia.
Qed.

Lemma float_of_Z_round z k :
  0 <= k <= 900 -> 0 <= z < 2 ^ (54 + k) -> float_of_Z (round53Z z) = float_of_Z z.
Proof.
  intros Hk Hz. destruct (Z.eq_dec z 0) as [-> | Hz0]; [reflexivity|].
  apply Prim2SF_inj. rewrite !Prim2SF_float_of_Z.
  pose proof (round53Z_pos z ltac:(lia)) as Hr.
  pose proof (round53Z_lt z k ltac:(lia) ltac:(lia)) as Hlt.
  pose proof (Zdigits2_le z (54 + k) ltac:(lia)).
  pose proof (Zdigits2_le (round53Z z) (55 + k) ltac:(lia)).
  rewrite (SFint_parts z), (SFint_parts (round53Z z)) by lia.
  now rewrite fl_parts_round by lia.
Qed.

Lemma float_zero_add n : (0 + float_of_Z n)%float = float_of_Z n.
Proof.
  apply Prim2SF_inj. rewrite add_spec, Prim2SF_float_of_Z. unfold SF64add.
  change (Prim2SF 0) with (S754_zero false).
  destruct (Z.eq_dec n 0) as [-> | Hn]; [reflexivity|].
  destruct (SFint_cases n Hn) as [(m & e & -> & _) | ->]; reflexivity.
Qed.

Lemma float_add_zero n : (float_of_Z n + 0)%float = float_of_Z n.
Proof.
  apply Prim2SF_inj. rewrite add_spec, Prim2SF_float_of_Z. unfold SF64add.
  change (Prim2SF 0) with (S754_zero false).
  destruct (Z.eq_dec n 0) as [-> | Hn]; [reflexivity|].
  destruct (SFint_cases n Hn) as [(m & e & -> & _) | ->]; reflexivity.
Qed.

(** The sum of the floats of two integers is the float of the sum of the
    two integers these floats hold. *)
Lemma float_add_round a b k :
  0 <= k <= 900 -> 0 <= a < 2 ^ (54 + k) -> 0 <= b < 2 ^ (54 + k) ->
  (float_of_Z a + float_of_Z b)%float = float_of_Z (round53Z a + round53Z b).
Proof.
  intros Hk Ha Hb.
  destruct (Z.eq_dec a 0) as [-> | Ha0].
  { rewrite round53Z_0, Z.add_0_l, (float_of_Z_round b k) by lia.
    apply (float_zero_add b). }
  destruct (Z.eq_dec b 0) as [-> | Hb0].
  { rewrite round53Z_0, Z.add_0_r, (float_of_Z_round a k) by lia.
    apply float_add_zero. }
  apply Prim2SF_inj. rewrite add_spec, !Prim2SF_float_of_Z.
  apply (SFadd_pos a b k); lia.
Qed.

(** The integer that the float of an integer holds. *)
Lemma float_to_Z_of_Z z k :
  0 <= k <= 900 -> 0 <= z < 2 ^ (54 + k) ->
  float_to_Z (float_of_Z z) = Some (round53Z z).
Proof.
  intros Hk Hz. destruct (Z.eq_dec z 0) as [-> | Hz0]; [reflexivity|].
  unfold float_to_Z. rewrite Prim2SF_float_of_Z.
  pose proof (Zdigits2_le z (54 + k) ltac:(lia)).
  rewrite SFint_parts by lia.
  pose proof (fl_parts_bounds z ltac:(lia)) as [Hm He].
  rewrite Z2Pos.id by lia.
  destruct (Z.leb_spec 0 (snd (fl_parts z))) as [G | L]; cbn [orb].
  - unfold round53Z. destruct (Z.ltb_spec (snd (fl_parts z)) 0); [lia | reflexivity].
  - pose proof (round53Z_scaled z (- snd (fl_parts z)) ltac:(lia) ltac:(lia) ltac:(lia)) as E.
    replace (snd (fl_parts z) + - snd (fl_parts z)) with 0 in E by lia.
    change (2 ^ 0) with 1 in E. rewrite Z.mul_1_r in E.
    assert (Hp : 0 < 2 ^ (- snd (fl_parts z))) by (apply Z.pow_pos_nonneg; lia).
    rewrite <- E, Z.mod_mul, Z.div_mul by lia. reflexivity.
Qed.

(** ** The float64 sum of a column in any order and grouping *)

Lemma leaves_pos t : 1 <= leaves t.
Proof. induction t; cbn [leaves]; lia. Qed.

(** However the cells are added, the float64 total is the float of an
    integer near the exact total: each addition can take it 2^(k+1)
    further away, where the exact total is below 2^(53+k). *)
Lemma tree_sum_near k t :
  0 <= k <= 900 ->
  Forall (fun x => 0 <= x) (tree_cells t) ->
  Zsum (tree_cells t) < 2 ^ (53 + k) -> leaves t <= 2 ^ 52 ->
  exists W, tree_sum t = float_of_Z W /\ 0 <= W /\
            Z.abs (W - Zsum (tree_cells t)) <= (leaves t - 1) * 2 ^ (k + 1).
Proof.
  intros Hk. induction t as [x | l IHl r IHr]; intros Hnn Hsum Hlv;
    cbn [tree_sum tree_cells leaves] in *.
  - exists x. inversion Hnn; subst. cbn [Zsum fold_right].
    rewrite Z.add_0_r, Z.sub_diag. cbn. repeat split; lia.
  - apply Forall_app in Hnn as [Hl Hr]. rewrite Zsum_app in *.
    pose proof (Zsum_nonneg _ Hl) as Tl. pose proof (Zsum_nonneg _ Hr) as Tr.
    pose proof (leaves_pos l) as Ll. pose proof (leaves_pos r) as Lr.
    destruct (IHl Hl ltac:(lia) ltac:(lia)) as (Wl & El & Wl0 & Bl).
    destruct (IHr Hr ltac:(lia) ltac:(lia)) as (Wr & Er & Wr0 & Br).
    assert (Hp : 0 < 2 ^ (k + 1)) by (apply Z.pow_pos_nonneg; lia).
    assert (Hpk : 2 ^ (k + 1) = 2 * 2 ^ k).
    { rewrite Z.pow_add_r by lia. change (2 ^ 1) with 2. lia. }
    assert (H53 : 2 ^ 52 * 2 ^ (k + 1) = 2 ^ (53 + k)).
    { rewrite <- Z.pow_add_r by lia. f_equal. lia. }
    assert (H54 : 2 ^ (54 + k) = 2 * 2 ^ (53 + k)).
    { replace (54 + k) with (1 + (53 + k)) by lia.
      rewrite Z.pow_add_r by lia. reflexivity. }
    assert (Bl' : (leaves l - 1) * 2 ^ (k + 1) < 2 ^ 52 * 2 ^ (k + 1))
      by (apply Z.mul_lt_mono_pos_r; lia).
    assert (Br' : (leaves r - 1) * 2 ^ (k + 1) < 2 ^ 52 * 2 ^ (k + 1))
      by (apply Z.mul_lt_mono_pos_r; lia).
    assert (HWl : 0 <= Wl < 2 ^ (54 + k)) by lia.
    assert (HWr : 0 <= Wr < 2 ^ (54 + k)) by lia.
    destruct (round53Z_near0 Wl k ltac:(lia) HWl) as [Rl0 Rl].
    destruct (round53Z_near0 Wr k ltac:(lia) HWr) as [Rr0 Rr].
    exists (round53Z Wl + round53Z Wr).
    rewrite El, Er. split; [apply (float_add_round Wl Wr k); lia|].
    split; [lia|].
    replace ((leaves l + leaves r - 1) * 2 ^ (k + 1))
      with ((leaves l - 1) * 2 ^ (k + 1) + (leaves r - 1) * 2 ^ (k + 1) + 2 ^ (k + 1))
      by ring.
    lia.
Qed.

(** The float64 total of a column, in whatever order and grouping the
    cells are added, is an integer at most [leaves t * 2^(k+1)] away from
    the exact total. *)
Lemma tree_sum_integer k t :
  0 <= k <= 900 ->
  Forall (fun x => 0 <= x) (tree_cells t) ->
  Zsum (tree_cells t) < 2 ^ (53 + k) -> leaves t <= 2 ^ 52 ->
  exists W, float_to_Z (tree_sum t) = Some W /\ 0 <= W /\
            Z.abs (W - Zsum (tree_cells t)) <= leaves t * 2 ^ (k + 1).
Proof.
  intros Hk Hnn Hsum Hlv.
  destruct (tree_sum_near k t Hk Hnn Hsum Hlv) as (W & E & W0 & B).
  pose proof (Zsum_nonneg _ Hnn) as T0. pose proof (leaves_pos t) as L.
  assert (Hp : 0 < 2 ^ (k + 1)) by (apply Z.pow_pos_nonneg; lia).
  assert (Hpk : 2 ^ (k + 1) = 2 * 2 ^ k).
  { rewrite Z.pow_add_r by lia. change (2 ^ 1) with 2. lia. }
  assert (H53 : 2 ^ 52 * 2 ^ (k + 1) = 2 ^ (53 + k)).
  { rewrite <- Z.pow_add_r by lia. f_equal. lia. }
  assert (H54 : 2 ^ (54 + k) = 2 * 2 ^ (53 + k)).
  { replace (54 + k) with (1 + (53 + k)) by lia.
    rewrite Z.pow_add_r by lia. reflexivity. }
  assert (B' : (leaves t - 1) * 2 ^ (k + 1) < 2 ^ 52 * 2 ^ (k + 1))
    by (apply Z.mul_lt_mono_pos_r; lia).
  assert (HW : 0 <= W < 2 ^ (54 + k)) by lia.
  destruct (round53Z_near0 W k ltac:(lia) HW) as [R0 R].
  exists (round53Z W). rewrite E. split; [apply (float_to_Z_of_Z W k); lia|].
  split; [lia|].
  replace (leaves t * 2 ^ (k + 1)) with ((leaves t - 1) * 2 ^ (k + 1) + 2 ^ (k + 1)) by ring.
  lia.
Qed.

Lemma leaves_length t : leaves t = Z.of_nat (List.length (tree_cells t)).
Proof.
  induction t as [x | l IHl r IHr]; cbn [leaves tree_cells List.length]; [reflexivity|].
  rewrite length_app, Nat2Z.inj_add. lia.
Qed.

Lemma bounded_column_perm k xs ys :
  Permutation xs ys -> bounded_column k xs -> bounded_column k ys.
Proof.
  intros HP (Hk & Hnn & Hsum & Hlen). repeat split; try lia.
  - eapply Permutation_Forall; eassumption.
  - now rewrite <- (Zsum_perm xs ys HP).
  - now rewrite <- (Permutation_length HP).
Qed.

Lemma near_total_perm k xs ys F :
  Permutation xs ys -> near_total k xs F -> near_total k ys F.
Proof.
  intros HP (W & HW & HB). exists W.
  now rewrite <- (Zsum_perm xs ys HP), <- (Permutation_length HP).
Qed.

Lemma near_mean_perm k xs ys avg :
  Permutation xs ys -> near_mean k xs avg -> near_mean k ys avg.
Proof.
  intros HP (F & HF & ->). exists F. split; [eapply near_total_perm; eassumption|].
  now rewrite (Permutation_length HP).
Qed.

(** In whatever order and grouping the cells of a bounded column are
    added, the float64 total is near the exact total. *)
Lemma tree_total_near k xs t :
  bounded_column k xs -> Permutation (tree_cells t) xs -> near_total k xs (tree_sum t).
Proof.
  intros Hb HP. apply (near_total_perm k (tree_cells t) xs _ HP).
  apply (bounded_column_perm k xs (tree_cells t)) in Hb; [|now apply Permutation_sym].
  destruct Hb as (Hk & Hnn & Hsum & Hlen). rewrite <- leaves_length in Hlen.
  destruct (tree_sum_integer k t Hk Hnn Hsum Hlen) as (W & HW & _ & HB).
  exists W. now rewrite <- leaves_length.
Qed.

(** A sum that starts from 0.0 is the same float. *)
Lemma tree_sum_from_zero k xs t :
  bounded_column k xs -> Permutation (tree_cells t) xs ->
  (0 + tree_sum t)%float = tree_sum t.
Proof.
  intros Hb HP.
  apply (bounded_column_perm k xs (tree_cells t)) in Hb; [|now apply Permutation_sym].
  destruct Hb as (Hk & Hnn & Hsum & Hlen). rewrite <- leaves_length in Hlen.
  destruct (tree_sum_near k t Hk Hnn Hsum Hlen) as (W & -> & _).
  apply float_zero_add.
Qed.

Lemma comb_sum t xs :
  fold_left (fun acc x => acc + float_of_Z x)%float xs (tree_sum t) = tree_sum (comb t xs).
Proof.
  unfold comb. revert t. induction xs as [|x xs IH]; intros t; cbn [fold_left]; [reflexivity|].
  now rewrite <- IH.
Qed.

Lemma comb_cells t xs : tree_cells (comb t xs) = tree_cells t ++ xs.
Proof.
  unfold comb. revert t. induction xs as [|x xs IH]; intros t; cbn [fold_left].
  - now rewrite app_nil_r.
  - rewrite IH. cbn [tree_cells]. now rewrite <- app_assoc.
Qed.

(** The mean of a bounded column. *)
Lemma Series_mean_near k xs :
  bounded_column k xs -> xs <> [] -> near_mean k xs (Series_mean xs).
Proof.
  intros Hb Hne. destruct xs as [|x xs]; [contradiction|].
  exists (tree_sum (comb (Leaf x) xs)). split.
  - apply tree_total_near; [assumption|]. now rewrite comb_cells.
  - unfold Series_mean. cbn [fold_left]. rewrite float_zero_add.
    now rewrite <- comb_sum.
Qed.

(** C9.  On two tables that are permutations of each other
    [compute_summary] returns the same counts, the same win rate and the
    same four season rates, bit for bit.  The two averages are quotients
    of float64 sums of the cells.  They are the same, and so is the whole
    summary, when the column's cells are non-negative with a total below
    2^53, for then the sum is exact in whatever order it is taken.
    Beyond that the last bits of an average can depend on the order of
    the additions, which the specification allows for, and no more than
    the last bits: on a column of [n] non-negative cells with a total
    below 2^(53+k) either average is the quotient by [n] of a float that
    holds an integer at most [n * 2^(k+1)] away from the exact total, and
    so does the float total of the cells added in any other order and
    grouping, started from 0.0 or from a cell. *)
Theorem compute_summary_permutation :
  forall (D : Type) (df1 df2 : list (Row D)),
    Permutation df1 df2 ->
    exists s1 s2 : Summary.t,
      compute_summary df1 = Ok s1 /\ compute_summary df2 = Ok s2 /\
      Summary.matches s1 = Summary.matches s2 /\
      Summary.wins s1 = Summary.wins s2 /\
      Summary.losses s1 = Summary.losses s2 /\
      Summary.win_rate s1 = Summary.win_rate s2 /\
      Summary.first_serve_pct s1 = Summary.first_serve_pct s2 /\
      Summary.first_serve_pts_won_pct s1 = Summary.first_serve_pts_won_pct s2 /\
      Summary.second_serve_pts_won_pct s1 = Summary.second_serve_pts_won_pct s2 /\
      Summary.break_points_saved_pct s1 = Summary.break_points_saved_pct s2 /\
      (exact_column (col aces df1) -> Summary.avg_aces s1 = Summary.avg_aces s2) /\
      (exact_column (col double_faults df1) ->
       Summary.avg_double_faults s1 = Summary.avg_double_faults s2) /\
      (exact_column (col aces df1) -> exact_column (col double_faults df1) -> s1 = s2) /\
      (forall k : Z,
         df1 <> [] -> bounded_column k (col aces df1) ->
         near_mean k (col aces df1) (Summary.avg_aces s1) /\
         near_mean k (col aces df1) (Summary.avg_aces s2)) /\
      (forall k : Z,
         df1 <> [] -> bounded_column k (col double_faults df1) ->
         near_mean k (col double_faults df1) (Summary.avg_double_faults s1) /\
         near_mean k (col double_faults df1) (Summary.avg_double_faults s2)) /\
      (forall (k : Z) (f : Row D -> Z) (t : sum_tree),
         bounded_column k (col f df1) ->
         Permutation (tree_cells t) (col f df2) ->
         near_total k (col f df1) (tree_sum t) /\
         (0 + tree_sum t)%float = tree_sum t).
Proof.
  intros D df1 df2 HP.
  rewrite !compute_summary_eq. do 2 eexists.
  split; [reflexivity|]. split; [reflexivity|].
  cbn [Summary.matches Summary.wins Summary.losses Summary.win_rate
       Summary.avg_aces Summary.avg_double_faults Summary.first_serve_pct
       Summary.first_serve_pts_won_pct Summary.second_serve_pts_won_pct
       Summary.break_points_saved_pct].
  pose proof (Permutation_length HP) as Hlen.
  pose proof (count_result_perm "W" _ _ HP) as HW.
  pose proof (count_result_perm "L" _ _ HP) as HL.
  assert (Hcolp : forall f : Row D -> Z, Permutation (col f df1) (col f df2)).
  { intros f. unfold col. now apply Permutation_map. }
  assert (Hcol : forall f : Row D -> Z, Zsum (col f df1) = Zsum (col f df2)).
  { intros f. apply Zsum_perm, Hcolp. }
  assert (Hmean : forall f : Row D -> Z,
             exact_column (col f df1) ->
             Series_mean (col f df1) = Series_mean (col f df2)).
  { intros f Hex. apply Series_mean_perm; [apply Hcolp | assumption]. }
  assert (Hnear : forall (k : Z) (f : Row D -> Z),
             df1 <> [] -> bounded_column k (col f df1) ->
             near_mean k (col f df1)
               (if truthy (Int (Z.of_nat (List.length df1)))
                then Series_mean (col f df1) else 0%float) /\
             near_mean k (col f df1)
               (if truthy (Int (Z.of_nat (List.length df1)))
                then Series_mean (col f df2) else 0%float)).
  { intros k f Hne Hb.
    assert (Ht : truthy (Int (Z.of_nat (List.length df1))) = true).
    { destruct df1; [contradiction | reflexivity]. }
    rewrite Ht. split.
    - apply Series_mean_near; [assumption|].
      unfold col. destruct df1; [contradiction | discriminate].
    - apply (near_mean_perm k (col f df2) (col f df1));
        [apply Permutation_sym, Hcolp|].
      apply Series_mean_near.
      + eapply bounded_column_perm; [apply Hcolp | assumption].
      + unfold col. destruct df2; [|discriminate].
        apply Permutation_sym, Permutation_nil in HP. contradiction. }
  rewrite <- Hlen, <- HW, <- HL, <- !Hcol.
  repeat match goal with |- _ /\ _ => split end; try reflexivity.
  - intros Hex. now rewrite (Hmean aces Hex).
  - intros Hex. now rewrite (Hmean double_faults Hex).
  - intros Ha Hd. now rewrite (Hmean aces Ha), (Hmean double_faults Hd).
  - intros k Hne Hb. exact (Hnear k aces Hne Hb).
  - intros k Hne Hb. exact (Hnear k double_faults Hne Hb).
  - intros k f t Hb Ht.
    assert (Ht1 : Permutation (tree_cells t) (col f df1)).
    { eapply Permutation_trans; [exact Ht | apply Permutation_sym, Hcolp]. }
    split; [now apply tree_total_near | now apply (tree_sum_from_zero k (col f df1))].
Qed.

Lemma compute_summary_permutation_witness :
  (Permutation [test_row_1; test_row_2] [test_row_2; test_row_1] /\
   exists s1 s2 : Summary.t,
     compute_summary [test_row_1; test_row_2] = Ok s1 /\
     compute_summary [test_row_2; test_row_1] = Ok s2 /\
     s1 = s2) /\
  (Permutation [many_aces (2 ^ 53); many_aces 1; many_aces 1]
               [many_aces 1; many_aces 1; many_aces (2 ^ 53)] /\
   exists s1 s2 : Summary.t,
     compute_summary [many_aces (2 ^ 53); many_aces 1; many_aces 1] = Ok s1 /\
     compute_summary [many_aces 1; many_aces 1; many_aces (2 ^ 53)] = Ok s2 /\
     near_mean 1 [2 ^ 53; 1; 1] (Summary.avg_aces s1) /\
     near_mean 1 [2 ^ 53; 1; 1] (Summary.avg_aces s2)).
Proof.
  split.
  - assert (HP : Permutation [test_row_1; test_row_2] [test_row_2; test_row_1])
      by apply perm_swap.
    split; [exact HP|].
    destruct (compute_summary_permutation unit _ _ HP)
      as (s1 & s2 & H1 & H2 & _ & _ & _ & _ & _ & _ & _ & _ & _ & _ & Heq & _).
    exists s1, s2. split; [exact H1|]. split; [exact H2|].
    apply Heq; (split; [repeat constructor; cbn; lia | cbn; lia]).
  - assert (HP : Permutation [many_aces (2 ^ 53); many_aces 1; many_aces 1]
                             [many_aces 1; many_aces 1; many_aces (2 ^ 53)])
      by exact (Permutation_cons_append [many_aces 1; many_aces 1] (many_aces (2 ^ 53))).
    split; [exact HP|].
    destruct (compute_summary_permutation unit _ _ HP)
      as (s1 & s2 & H1 & H2 & _ & _ & _ & _ & _ & _ & _ & _ & _ & _ & _ & Hnear & _).
    exists s1, s2. split; [exact H1|]. split; [exact H2|].
    apply (Hnear 1); [discriminate|].
    split; [lia|]. split; [repeat constructor; cbn; lia|]. split; cbn; lia.
Defined.

(** Where the sum of a column is not exact, the order of the rows can show
    in the last bit of its average: with 2^53 aces in one of three
    matches the two orders give averages one unit in the last place
    apart. *)
Lemma average_last_bit :
  Permutation [many_aces (2 ^ 53); many_aces 1; many_aces 1]
              [many_aces 1; many_aces 1; many_aces (2 ^ 53)] /\
  exists s1 s2 : Summary.t,
    compute_summary [many_aces (2 ^ 53); many_aces 1; many_aces 1] = Ok s1 /\
    compute_summary [many_aces 1; many_aces 1; many_aces (2 ^ 53)] = Ok s2 /\
    (Summary.avg_aces s1 =? Summary.avg_aces s2)%float = false /\
    s1 <> s2.
Proof.
  split.
  - exact (Permutation_cons_append [many_aces 1; many_aces 1] (many_aces (2 ^ 53))).
  - do 2 eexists.
    split; [vm_compute; reflexivity|]. split; [vm_compute; reflexivity|].
    split; [vm_compute; reflexivity|].
    intros H. apply (f_equal (fun s => Prim2SF (Summary.avg_aces s))) in H.
    vm_compute in H. discriminate H.
Qed.

(** ** The two sorts meet the contract of [sort_values] *)

Section InsertionSort.

Variable before : Z -> Z -> bool.
Hypothesis before_true : forall a b, before a b = true -> a <= b.
Hypothesis before_false : forall a b, before a b = false -> b <= a.

Lemma insert_by_perm (x : Row Timestamp) (l : DataFrame) :
  Permutation (x :: l) (insert_by before x l).
Proof.
  induction l as [|y l IH]; cbn [insert_by]; [apply Permutation_refl|].
  destruct (before (date x) (date y)); [apply Permutation_refl|].
  eapply perm_trans; [apply perm_swap|]. now apply perm_skip.
Qed.

Lemma isort_perm l : Permutation l (isort before l).
Proof.
  induction l as [|x l IH]; cbn [isort fold_right]; [constructor|].
  eapply perm_trans; [apply perm_skip, IH | apply insert_by_perm].
Qed.

Lemma insert_by_hd (x y : Row Timestamp) (l : DataFrame) :
  date y <= date x -> HdRel by_date y l -> HdRel by_date y (insert_by before x l).
Proof.
  intros Hyx Hhd. destruct l as [|z l]; cbn [insert_by].
  - now constructor.
  - destruct (before (date x) (date z)); constructor; [exact Hyx|].
    now inversion Hhd.
Qed.

Lemma insert_by_sorted (x : Row Timestamp) (l : DataFrame) :
  Sorted by_date l -> Sorted by_date (insert_by before x l).
Proof.
  induction 1 as [|y l Hs IH Hhd]; cbn [insert_by].
  - repeat constructor.
  - destruct (before (date x) (date y)) eqn:E.
    + constructor; [now constructor|]. constructor. now apply before_true.
    + constructor; [exact IH|]. apply insert_by_hd; [|exact Hhd].
      now apply before_false.
Qed.

Lemma isort_sorted l : Sorted by_date (isort before l).
Proof.
  induction l as [|x l IH]; cbn [isort fold_right]; [constructor|].
  now apply insert_by_sorted.
Qed.

End InsertionSort.

Lemma pandas_stable_contract : sort_values_contract pandas_stable.
Proof.
  intros df. cbn [sort_values pandas_stable]. split.
  - apply isort_perm.
  - apply isort_sorted; intros a b H; [apply Z.leb_le in H | apply Z.leb_gt in H]; lia.
Qed.

Lemma pandas_reversing_contract : sort_values_contract pandas_reversing.
Proof.
  intros df. cbn [sort_values pandas_reversing]. split.
  - apply isort_perm.
  - apply isort_sorted; intros a b H; [apply Z.ltb_lt in H | apply Z.ltb_ge in H]; lia.
Qed.

(** numpy's quicksort on eighteen equal keys: it partitions, and equal
    keys change places. *)
Example argsort_18_equal :
  Npysort.argsort (repeat 7 18) =
  [0; 15; 14; 13; 12; 11; 10; 9; 8; 7; 6; 5; 4; 3; 2; 1; 16; 17]%nat.
Proof. vm_compute. reflexivity. Qed.

Example argsort_40_descending :
  Npysort.argsort (map Z.of_nat (rev (seq 0 40))) = rev (seq 0 40).
Proof. vm_compute. reflexivity. Qed.

Example argsort_heapsort_range :
  map (fun i => nth i [5; 3; 9; 1; 7; 3; 8; 2] 0)
      (Npysort.aheapsort [5; 3; 9; 1; 7; 3; 8; 2] (seq 0 8) 0 8)
  = [1; 2; 3; 3; 5; 7; 8; 9].
Proof. vm_compute. reflexivity. Qed.

(** ** [load_matches] *)

Lemma parse_dates_ok P csv :
  Forall (fun r => to_datetime P (date r) <> None) csv ->
  exists df, parse_dates P csv = Ok df /\
             Forall2 (fun raw r => exists d, to_datetime P (date raw) = Some d /\
                                             r = set_date d raw) csv df.
Proof.
  induction 1 as [|raw csv Hraw _ (df & Hdf & HF)]; cbn [parse_dates].
  - exists []. split; [reflexivity | constructor].
  - destruct (to_datetime P (date raw)) as [d|] eqn:Ed; [|contradiction].
    rewrite Hdf. cbn [bind]. eexists. split; [reflexivity|].
    constructor; [|exact HF]. exists d. split; [exact Ed | reflexivity].
Qed.


Lemma normalize_results_loaded P csv df :
  Forall2 (fun raw r => exists d, to_datetime P (date raw) = Some d /\
                                  r = set_date d raw) csv df ->
  Forall2 (row_loaded P) csv (normalize_results df).
Proof.
  induction 1 as [|raw r csv df (d & Hd & ->) _ IH]; cbn [normalize_results map];
    constructor; [|exact IH].
  unfold row_loaded. cbn [date result set_date set_result].
  split; [exact Hd | reflexivity].
Qed.

(** What [load_matches] returns when every date parses: the loaded rows,
    rearranged by [sort_values]. *)
Lemma load_matches_ok P csv :
  Forall (fun r => to_datetime P (date r) <> None) csv ->
  exists pre : DataFrame,
    Forall2 (row_loaded P) csv pre /\ load_matches P csv = Ok (sort_values P pre).
Proof.
  intros H. destruct (parse_dates_ok P csv H) as (df & Hdf & HF).
  exists (normalize_results df). split; [now apply normalize_results_loaded|].
  unfold load_matches. now rewrite Hdf.
Qed.

Lemma by_date_trans : Relations_1.Transitive by_date.
Proof. intros a b c. unfold by_date. lia. Qed.

(** C6, as the code has it.  When every date parses, [load_matches]
    returns the loaded rows (dates parsed, result codes normalized)
    rearranged so that dates ascend, whatever the order of the input.  The
    order of rows of equal date is the one [sort_values] gives them with
    its default [kind], which pandas does not promise to be the input
    order. *)
Theorem load_matches_sorted :
  forall (P : Pandas) (csv : list (Row string)),
    sort_values_contract P ->
    Forall (fun r => to_datetime P (date r) <> None) csv ->
    exists pre df : DataFrame,
      load_matches P csv = Ok df /\
      Forall2 (row_loaded P) csv pre /\
      Permutation pre df /\
      StronglySorted by_date df.
Proof.
  intros P csv HP Hcsv.
  destruct (load_matches_ok P csv Hcsv) as (pre & Hpre & Hload).
  destruct (HP pre) as [Hperm Hsorted].
  exists pre, (sort_values P pre). repeat split; try assumption.
  apply Sorted_StronglySorted; [exact by_date_trans | exact Hsorted].
Qed.

Lemma load_matches_sorted_witness :
  exists pre df : DataFrame,
    load_matches pandas_stable
      [csv_row "2025-10-08" "w" "A"; csv_row "2025-09-01" " L " "B";
       csv_row "2025-10-08" "l" "C"] = Ok df /\
    Forall2 (row_loaded pandas_stable)
      [csv_row "2025-10-08" "w" "A"; csv_row "2025-09-01" " L " "B";
       csv_row "2025-10-08" "l" "C"] pre /\
    Permutation pre df /\
    StronglySorted by_date df /\
    map opponent df = ["B"; "A"; "C"]%string.
Proof.
  destruct (load_matches_sorted pandas_stable
              [csv_row "2025-10-08" "w" "A"; csv_row "2025-09-01" " L " "B";
               csv_row "2025-10-08" "l" "C"]
              pandas_stable_contract)
    as (pre & df & Hload & Hpre & Hperm & Hsorted).
  { repeat constructor; discriminate. }
  exists pre, df. repeat split; try assumption.
  vm_compute in Hload. injection Hload as <-. reflexivity.
Defined.

(** C6, as stated, fails.  Being sorted does not fix the order of equal
    dates: [pandas_reversing] meets the contract of [sort_values] and
    loads two matches of one day in the opposite order.  And the sort that
    [kind="quicksort"] runs does reorder them: of eighteen matches of one
    day it returns the second to the sixteenth in reverse. *)
Lemma load_matches_not_stable :
  (sort_values_contract pandas_reversing /\
   load_matches pandas_reversing
     [csv_row "2025-10-08" "w" "A"; csv_row "2025-10-08" "l" "B"]
   = Ok [table_row 1759881600000000000 "L" "B"; table_row 1759881600000000000 "W" "A"] /\
   Forall2 (row_loaded pandas_reversing)
     [csv_row "2025-10-08" "w" "A"; csv_row "2025-10-08" "l" "B"]
     [table_row 1759881600000000000 "W" "A"; table_row 1759881600000000000 "L" "B"] /\
   ~ date_stable
       [table_row 1759881600000000000 "W" "A"; table_row 1759881600000000000 "L" "B"]
       [table_row 1759881600000000000 "L" "B"; table_row 1759881600000000000 "W" "A"]) /\
  (load_matches pandas_numpy (one_day_csv eighteen)
   = Ok (one_day_table eighteen_quicksorted) /\
   Forall2 (row_loaded pandas_numpy) (one_day_csv eighteen) (one_day_table eighteen) /\
   StronglySorted by_date
     (one_day_table eighteen_quicksorted) /\
   ~ date_stable (one_day_table eighteen)
       (one_day_table eighteen_quicksorted)) /\
  ~ (forall (P : Pandas) (csv : list (Row string)) (pre df : DataFrame),
       sort_values_contract P ->
       Forall2 (row_loaded P) csv pre ->
       load_matches P csv = Ok df ->
       StronglySorted by_date df /\ date_stable pre df).
Proof.
  assert (Hrev :
    sort_values_contract pandas_reversing /\
    load_matches pandas_reversing
      [csv_row "2025-10-08" "w" "A"; csv_row "2025-10-08" "l" "B"]
    = Ok [table_row 1759881600000000000 "L" "B"; table_row 1759881600000000000 "W" "A"] /\
    Forall2 (row_loaded pandas_reversing)
      [csv_row "2025-10-08" "w" "A"; csv_row "2025-10-08" "l" "B"]
      [table_row 1759881600000000000 "W" "A"; table_row 1759881600000000000 "L" "B"] /\
    ~ date_stable
        [table_row 1759881600000000000 "W" "A"; table_row 1759881600000000000 "L" "B"]
        [table_row 1759881600000000000 "L" "B"; table_row 1759881600000000000 "W" "A"]).
  { split; [exact pandas_reversing_contract|].
    split; [reflexivity|].
    split; [repeat constructor|].
    intros Hst. specialize (Hst 1759881600000000000). discriminate Hst. }
  split; [exact Hrev|]. split.
  - split; [vm_compute; reflexivity|].
    split; [repeat constructor|].
    split.
    + apply Sorted_StronglySorted; [exact by_date_trans|].
      repeat constructor; unfold by_date; cbn; lia.
    + intros Hst. specialize (Hst 1759881600000000000). vm_compute in Hst.
      discriminate Hst.
  - intros H. destruct Hrev as (HP & Hload & Hpre & Hno).
    destruct (H _ _ _ _ HP Hpre Hload) as [_ Hst]. exact (Hno Hst).
Qed.

(** ** Result codes *)

Lemma chr_upper_not_lower c : chr_islower (chr_upper c) = false.
Proof. destruct c as [[] [] [] [] [] [] [] []]; reflexivity. Qed.

Lemma str_upper_no_lower s :
  str_forallb (fun c => negb (chr_islower c)) (str_upper s) = true.
Proof.
  induction s as [|c s IH]; cbn [str_upper str_forallb]; [reflexivity|].
  now rewrite chr_upper_not_lower, IH.
Qed.

Lemma str_lstrip_forallb p s :
  str_forallb p s = true -> str_forallb p (str_lstrip s) = true.
Proof.
  induction s as [|c s IH]; cbn [str_lstrip str_forallb]; [reflexivity|].
  intros H. apply andb_prop in H as [Hc Hs].
  destruct (chr_isspace c); [now apply IH|].
  cbn [str_forallb]. now rewrite Hc, Hs.
Qed.

Lemma str_rstrip_forallb p s :
  str_forallb p s = true -> str_forallb p (str_rstrip s) = true.
Proof.
  induction s as [|c s IH]; cbn [str_rstrip str_forallb]; [reflexivity|].
  intros H. apply andb_prop in H as [Hc Hs]. specialize (IH Hs).
  destruct (str_rstrip s) as [|c' t].
  - destruct (chr_isspace c); cbn [str_forallb]; [reflexivity | now rewrite Hc].
  - cbn [str_forallb] in *. now rewrite Hc, IH.
Qed.

Lemma str_lstrip_first s : not_space (str_first (str_lstrip s)) = true.
Proof.
  induction s as [|c s IH]; cbn [str_lstrip]; [reflexivity|].
  destruct (chr_isspace c) eqn:E; [exact IH|].
  cbn [str_first not_space]. now rewrite E.
Qed.

Lemma str_rstrip_last s : not_space (str_last (str_rstrip s)) = true.
Proof.
  induction s as [|c s IH]; cbn [str_rstrip]; [reflexivity|].
  destruct (str_rstrip s) as [|c' t].
  - destruct (chr_isspace c) eqn:E; cbn [str_last not_space]; [reflexivity | now rewrite E].
  - exact IH.
Qed.

Lemma str_lstrip_last s :
  str_lstrip s = EmptyString \/ str_last (str_lstrip s) = str_last s.
Proof.
  induction s as [|c s IH]; cbn [str_lstrip]; [now left|].
  destruct (chr_isspace c); [|now right].
  destruct IH as [IH | IH]; [now left|].
  destruct s as [|c' s']; [now left|]. right. exact IH.
Qed.

(** What [.str.upper().str.strip()] leaves has no lower-case letter and no
    white space at either end. *)
Lemma strip_upper_normalized s : normalized (str_strip (str_upper s)) = true.
Proof.
  unfold normalized, str_strip.
  rewrite str_lstrip_forallb by (apply str_rstrip_forallb, str_upper_no_lower).
  rewrite str_lstrip_first. cbn [andb].
  destruct (str_lstrip_last (str_rstrip (str_upper s))) as [-> | ->];
    [reflexivity | apply str_rstrip_last].
Qed.


(** C8, as the code has it.  On a CSV file whose result codes are ASCII
    text, [load_matches] replaces the result code of every row by its
    upper-case form with the surrounding white space removed, leaving the
    other cells of the row as they are but for the parsed date, and checks
    nothing: when the dates parse it returns these rows, rearranged by
    the sort, whatever the result codes are. *)
Theorem load_matches_normalizes_results :
  forall (P : Pandas) (csv : list (Row string)),
    sort_values_contract P ->
    Forall (fun r => to_datetime P (date r) <> None) csv ->
    Forall (fun r => is_ascii (result r) = true) csv ->
    exists pre df : DataFrame,
      load_matches P csv = Ok df /\
      Forall2 (fun raw r =>
                 to_datetime P (date raw) = Some (date r) /\
                 result r = str_strip (str_upper (result raw)) /\
                 r = set_date (date r) (set_result (result r) raw)) csv pre /\
      Permutation pre df /\
      Forall (fun r => normalized (result r) = true) df.
Proof.
  intros P csv HP Hcsv _.
  destruct (load_matches_ok P csv Hcsv) as (pre & Hpre & Hload).
  destruct (HP pre) as [Hperm _].
  exists pre, (sort_values P pre). split; [exact Hload|].
  split; [|split; [exact Hperm|]].
  - clear -Hpre. induction Hpre as [|raw r csv pre [Hd Hr] _ IH]; constructor; [|exact IH].
    split; [exact Hd|].
    assert (Hres : result r = str_strip (str_upper (result raw))).
    { rewrite Hr. reflexivity. }
    split; [exact Hres|]. rewrite Hres. exact Hr.
  - eapply Permutation_Forall; [exact Hperm|].
    clear -Hpre. induction Hpre as [|raw r csv pre [_ Hr] _ IH]; constructor; [|exact IH].
    rewrite Hr. cbn [result set_date set_result]. apply strip_upper_normalized.
Qed.

Lemma load_matches_normalizes_results_witness :
  exists pre df : DataFrame,
    load_matches pandas_stable
      [csv_row "2025-10-08" " w" "A"; csv_row "2025-09-01" "L  " "B"] = Ok df /\
    map result pre = ["W"; "L"]%string /\
    map opponent pre = ["A"; "B"]%string /\
    map result df = ["L"; "W"]%string /\
    map opponent df = ["B"; "A"]%string.
Proof.
  destruct (load_matches_normalizes_results pandas_stable
              [csv_row "2025-10-08" " w" "A"; csv_row "2025-09-01" "L  " "B"]
              pandas_stable_contract)
    as (pre & df & Hload & Hpre & _).
  { repeat constructor; discriminate. }
  { repeat constructor. }
  exists pre, df. split; [exact Hload|].
  inversion Hpre as [|raw1 r1 csv1 pre1 (_ & R1 & E1) Hpre1]; subst.
  inversion Hpre1 as [|raw2 r2 csv2 pre2 (_ & R2 & E2) Hpre2]; subst.
  inversion Hpre2; subst.
  split; [cbn [map]; rewrite R1, R2; reflexivity|].
  split; [cbn [map]; rewrite E1, E2; reflexivity|].
  vm_compute in Hload. injection Hload as <-. split; reflexivity.
Defined.

(** C8, as stated, fails: a result code that is neither "W" nor "L" is
    loaded, normalized, with no error. *)
Lemma load_matches_accepts_any_result :
  load_matches pandas_stable [csv_row "2025-10-08" " x " "A"]
  = Ok [table_row 1759881600000000000 "X" "A"] /\
  str_strip (str_upper " x ") = "X"%string /\
  "X"%string <> "W"%string /\ "X"%string <> "L"%string.
Proof. repeat split; try reflexivity; discriminate. Qed.

(** ** [find_match_by_date] *)

Lemma filter_first {A : Type} (p : A -> bool) (pre post : list A) (x : A) :
  Forall (fun y => p y = false) pre -> p x = true ->
  filter p (pre ++ x :: post) = x :: filter p post.
Proof.
  intros Hpre Hx. induction Hpre as [|y pre Hy _ IH]; cbn [app filter].
  - now rewrite Hx.
  - now rewrite Hy.
Qed.

Lemma filter_none {A : Type} (p : A -> bool) (l : list A) :
  Forall (fun y => p y = false) l -> filter p l = [].
Proof.
  induction 1 as [|y l Hy _ IH]; cbn [filter]; [reflexivity|]. now rewrite Hy.
Qed.

Lemma filter_head {A : Type} (p : A -> bool) (l : list A) (x : A) (rest : list A) :
  filter p l = x :: rest ->
  exists before after,
    l = before ++ x :: after /\ p x = true /\ Forall (fun y => p y = false) before.
Proof.
  induction l as [|a l IH]; cbn [filter]; [discriminate|].
  destruct (p a) eqn:Ea.
  - intros [= -> _]. exists [], l. repeat split; [exact Ea | constructor].
  - intros H. destruct (IH H) as (before & after & -> & Hx & Hb).
    exists (a :: before), after. repeat split; [exact Hx | now constructor].
Qed.

(** C7, as the code has it.  [find_match_by_date] raises exactly when
    [pd.to_datetime] raises on the date string, and then the parse error.
    On a string that pandas reads as the missing date [NaT] it raises
    nothing and returns [None].  When the string parses to the date [d],
    it returns the first row of the table whose date is [d], and [None],
    with no error, when no row has that date; whatever row it returns is
    such a first row. *)
Theorem find_match_by_date_spec :
  forall (P : Pandas) (df : DataFrame) (date_str : string),
    (find_match_by_date P df date_str = Raise ParseError <->
     to_datetime P date_str = None /\ nat_string P date_str = false) /\
    (forall e : exn, find_match_by_date P df date_str = Raise e -> e = ParseError) /\
    (to_datetime P date_str = None -> nat_string P date_str = true ->
     find_match_by_date P df date_str = Ok None) /\
    (forall d : Timestamp,
       to_datetime P date_str = Some d ->
       (forall r, In r df -> date r <> d) ->
       find_match_by_date P df date_str = Ok None) /\
    (forall (d : Timestamp) (before after : DataFrame) (r : Row Timestamp),
       to_datetime P date_str = Some d ->
       df = before ++ r :: after ->
       date r = d ->
       (forall x, In x before -> date x <> d) ->
       find_match_by_date P df date_str = Ok (Some r)) /\
    (forall r : Row Timestamp,
       find_match_by_date P df date_str = Ok (Some r) ->
       exists (d : Timestamp) (before after : DataFrame),
         to_datetime P date_str = Some d /\
         df = before ++ r :: after /\ date r = d /\
         (forall x, In x before -> date x <> d)).
Proof.
  intros P df date_str. unfold find_match_by_date.
  split; [|split; [|split; [|split; [|split]]]].
  - destruct (to_datetime P date_str) as [d|].
    + split; [|intros [H _]; discriminate H].
      cbv zeta. destruct (filter (fun r => date r =? d) df); discriminate.
    + destruct (nat_string P date_str); split; try discriminate; auto.
      intros [_ H]. discriminate H.
  - intros e. destruct (to_datetime P date_str) as [d|].
    + cbv zeta. destruct (filter (fun r => date r =? d) df); discriminate.
    + destruct (nat_string P date_str); [discriminate | now intros [= <-]].
  - intros -> ->. reflexivity.
  - intros d -> Hno. rewrite filter_none; [reflexivity|].
    apply Forall_forall. intros r Hr. apply Z.eqb_neq. now apply Hno.
  - intros d pre post r -> -> Hr Hno. rewrite filter_first; [reflexivity | |].
    + apply Forall_forall. intros x Hx. apply Z.eqb_neq. now apply Hno.
    + now apply Z.eqb_eq.
  - intros r. destruct (to_datetime P date_str) as [d|].
    + destruct (filter (fun r0 => date r0 =? d) df) as [|r0 rest] eqn:Hf;
        [discriminate|].
      intros [= <-]. destruct (filter_head _ _ _ _ Hf) as (before & after & Hdf & Hr & Hb).
      exists d, before, after. split; [reflexivity|]. split; [exact Hdf|].
      split; [now apply Z.eqb_eq|].
      intros x Hx. rewrite Forall_forall in Hb. apply Z.eqb_neq. now apply Hb.
    + destruct (nat_string P date_str); discriminate.
Qed.

Lemma find_match_by_date_spec_witness :
  find_match_by_date pandas_stable
    [table_row 1756684800000000000 "L" "B"; table_row 1759881600000000000 "W" "A";
     table_row 1759881600000000000 "L" "C"] "asd" = Raise ParseError /\
  find_match_by_date pandas_stable
    [table_row 1756684800000000000 "L" "B"; table_row 1759881600000000000 "W" "A";
     table_row 1759881600000000000 "L" "C"] "NaT" = Ok None /\
  find_match_by_date pandas_stable
    [table_row 1756684800000000000 "L" "B"; table_row 1759881600000000000 "W" "A";
     table_row 1759881600000000000 "L" "C"] "2025-10-09" = Ok None /\
  find_match_by_date pandas_stable
    [table_row 1756684800000000000 "L" "B"; table_row 1759881600000000000 "W" "A";
     table_row 1759881600000000000 "L" "C"] "2025-10-08"
  = Ok (Some (table_row 1759881600000000000 "W" "A")).
Proof.
  split; [| split; [| split]].
  - apply (proj1 (find_match_by_date_spec pandas_stable _ "asd")).
    split; reflexivity.
  - apply (proj1 (proj2 (proj2 (find_match_by_date_spec pandas_stable _ "NaT"))));
      reflexivity.
  - apply (proj1 (proj2 (proj2 (proj2
             (find_match_by_date_spec pandas_stable _ "2025-10-09"))))
             1759968000000000000); [reflexivity|].
    intros r [<- | [<- | [<- | []]]]; discriminate.
  - apply (proj1 (proj2 (proj2 (proj2 (proj2
             (find_match_by_date_spec pandas_stable _ "2025-10-08")))))
             1759881600000000000 [table_row 1756684800000000000 "L" "B"]
             [table_row 1759881600000000000 "L" "C"]); try reflexivity.
    intros x [<- | []]. discriminate.
Defined.

(** C7, as stated, fails: the empty string is not a date, and looking it
    up raises no parse error; the function returns [None], as it does for
    a date no match has. *)
Lemma find_match_by_date_empty_string :
  to_datetime pandas_stable EmptyString = None /\
  find_match_by_date pandas_stable
    [table_row 1756684800000000000 "L" "B"; table_row 1759881600000000000 "W" "A"]
    EmptyString = Ok None /\
  find_match_by_date pandas_stable [] EmptyString = Ok None.
Proof. repeat split. Qed.

(** ** Further properties of the loader and the summary *)



(** X2.  The win rate of the summary is [_safe_div] of the wins and the
    matches; on the two rows of the repository's test (a win and a loss)
    the summary has 2 matches, 1 win, 1 loss and the win rate 0.5. *)
Theorem win_rate_spec :
  (forall (D : Type) (df : list (Row D)),
     exists s : Summary.t,
       compute_summary df = Ok s /\
       _safe_div (Int (Summary.wins s)) (Int (Summary.matches s))
         = Ok (Summary.win_rate s)) /\
  (exists s : Summary.t,
     compute_summary [test_row_1; test_row_2] = Ok s /\
     Summary.matches s = 2 /\ Summary.wins s = 1 /\ Summary.losses s = 1 /\
     Summary.win_rate s = 0.5%float).
Proof.
  split.
  - intros D df. rewrite compute_summary_eq. eexists. split; [reflexivity|].
    cbn [Summary.wins Summary.matches Summary.win_rate]. apply safe_div_value_eq.
  - eexists. split; [vm_compute; reflexivity|]. repeat split; reflexivity.
Qed.

(** X3.  On a non-empty table whose aces (double faults) are non-negative
    with a total below 2^53, the average of the summary is the float of
    the exact total divided by the float of the number of matches, and the
    float64 total does not depend on the order or grouping in which the
    cells are added. *)
Theorem averages_exact :
  forall (D : Type) (df : list (Row D)) (s : Summary.t),
    df <> [] ->
    compute_summary df = Ok s ->
    (exact_column (col aces df) ->
     Summary.avg_aces s =
     (float_of_Z (Zsum (col aces df)) / float_of_Z (Summary.matches s))%float /\
     forall t : sum_tree,
       Permutation (tree_cells t) (col aces df) ->
       tree_sum t = float_of_Z (Zsum (col aces df))) /\
    (exact_column (col double_faults df) ->
     Summary.avg_double_faults s =
     (float_of_Z (Zsum (col double_faults df)) / float_of_Z (Summary.matches s))%float /\
     forall t : sum_tree,
       Permutation (tree_cells t) (col double_faults df) ->
       tree_sum t = float_of_Z (Zsum (col double_faults df))).
Proof.
  intros D df s Hne Hs. rewrite compute_summary_eq in Hs. injection Hs as <-.
  cbn [Summary.avg_aces Summary.avg_double_faults Summary.matches].
  assert (Ht : truthy (Int (Z.of_nat (List.length df))) = true).
  { destruct df as [|r df]; [contradiction|]. cbn [truthy List.length].
    apply negb_true_iff, Z.eqb_neq. lia. }
  assert (Hcol : forall f : Row D -> Z, col f df <> []).
  { intros f. destruct df; [contradiction | discriminate]. }
  assert (Hlen : forall f : Row D -> Z, List.length (col f df) = List.length df).
  { intros f. unfold col. apply length_map. }
  cbn [truthy] in Ht. rewrite Ht. split; intros Hex; (split;
    [ rewrite Series_mean_exact, Hlen by (try assumption; apply Hcol); reflexivity
    | intros t Hperm; rewrite <- (Zsum_perm _ _ Hperm); apply tree_sum_exact;
      eapply exact_column_perm; [apply Permutation_sym; exact Hperm | exact Hex] ]).
Qed.

Lemma averages_exact_witness :
  exists s : Summary.t,
    compute_summary [test_row_1; test_row_2] = Ok s /\
    Summary.avg_aces s = 3%float /\ Summary.avg_double_faults s = 2%float.
Proof.
  pose proof (compute_summary_eq [test_row_1; test_row_2]) as Hs.
  eexists. split; [exact Hs|].
  match type of Hs with _ = Ok ?v => set (s := v) in * end.
  destruct (averages_exact unit [test_row_1; test_row_2] s ltac:(discriminate) Hs)
    as [Ha Hd].
  destruct Ha as [Ha _]; [split; [repeat constructor; cbn; lia | cbn; lia]|].
  destruct Hd as [Hd _]; [split; [repeat constructor; cbn; lia | cbn; lia]|].
  rewrite Ha, Hd. split; reflexivity.
Defined.

(** ** The loader and the functions that read its table *)

Lemma parse_dates_inv P csv df :
  parse_dates P csv = Ok df ->
  Forall (fun r => to_datetime P (date r) <> None) csv.
Proof.
  revert df. induction csv as [|raw csv IH]; intros df H; [constructor|].
  cbn [parse_dates] in H.
  destruct (to_datetime P (date raw)) as [d|] eqn:Ed; [|discriminate H].
  destruct (parse_dates P csv) as [df'|e] eqn:Ep; [|discriminate H].
  constructor; [congruence | now apply (IH df')].
Qed.

(** Whenever [load_matches] returns, it returns the loaded rows as
    [sort_values] arranged them. *)
Lemma load_matches_inv P csv df :
  load_matches P csv = Ok df ->
  exists pre : DataFrame, Forall2 (row_loaded P) csv pre /\ df = sort_values P pre.
Proof.
  intros H.
  assert (Hcsv : Forall (fun r => to_datetime P (date r) <> None) csv).
  { unfold load_matches in H.
    destruct (parse_dates P csv) as [df'|e] eqn:Ep; [|discriminate H].
    now apply (parse_dates_inv P csv df'). }
  destruct (load_matches_ok P csv Hcsv) as (pre & Hpre & Hload).
  exists pre. split; [exact Hpre | congruence].
Qed.

Lemma Forall2_In_l {A B : Type} (R : A -> B -> Prop) (l : list A) (l' : list B) (a : A) :
  Forall2 R l l' -> In a l -> exists b, In b l' /\ R a b.
Proof.
  induction 1 as [|x y l l' Hxy _ IH]; intros Hin; [contradiction|].
  destruct Hin as [-> | Hin].
  - exists y. split; [now left | exact Hxy].
  - destruct (IH Hin) as (b & Hb & Hab). exists b. split; [now right | exact Hab].
Qed.

Lemma filter_split_first {A : Type} (p : A -> bool) (l : list A) (x : A) :
  In x l -> p x = true ->
  exists before r after,
    l = before ++ r :: after /\ p r = true /\ Forall (fun y => p y = false) before.
Proof.
  induction l as [|a l IH]; intros Hin Hx; [contradiction|].
  destruct (p a) eqn:Ea.
  - exists [], a, l. repeat split; [exact Ea | constructor].
  - destruct Hin as [-> | Hin]; [congruence|].
    destruct (IH Hin Hx) as (before & r & after & -> & Hr & Hb).
    exists (a :: before), r, after. repeat split; [exact Hr | now constructor].
Qed.

(** The loaded table has a first row for the date of every row of the CSV
    file. *)
Lemma load_then_find_rows P csv df raw d :
  sort_values_contract P ->
  load_matches P csv = Ok df ->
  In raw csv ->
  to_datetime P (date raw) = Some d ->
  exists (r : Row Timestamp) (before after : DataFrame),
    df = before ++ r :: after /\ date r = d /\ Forall (fun x => date x <> d) before.
Proof.
  intros HP Hload Hin Hraw.
  destruct (load_matches_inv P csv df Hload) as (pre & Hpre & ->).
  destruct (Forall2_In_l _ _ _ raw Hpre Hin) as (r0 & Hr0 & [Hd0 _]).
  assert (Hdate : date r0 = d) by congruence.
  destruct (HP pre) as [Hperm _].
  assert (Hin' : In r0 (sort_values P pre)) by (eapply Permutation_in; eassumption).
  destruct (filter_split_first (fun r => date r =? d) _ r0 Hin')
    as (before & r & after & Hdf & Hr & Hb).
  { now apply Z.eqb_eq. }
  exists r, before, after. repeat split.
  - exact Hdf.
  - now apply Z.eqb_eq.
  - eapply Forall_impl; [|exact Hb]. intros x Hx. now apply Z.eqb_neq.
Qed.

(** X4.  Looking up, in the loaded table, a date that parses to the
    timestamp of one of the rows of the CSV file always finds a match:
    the first row of the table with that timestamp. *)
Theorem load_then_find_by_date :
  forall (P : Pandas) (csv : list (Row string)) (df : DataFrame)
         (raw : Row string) (date_str : string) (d : Timestamp),
    sort_values_contract P ->
    load_matches P csv = Ok df ->
    In raw csv ->
    to_datetime P (date raw) = Some d ->
    to_datetime P date_str = Some d ->
    exists (r : Row Timestamp) (before after : DataFrame),
      find_match_by_date P df date_str = Ok (Some r) /\
      df = before ++ r :: after /\
      date r = d /\
      Forall (fun x => date x <> d) before.
Proof.
  intros P csv df raw date_str d HP Hload Hin Hraw Hstr.
  destruct (load_then_find_rows P csv df raw d HP Hload Hin Hraw)
    as (r & before & after & Hdf & Hr & Hb).
  exists r, before, after.
  unfold find_match_by_date. rewrite Hstr, Hdf, filter_first.
  - repeat split; assumption.
  - eapply Forall_impl; [|exact Hb]. intros x Hx. now apply Z.eqb_neq.
  - now apply Z.eqb_eq.
Qed.

Lemma load_then_find_by_date_witness :
  exists (r : Row Timestamp) (before after : DataFrame),
    find_match_by_date pandas_stable
      [table_row 1756684800000000000 "L" "B"; table_row 1759881600000000000 "W" "A";
       table_row 1759881600000000000 "L" "C"] "2025-10-08" = Ok (Some r) /\
    [table_row 1756684800000000000 "L" "B"; table_row 1759881600000000000 "W" "A";
     table_row 1759881600000000000 "L" "C"] = before ++ r :: after /\
    date r = 1759881600000000000 /\
    Forall (fun x => date x <> 1759881600000000000) before.
Proof.
  apply (load_then_find_by_date pandas_stable
           [csv_row "2025-10-08" "w" "A"; csv_row "2025-09-01" " L " "B";
            csv_row "2025-10-08" "l" "C"] _ (csv_row "2025-10-08" "l" "C")).
  - exact pandas_stable_contract.
  - reflexivity.
  - right. right. left. reflexivity.
  - reflexivity.
  - reflexivity.
Defined.






(** ** Binary64: integers of either sign, and more on division *)

Lemma binary_round_int_parts sx p :
  Zdigits2 (Zpos p) <= 1023 ->
  binary_round prec emax sx p 0 =
  S754_finite sx (Z.to_pos (fst (fl_parts (Zpos p)))) (snd (fl_parts (Zpos p))).
Proof.
  intros Hd. pose proof (fl_mant_bounds (Zpos p) (Pos2Z.is_pos p)) as Hb.
  pose proof (Zdigits2_pos (Zpos p) (Pos2Z.is_pos p)) as Hdp.
  rewrite binary_round_normal by lia.
  set (z := Zpos p) in *.
  assert (Hz : 0 < z) by (subst z; lia).
  unfold fl_parts, round53.
  assert (Hm2 : round_nearest_even (fst (cut53 (fst (align53 z 0)) loc_Exact))
                  (snd (cut53 (fst (align53 z 0)) loc_Exact)) = fl_mant z).
  { unfold fl_mant, align53. cbn [fst].
    destruct (Z.leb_spec (Zdigits2 z) 53) as [Hle | Hgt].
    - rewrite Z.max_l by lia. unfold cut53.
      rewrite Zdigits2_shift by lia.
      destruct (Z.leb_spec (Zdigits2 z + (53 - Zdigits2 z) - 53) 0); [|lia].
      reflexivity.
    - rewrite Z.max_r by lia. rewrite Z.mul_1_r. apply cut53_round; lia. }
  destruct (cut53 (fst (align53 z 0)) loc_Exact) as [m1 l1]. cbn [fst snd] in Hm2.
  rewrite Hm2.
  unfold align53. cbn [fst snd]. rewrite Zdigits2_shift by lia.
  destruct (Z.ltb_spec (fl_mant z) (2 ^ 53)); cbn [fst snd];
    match goal with |- context [?x <=? 971] => destruct (Z.leb_spec x 971); [|lia] end;
    f_equal; lia.
Qed.

(** The binary64 value of a nonzero integer: its sign, and the mantissa
    and exponent of its absolute value. *)
Lemma SFint_shape z :
  z <> 0 -> Zdigits2 (Z.abs z) <= 1023 ->
  SFint z = S754_finite (z <? 0) (Z.to_pos (fst (fl_parts (Z.abs z))))
              (snd (fl_parts (Z.abs z))).
Proof.
  intros Hz Hd. unfold SFint, binary_normalize.
  destruct z as [|p|p]; [lia | |]; cbn [Z.abs] in *;
    now rewrite binary_round_int_parts.
Qed.

(** A nonzero int64 as a binary64 number: a normal number of exponent
    between -52 and 11. *)
Lemma SFint_int64 z :
  z <> 0 -> int64 z ->
  exists m e,
    SFint z = S754_finite (z <? 0) m e /\
    2 ^ 52 <= Zpos m < 2 ^ 53 /\ -52 <= e <= 12.
Proof.
  unfold int64. intros Hz Hr.
  assert (Ha : 0 < Z.abs z <= 2 ^ 63) by lia.
  pose proof (Zdigits2_pos (Z.abs z) ltac:(lia)) as Hd0.
  assert (Hd : Zdigits2 (Z.abs z) <= 64) by (apply Zdigits2_le; lia).
  pose proof (fl_parts_bounds (Z.abs z) ltac:(lia)) as [Hm He].
  rewrite SFint_shape by lia.
  eexists _, _. split; [reflexivity|].
  rewrite Z2Pos.id by lia. split; [exact Hm | lia].
Qed.

(** The rounding of a quotient: finite when the exponent leaves room. *)
Lemma round53_bounded sx m e l :
  53 <= Zdigits2 m -> 0 < m -> e + Zdigits2 m - 52 <= 971 ->
  exists m3 e3,
    round53 sx m e l = S754_finite sx m3 e3 /\
    2 ^ 52 <= Zpos m3 < 2 ^ 53 /\
    e + Zdigits2 m - 53 <= e3 <= e + Zdigits2 m - 52.
Proof.
  intros Hd Hm He. unfold round53.
  pose proof (cut53_bounds m l Hd Hm) as Hcut.
  destruct (cut53 m l) as [m1 l1]. cbn [fst] in Hcut.
  pose proof (round_nearest_even_bounds m1 l1) as Hr.
  set (m2 := round_nearest_even m1 l1) in *.
  destruct (Z.ltb_spec m2 (2 ^ 53)) as [Hlt | Hge];
    match goal with |- context [?x <=? 971] => destruct (Z.leb_spec x 971); [|lia] end.
  - exists (Z.to_pos m2), (e + Z.max (Zdigits2 m - 53) 0).
    rewrite Z2Pos.id by lia. repeat split; lia.
  - exists (Z.to_pos (2 ^ 52)), (e + Z.max (Zdigits2 m - 53) 0 + 1).
    repeat split; cbn; lia.
Qed.

(** The quotient of two normal numbers, before it is rounded. *)
Lemma SFdiv_round53 sa ma ea sb mb eb :
  2 ^ 52 <= Zpos ma < 2 ^ 53 -> 2 ^ 52 <= Zpos mb < 2 ^ 53 ->
  -1021 <= ea - eb ->
  SFdiv prec emax (S754_finite sa ma ea) (S754_finite sb mb eb) =
  round53 (xorb sa sb) (Zpos ma * 2 ^ 53 / Zpos mb) (ea - eb - 53)
    (new_location (Zpos mb) (Zpos ma * 2 ^ 53 mod Zpos mb)) /\
  2 ^ 52 <= Zpos ma * 2 ^ 53 / Zpos mb < 2 ^ 54.
Proof.
  intros Ha Hb He. cbn [SFdiv].
  rewrite SFdiv_core_53 by assumption.
  set (a := Zpos ma) in *. set (b := Zpos mb) in *.
  pose proof (Z.div_mod (a * 2 ^ 53) b ltac:(lia)) as Hdm.
  pose proof (Z.mod_pos_bound (a * 2 ^ 53) b ltac:(lia)) as Hr.
  set (q := a * 2 ^ 53 / b) in *. set (r := a * 2 ^ 53 mod b) in *.
  clearbody q r.
  assert (Hq : 2 ^ 52 <= q < 2 ^ 54) by nia.
  split; [|exact Hq].
  assert (Hdq : 53 <= Zdigits2 q).
  { apply Zdigits2_ge; lia. }
  destruct q as [|qp|qp]; try lia. apply binary_round_aux_53; lia.
Qed.

(** The quotient of two normal numbers is a normal number when the
    difference of the exponents is small. *)
Lemma SFdiv_finite sa ma ea sb mb eb :
  2 ^ 52 <= Zpos ma < 2 ^ 53 -> 2 ^ 52 <= Zpos mb < 2 ^ 53 ->
  -1021 <= ea - eb <= 1022 ->
  exists m e,
    SFdiv prec emax (S754_finite sa ma ea) (S754_finite sb mb eb) =
    S754_finite (xorb sa sb) m e /\ 2 ^ 52 <= Zpos m < 2 ^ 53.
Proof.
  intros Ha Hb He.
  destruct (SFdiv_round53 sa ma ea sb mb eb Ha Hb ltac:(lia)) as [-> Hq].
  set (q := Zpos ma * 2 ^ 53 / Zpos mb) in *.
  set (l := new_location (Zpos mb) (Zpos ma * 2 ^ 53 mod Zpos mb)).
  clearbody q l.
  assert (Hdq : 53 <= Zdigits2 q <= 54).
  { split; [apply Zdigits2_ge; lia | apply Zdigits2_le; lia]. }
  destruct (round53_bounded (xorb sa sb) q (ea - eb - 53) l)
    as (m & e & Heq & Hm & _); [lia.. |].
  exists m, e. split; [exact Heq | exact Hm].
Qed.

(** A normal number divided by itself is 1.0. *)
Lemma SFdiv_same s m e :
  2 ^ 52 <= Zpos m < 2 ^ 53 ->
  SFdiv prec emax (S754_finite s m e) (S754_finite s m e) =
  S754_finite false 4503599627370496 (-52).
Proof.
  intros Hm.
  destruct (SFdiv_round53 s m e s m e Hm Hm ltac:(lia)) as [-> _].
  rewrite (Z.mul_comm (Zpos m)), Z.div_mul, Z.mod_mul, xorb_nilpotent by lia.
  replace (e - e - 53) with (-53) by lia.
  unfold new_location, new_location_even, new_location_odd.
  destruct (Z.even (Zpos m)); reflexivity.
Qed.

(** A normal number divided by 1.0 is the number. *)
Lemma SFdiv_one s m e :
  2 ^ 52 <= Zpos m < 2 ^ 53 -> -1073 <= e <= 971 ->
  SFdiv prec emax (S754_finite s m e) (S754_finite false 4503599627370496 (-52)) =
  S754_finite s m e.
Proof.
  intros Hm He.
  destruct (SFdiv_round53 s m e false 4503599627370496 (-52) Hm ltac:(lia) ltac:(lia))
    as [-> _].
  rewrite xorb_false_r.
  change (Zpos 4503599627370496) with (2 ^ 52).
  replace (Zpos m * 2 ^ 53) with (Zpos m * 2 * 2 ^ 52) by lia.
  rewrite Z.div_mul, Z.mod_mul by lia.
  change (new_location (2 ^ 52) 0) with loc_Exact.
  unfold round53, cut53.
  rewrite (Zdigits2_unique (Zpos m * 2) 54) by lia.
  change (54 - 53 <=? 0) with false. cbv beta iota.
  change (2 ^ (54 - 53)) with 2. change (2 ^ (54 - 53 - 1)) with 1.
  rewrite Z.div_mul, Z.div_1_r, Z.mod_1_r by lia.
  rewrite Z.odd_mul. cbn [Z.odd andb shr_record_of_loc shr_r shr_s orb Z.eqb negb].
  rewrite andb_false_r. cbn [loc_of_shr_record round_nearest_even].
  destruct (Z.ltb_spec (Zpos m) (2 ^ 53)); [|lia].
  change (Z.max (54 - 53) 0) with 1.
  destruct (Z.leb_spec (e - -52 - 53 + 1) 971); [|lia].
  f_equal. lia.
Qed.

Lemma float_div_same n :
  n <> 0 -> int64 n -> (float_of_Z n / float_of_Z n)%float = 1%float.
Proof.
  intros Hn Hr. apply Prim2SF_inj.
  rewrite div_spec, !Prim2SF_float_of_Z. unfold SF64div.
  destruct (SFint_int64 n Hn Hr) as (m & e & -> & Hm & _).
  now rewrite SFdiv_same.
Qed.

Lemma float_div_one n :
  int64 n -> (float_of_Z n / float_of_Z 1)%float = float_of_Z n.
Proof.
  intros Hr. apply Prim2SF_inj.
  rewrite div_spec, !Prim2SF_float_of_Z. unfold SF64div.
  destruct (Z.eq_dec n 0) as [-> | Hn]; [reflexivity|].
  destruct (SFint_int64 n Hn Hr) as (m & e & -> & Hm & He).
  change (SFint 1) with (S754_finite false 4503599627370496 (-52)).
  apply SFdiv_one; lia.
Qed.

(** The quotient of two int64 integers, the divisor not zero, is a finite
    float. *)
Lemma float_div_int_finite n d :
  int64 n -> int64 d -> d <> 0 ->
  isfinite (float_of_Z n / float_of_Z d) = true.
Proof.
  intros Hn Hd Hd0. unfold isfinite.
  rewrite div_spec, !Prim2SF_float_of_Z. unfold SF64div.
  destruct (SFint_int64 d Hd0 Hd) as (md & ed & -> & Hmd & Hed).
  destruct (Z.eq_dec n 0) as [-> | Hn0]; [reflexivity|].
  destruct (SFint_int64 n Hn0 Hn) as (mn & en & -> & Hmn & Hen).
  destruct (SFdiv_finite (n <? 0) mn en (d <? 0) md ed) as (m & e & -> & _);
    try assumption; [lia | reflexivity].
Qed.

(** Zero divided by a positive integer is 0.0, by a negative one -0.0. *)
Lemma float_div_zero d :
  d <> 0 -> int64 d ->
  (float_of_Z 0 / float_of_Z d)%float = if d <? 0 then (-0)%float else 0%float.
Proof.
  intros Hd0 Hd. apply Prim2SF_inj.
  rewrite div_spec, !Prim2SF_float_of_Z. unfold SF64div.
  destruct (SFint_int64 d Hd0 Hd) as (md & ed & -> & _).
  destruct (d <? 0); reflexivity.
Qed.

(** The parts of the quotient of two table cells [0 < n <= d]. *)
Lemma float_div_unit_parts n d :
  0 < n <= d -> d < 2 ^ 63 ->
  exists m e,
    Prim2SF (float_of_Z n / float_of_Z d) = S754_finite false m e /\
    (e < -52 \/ (e = -52 /\ Zpos m = 2 ^ 52)).
Proof.
  intros Hn Hd.
  rewrite div_spec, !Prim2SF_float_of_Z. unfold SF64div.
  pose proof (Zdigits2_le d 63 ltac:(lia)) as Hdd.
  pose proof (Zdigits2_pos d ltac:(lia)) as Hdd0.
  pose proof (fl_parts_bounds d ltac:(lia)) as [Hmd Hed].
  rewrite (SFint_parts d) by lia.
  pose proof (Zdigits2_le n 63 ltac:(lia)) as Hdn.
  pose proof (Zdigits2_pos n ltac:(lia)) as Hdn0.
  pose proof (fl_parts_bounds n ltac:(lia)) as [Hmn Hen].
  rewrite (SFint_parts n) by lia.
  pose proof (fl_parts_mono n d ltac:(lia)) as Hle.
  apply SFdiv_le_one; rewrite ?Z2Pos.id by lia; try lia.
  destruct Hle; [left | right]; cbn [fst snd]; assumption.
Qed.

(** ** [_safe_div] on every number *)

(** An integer below 2^1023 in magnitude converts to a finite float. *)
Lemma float_of_Z_fits z : Z.abs z < 2 ^ 1023 -> float_overflows (PyLong z) = false.
Proof.
  intros Hz. cbn [float_overflows]. rewrite Prim2SF_float_of_Z.
  destruct (Z.eq_dec z 0) as [-> | Hnz]; [reflexivity|].
  rewrite SFint_shape; [reflexivity | exact Hnz |].
  apply Zdigits2_le. lia.
Qed.

Lemma float_overflows_big x :
  float_overflows x = true -> exists z, x = PyLong z /\ 2 ^ 1023 <= Z.abs z.
Proof.
  destruct x as [z | f | z]; try discriminate. intros H. exists z. split; [reflexivity|].
  destruct (Z.le_gt_cases (2 ^ 1023) (Z.abs z)) as [L | G]; [exact L|].
  rewrite float_of_Z_fits in H by lia. discriminate H.
Qed.

(** C2, as the code has it.  The zero denominators are the integer 0 and
    the floats 0.0 and -0.0; on them [_safe_div] returns 0.0 whatever the
    numerator, which it does not convert.  On any other denominator it
    converts both arguments: it returns the quotient of the two floats
    when both conversions succeed, and raises [OverflowError] when one of
    the arguments is a Python [int] too large for a float, which takes at
    least 2^1023 in magnitude.  It raises nothing else: never
    [ZeroDivisionError]. *)
Theorem safe_div_spec :
  forall n d : number,
    well_formed n -> well_formed d ->
    (truthy d = false <->
     d = Int 0 \/ d = PyLong 0 \/ d = Float 0%float \/ d = Float (-0)%float) /\
    (truthy d = false -> _safe_div n d = Ok 0%float) /\
    (truthy d = true ->
     float_overflows n = false -> float_overflows d = false ->
     _safe_div n d = Ok (float_value n / float_value d)%float) /\
    (truthy d = true ->
     float_overflows n = true \/ float_overflows d = true ->
     _safe_div n d = Raise OverflowError) /\
    (forall e : exn, _safe_div n d = Raise e -> e = OverflowError) /\
    (forall x : number,
       float_overflows x = true -> exists z, x = PyLong z /\ 2 ^ 1023 <= Z.abs z).
Proof.
  intros n d _ _. split; [apply truthy_false|].
  split; [intros Ht; unfold _safe_div; now rewrite Ht|].
  split.
  { intros Ht Hn Hd. rewrite safe_div_eq by assumption.
    unfold safe_div_value. now rewrite Ht. }
  split.
  { intros Ht H. unfold _safe_div, py_float. rewrite Ht.
    destruct (float_overflows n); [reflexivity|].
    destruct H as [H | H]; [discriminate H|]. now rewrite H. }
  split; [|exact float_overflows_big].
  intros e. unfold _safe_div, py_float, py_truediv.
  destruct (truthy d) eqn:Ht; [|discriminate].
  destruct (float_overflows n); [now intros [= <-]|].
  destruct (float_overflows d); [now intros [= <-]|].
  cbn [bind]. now rewrite (truthy_float_value d Ht).
Qed.

Lemma safe_div_spec_witness :
  _safe_div (PyLong 7) (Float 2) = Ok 3.5%float /\
  _safe_div (PyLong (2 ^ 1024)) (Int 0) = Ok 0%float /\
  _safe_div (PyLong (2 ^ 1024)) (Float 2) = Raise OverflowError.
Proof.
  destruct (safe_div_spec (PyLong 7) (Float 2) I I) as (_ & _ & H1 & _).
  destruct (safe_div_spec (PyLong (2 ^ 1024)) (Int 0) I ltac:(cbn; lia))
    as (_ & H2 & _).
  destruct (safe_div_spec (PyLong (2 ^ 1024)) (Float 2) I I) as (_ & _ & _ & H3 & _).
  split; [|split].
  - rewrite H1; reflexivity.
  - apply H2. reflexivity.
  - apply H3; [reflexivity | left; vm_compute; reflexivity].
Defined.

(** C2, as stated, fails: [float] of a Python [int] raises from
    2^1024 - 2^970 on, and so does [_safe_div] when the denominator is not
    zero. *)
Lemma safe_div_overflow :
  _safe_div (PyLong (2 ^ 1024)) (PyLong 1) = Raise OverflowError /\
  _safe_div (Float 1) (PyLong (2 ^ 1024)) = Raise OverflowError /\
  _safe_div (PyLong (2 ^ 1024 - 2 ^ 970)) (PyLong 1) = Raise OverflowError /\
  _safe_div (PyLong (2 ^ 1024 - 2 ^ 970 - 1)) (PyLong 1)
  = Ok 0x1.fffffffffffffp+1023%float.
Proof. repeat split; vm_compute; reflexivity. Qed.

(** ** Season rates lie between 0.0 and 1.0 *)

Lemma Zsum_le {A : Type} (f g : A -> Z) (l : list A) :
  Forall (fun r => 0 <= f r <= g r) l ->
  0 <= Zsum (map f l) <= Zsum (map g l).
Proof.
  unfold Zsum. induction 1 as [|r l Hr _ IH]; cbn [map fold_right]; lia.
Qed.

Lemma unit_interval_quotient n d :
  0 <= n <= d -> d < 2 ^ 63 ->
  unit_interval (safe_div_value (Int (wrap64 n)) (Int (wrap64 d))).
Proof.
  intros Hn Hd.
  rewrite !wrap64_small by (unfold int64; lia).
  destruct (Z.eq_dec d 0) as [-> | Hd0].
  - rewrite safe_div_value_zero by reflexivity. split; reflexivity.
  - apply safe_div_value_unit; unfold counter; lia.
Qed.

(** X6.  On a table in which every row has its successes between zero
    and its attempts, and whose totals fit an int64, the win rate and
    the four season rates of the summary lie between 0.0 and 1.0. *)
Theorem season_rates_in_unit_interval :
  forall (D : Type) (df : list (Row D)) (s : Summary.t),
    Forall rates_valid df ->
    Zsum (col first_serve_total df) < 2 ^ 63 ->
    Zsum (col first_serve_points_total df) < 2 ^ 63 ->
    Zsum (col second_serve_points_total df) < 2 ^ 63 ->
    Zsum (col break_points_faced df) < 2 ^ 63 ->
    Z.of_nat (List.length df) < 2 ^ 63 ->
    compute_summary df = Ok s ->
    unit_interval (Summary.win_rate s) /\
    unit_interval (Summary.first_serve_pct s) /\
    unit_interval (Summary.first_serve_pts_won_pct s) /\
    unit_interval (Summary.second_serve_pts_won_pct s) /\
    unit_interval (Summary.break_points_saved_pct s).
Proof.
  intros D df s Hv H1 H2 H3 H4 Hlen Hs.
  rewrite compute_summary_eq in Hs. injection Hs as <-.
  cbn [Summary.win_rate Summary.first_serve_pct Summary.first_serve_pts_won_pct
       Summary.second_serve_pts_won_pct Summary.break_points_saved_pct].
  split.
  - destruct (count_result_bounds df) as (HW & HL & Hle & _).
    destruct df as [|r df]; [split; reflexivity|].
    apply safe_div_value_unit; unfold counter; cbn [List.length] in *; lia.
  - unfold col in *.
    repeat split; apply unit_interval_quotient; try assumption; apply Zsum_le;
      (eapply Forall_impl; [|exact Hv]); intros r (R1 & R2 & R3 & R4); assumption.
Qed.

Lemma season_rates_in_unit_interval_witness :
  exists s : Summary.t,
    compute_summary [test_row_1; test_row_2] = Ok s /\
    unit_interval (Summary.win_rate s) /\
    unit_interval (Summary.first_serve_pct s) /\
    unit_interval (Summary.first_serve_pts_won_pct s) /\
    unit_interval (Summary.second_serve_pts_won_pct s) /\
    unit_interval (Summary.break_points_saved_pct s).
Proof.
  pose proof (compute_summary_eq [test_row_1; test_row_2]) as Hs.
  eexists. split; [exact Hs|].
  apply (season_rates_in_unit_interval unit [test_row_1; test_row_2]);
    try exact Hs; try (cbn; lia).
  repeat constructor; cbn; lia.
Defined.

(** ** Rates that are exactly 1.0 *)

Lemma safe_div_value_same n :
  n <> 0 -> int64 n -> safe_div_value (Int n) (Int n) = 1%float.
Proof.
  intros Hn Hr. unfold safe_div_value, truthy, float_value.
  destruct (Z.eqb_spec n 0) as [E | _]; [contradiction|]. cbn [negb].
  now apply float_div_same.
Qed.

(** X7.  A rate whose two counters are the same nonzero integer is
    exactly 1.0: so is each rate of a match, and so is the win rate of a
    season in which every match was won. *)
Theorem perfect_rates_are_one :
  (forall n : Z, n <> 0 -> int64 n -> _safe_div (Int n) (Int n) = Ok 1%float) /\
  (forall (D : Type) (row : Row D) (m : Metrics.t),
     compute_match_metrics row = Ok m ->
     (first_serve_in row = first_serve_total row ->
      first_serve_total row <> 0 -> int64 (first_serve_total row) ->
      Metrics.first_serve_pct m = 1%float) /\
     (first_serve_points_won row = first_serve_points_total row ->
      first_serve_points_total row <> 0 -> int64 (first_serve_points_total row) ->
      Metrics.first_serve_pts_won_pct m = 1%float) /\
     (second_serve_points_won row = second_serve_points_total row ->
      second_serve_points_total row <> 0 -> int64 (second_serve_points_total row) ->
      Metrics.second_serve_pts_won_pct m = 1%float) /\
     (break_points_saved row = break_points_faced row ->
      break_points_faced row <> 0 -> int64 (break_points_faced row) ->
      Metrics.break_points_saved_pct m = 1%float)) /\
  (forall (D : Type) (df : list (Row D)) (s : Summary.t),
     compute_summary df = Ok s ->
     df <> [] -> Z.of_nat (List.length df) < 2 ^ 63 ->
     Forall (fun r => result r = "W"%string) df ->
     Summary.wins s = Summary.matches s /\ Summary.losses s = 0 /\
     Summary.win_rate s = 1%float).
Proof.
  split; [| split].
  - intros n Hn Hr. rewrite safe_div_value_eq. f_equal. now apply safe_div_value_same.
  - intros D row m Hm. unfold compute_match_metrics in Hm.
    rewrite !safe_div_value_eq in Hm. cbn [bind] in Hm. injection Hm as <-.
    cbn [Metrics.first_serve_pct Metrics.first_serve_pts_won_pct
         Metrics.second_serve_pts_won_pct Metrics.break_points_saved_pct].
    repeat split; intros -> Hn Hr; now apply safe_div_value_same.
  - intros D df s Hs Hne Hlen HW.
    rewrite compute_summary_eq in Hs. injection Hs as <-.
    cbn [Summary.wins Summary.matches Summary.losses Summary.win_rate].
    assert (Hc : count_result "W" df = Z.of_nat (List.length df) /\
                 count_result "L" df = 0).
    { unfold count_result. clear Hne Hlen.
      induction HW as [|r df Hr _ [IH1 IH2]]; [split; reflexivity|].
      cbn [filter]. rewrite Hr. cbn [String.eqb Ascii.eqb Bool.eqb].
      cbn [List.length]. split; [lia | exact IH2]. }
    destruct Hc as [-> ->]. repeat split.
    apply safe_div_value_same; [|unfold int64; lia].
    destruct df; [contradiction | cbn [List.length]; lia].
Qed.

Lemma perfect_rates_are_one_witness :
  _safe_div (Int 40) (Int 40) = Ok 1%float /\
  exists s : Summary.t,
    compute_summary three_wins = Ok s /\
    Summary.wins s = Summary.matches s /\ Summary.losses s = 0 /\
    Summary.win_rate s = 1%float.
Proof.
  destruct perfect_rates_are_one as (H1 & _ & H3).
  split; [apply H1; [discriminate | unfold int64; lia]|].
  pose proof (compute_summary_eq three_wins) as Hs.
  eexists. split; [exact Hs|].
  apply (H3 unit three_wins); [exact Hs | discriminate | cbn; lia |].
  repeat constructor.
Defined.

(** ** A season of one match *)

Lemma Series_mean_single x : int64 x -> Series_mean [x] = float_of_Z x.
Proof.
  intros Hx. unfold Series_mean. cbn [fold_left List.length].
  rewrite float_zero_add. change (Z.of_nat 1) with 1. now apply float_div_one.
Qed.

(** X8.  The summary of a table of one row has the four rates of that
    match, and the cells of the row as averages. *)
Theorem summary_of_single_match :
  forall (D : Type) (row : Row D) (m : Metrics.t) (s : Summary.t),
    cells_int64 row ->
    compute_match_metrics row = Ok m ->
    compute_summary [row] = Ok s ->
    Summary.matches s = 1 /\
    Summary.first_serve_pct s = Metrics.first_serve_pct m /\
    Summary.first_serve_pts_won_pct s = Metrics.first_serve_pts_won_pct m /\
    Summary.second_serve_pts_won_pct s = Metrics.second_serve_pts_won_pct m /\
    Summary.break_points_saved_pct s = Metrics.break_points_saved_pct m /\
    Summary.avg_aces s = float_of_Z (aces row) /\
    Summary.avg_double_faults s = float_of_Z (double_faults row).
Proof.
  intros D row m s (Ha & Hd & H1 & H2 & H3 & H4 & H5 & H6 & H7 & H8) Hm Hs.
  unfold compute_match_metrics in Hm. rewrite !safe_div_value_eq in Hm.
  cbn [bind] in Hm. injection Hm as <-.
  rewrite compute_summary_eq in Hs. injection Hs as <-.
  cbn [Summary.matches Summary.first_serve_pct Summary.first_serve_pts_won_pct
       Summary.second_serve_pts_won_pct Summary.break_points_saved_pct
       Summary.avg_aces Summary.avg_double_faults
       Metrics.first_serve_pct Metrics.first_serve_pts_won_pct
       Metrics.second_serve_pts_won_pct Metrics.break_points_saved_pct
       col map Zsum fold_right List.length].
  rewrite !Z.add_0_r, !wrap64_small by assumption.
  change (truthy (Int (Z.of_nat 1))) with true. cbv iota.
  rewrite !float_zero_add, !float_div_one by assumption.
  repeat split.
Qed.

Lemma summary_of_single_match_witness :
  exists s : Summary.t,
    compute_summary [test_row_1] = Ok s /\
    Summary.first_serve_pct s = 0.8%float /\
    Summary.avg_aces s = 5%float.
Proof.
  pose proof (compute_summary_eq [test_row_1]) as Hs.
  eexists. split; [exact Hs|].
  destruct (summary_of_single_match unit test_row_1 (Metrics.mk 0.8 0.75 0.5 0.75) _
              ltac:(unfold cells_int64, int64; cbn; lia) eq_refl Hs)
    as (_ & -> & _ & _ & _ & -> & _).
  split; reflexivity.
Defined.

(** ** The float fields of the summary are finite *)

Lemma safe_div_value_finite n d :
  int64 n -> int64 d -> isfinite (safe_div_value (Int n) (Int d)) = true.
Proof.
  intros Hn Hd. unfold safe_div_value, truthy, float_value.
  destruct (Z.eqb_spec d 0) as [E | Hd0]; cbn [negb]; [reflexivity|].
  now apply float_div_int_finite.
Qed.

Lemma Series_mean_finite xs :
  exact_column xs -> xs <> [] -> Z.of_nat (List.length xs) < 2 ^ 63 ->
  isfinite (Series_mean xs) = true.
Proof.
  intros Hex Hne Hlen. rewrite Series_mean_exact by assumption.
  destruct Hex as [Hnn Hsum]. pose proof (Zsum_nonneg xs Hnn).
  apply float_div_int_finite; unfold int64; try lia.
  destruct xs; [contradiction | cbn [List.length]; lia].
Qed.

Lemma average_finite {D : Type} (f : Row D -> Z) (df : list (Row D)) :
  Z.of_nat (List.length df) < 2 ^ 63 ->
  exact_column (col f df) ->
  isfinite (if truthy (Int (Z.of_nat (List.length df)))
            then Series_mean (col f df) else 0%float) = true.
Proof.
  intros Hlen Hex. destruct df as [|r df]; [reflexivity|].
  change (truthy (Int (Z.of_nat (List.length (r :: df)))))
    with (negb (Z.of_nat (List.length (r :: df)) =? 0)).
  destruct (Z.eqb_spec (Z.of_nat (List.length (r :: df))) 0) as [E | _];
    [cbn [List.length] in E; lia|]. cbn [negb].
  apply Series_mean_finite; [assumption | discriminate |].
  unfold col. now rewrite length_map.
Qed.

Lemma win_rate_finite {D : Type} (df : list (Row D)) :
  Z.of_nat (List.length df) < 2 ^ 63 ->
  isfinite (safe_div_value (Int (count_result "W" df))
                           (Int (Z.of_nat (List.length df)))) = true.
Proof.
  intros Hlen. destruct (count_result_bounds df) as (HW & HL & Hle & _).
  apply safe_div_value_finite; unfold int64; lia.
Qed.

Lemma season_rate_finite a b :
  isfinite (safe_div_value (Int (wrap64 a)) (Int (wrap64 b))) = true.
Proof. apply safe_div_value_finite; apply wrap64_range. Qed.

(** X9.  [compute_summary] returns neither NaN nor an infinity: the win
    rate and the four season rates are finite on every table of fewer
    than 2^63 rows, and so are the averages of columns whose running
    sums are exact. *)
Theorem summary_floats_finite :
  forall (D : Type) (df : list (Row D)) (s : Summary.t),
    Z.of_nat (List.length df) < 2 ^ 63 ->
    compute_summary df = Ok s ->
    isfinite (Summary.win_rate s) = true /\
    isfinite (Summary.first_serve_pct s) = true /\
    isfinite (Summary.first_serve_pts_won_pct s) = true /\
    isfinite (Summary.second_serve_pts_won_pct s) = true /\
    isfinite (Summary.break_points_saved_pct s) = true /\
    (exact_column (col aces df) -> isfinite (Summary.avg_aces s) = true) /\
    (exact_column (col double_faults df) ->
     isfinite (Summary.avg_double_faults s) = true).
Proof.
  intros D df s Hlen Hs.
  rewrite compute_summary_eq in Hs. injection Hs as <-.
  cbn [Summary.win_rate Summary.first_serve_pct Summary.first_serve_pts_won_pct
       Summary.second_serve_pts_won_pct Summary.break_points_saved_pct
       Summary.avg_aces Summary.avg_double_faults].
  split; [now apply win_rate_finite|].
  repeat split; try apply season_rate_finite; intros Hex; now apply average_finite.
Qed.

Lemma summary_floats_finite_witness :
  exists s : Summary.t,
    compute_summary [test_row_1; test_row_2] = Ok s /\
    isfinite (Summary.win_rate s) = true /\
    isfinite (Summary.first_serve_pct s) = true /\
    isfinite (Summary.avg_aces s) = true.
Proof.
  pose proof (compute_summary_eq [test_row_1; test_row_2]) as Hs.
  eexists. split; [exact Hs|].
  destruct (summary_floats_finite unit [test_row_1; test_row_2] _
              ltac:(cbn; lia) Hs) as (H1 & H2 & _ & _ & _ & H6 & _).
  split; [exact H1|]. split; [exact H2|].
  apply H6. split; [repeat constructor; cbn; lia | cbn; lia].
Defined.

(** ** Normalizing result codes twice *)

Lemma str_upper_fixed s :
  str_forallb (fun c => negb (chr_islower c)) s = true -> str_upper s = s.
Proof.
  induction s as [|c s IH]; cbn [str_forallb str_upper]; [reflexivity|].
  intros H. apply andb_prop in H as [Hc Hs]. rewrite (IH Hs). f_equal.
  unfold chr_upper. unfold chr_islower in Hc.
  apply negb_true_iff in Hc. now rewrite Hc.
Qed.

Lemma str_rstrip_fixed s : not_space (str_last s) = true -> str_rstrip s = s.
Proof.
  induction s as [|c s IH]; [reflexivity|].
  cbn [str_rstrip]. destruct s as [|c' s'].
  - cbn [str_rstrip str_last not_space]. intros H.
    apply negb_true_iff in H. now rewrite H.
  - intros H. change (str_last (String c (String c' s'))) with (str_last (String c' s')) in H.
    rewrite (IH H). reflexivity.
Qed.

Lemma str_lstrip_fixed s : not_space (str_first s) = true -> str_lstrip s = s.
Proof.
  destruct s as [|c s]; [reflexivity|].
  cbn [str_first not_space str_lstrip]. intros H.
  apply negb_true_iff in H. now rewrite H.
Qed.

Lemma normalized_fixed s : normalized s = true -> str_strip (str_upper s) = s.
Proof.
  unfold normalized. intros H.
  apply andb_prop in H as [H Hl]. apply andb_prop in H as [Hu Hf].
  rewrite (str_upper_fixed s Hu). unfold str_strip.
  rewrite (str_rstrip_fixed s Hl). now apply str_lstrip_fixed.
Qed.

Lemma normalize_results_fixed {D : Type} (df : list (Row D)) :
  Forall (fun r => normalized (result r) = true) df -> normalize_results df = df.
Proof.
  unfold normalize_results.
  induction 1 as [|r l Hr _ IH]; cbn [map]; [reflexivity|].
  rewrite IH, (normalized_fixed _ Hr). destruct r. reflexivity.
Qed.

(** X10.  Normalizing the result codes of a table that is already
    normalized changes nothing:  [upper] and [strip] applied twice give
    what they give once, and a table [load_matches] returned stays as it
    is. *)
Theorem normalize_results_idempotent :
  (forall (D : Type) (df : list (Row D)),
     normalize_results (normalize_results df) = normalize_results df) /\
  (forall (P : Pandas) (csv : list (Row string)) (df : DataFrame),
     sort_values_contract P ->
     load_matches P csv = Ok df ->
     normalize_results df = df).
Proof.
  split.
  - intros D df. unfold normalize_results. rewrite map_map.
    apply map_ext. intros r. cbn [result set_result].
    rewrite (normalized_fixed _ (strip_upper_normalized (result r))). reflexivity.
  - intros P csv df HP Hload.
    destruct (load_matches_inv P csv df Hload) as (pre & Hpre & ->).
    destruct (HP pre) as [Hperm _].
    assert (Hn : Forall (fun r => normalized (result r) = true) (sort_values P pre)).
    { eapply Permutation_Forall; [exact Hperm|].
      clear -Hpre. induction Hpre as [|raw r csv pre [_ Hr] _ IH]; constructor; [|exact IH].
      rewrite Hr. cbn [result set_date set_result]. apply strip_upper_normalized. }
    now apply normalize_results_fixed.
Qed.

Lemma normalize_results_idempotent_witness :
  normalize_results
    [table_row 1756684800000000000 "L" "B"; table_row 1759881600000000000 "W" "A"]
  = [table_row 1756684800000000000 "L" "B"; table_row 1759881600000000000 "W" "A"].
Proof.
  apply (proj2 normalize_results_idempotent pandas_stable
           [csv_row "2025-10-08" " w" "A"; csv_row "2025-09-01" "L  " "B"]).
  - exact pandas_stable_contract.
  - reflexivity.
Defined.

(** * The command line tool *)

(** ** Metrics by name *)

Lemma allowed_In key : allowed key = true <-> In key ALLOWED_METRICS.
Proof.
  unfold allowed. rewrite existsb_exists. split.
  - intros (x & Hx & E). apply String.eqb_eq in E. now subst.
  - intros H. exists key. split; [exact H | apply String.eqb_refl].
Qed.

(** X11.  The metrics [cmd_plot] accepts are the keys of the dictionary
    [compute_match_metrics] returns, no more and no fewer: an accepted
    metric is never a missing key. *)
Theorem allowed_metrics_are_the_keys :
  forall (D : Type) (row : Row D) (key : string),
    exists m : Metrics.t,
      compute_match_metrics row = Ok m /\
      (In key ALLOWED_METRICS <-> Metrics_getitem m key <> None) /\
      (allowed key = true -> exists v, getitem m key = ([], Returned v)) /\
      (allowed key = false -> getitem m key = ([], Raised (KeyError key))).
Proof.
  intros D row key. unfold compute_match_metrics.
  rewrite !safe_div_value_eq. cbn [bind]. eexists. split; [reflexivity|].
  unfold getitem, allowed, Metrics_getitem, ALLOWED_METRICS.
  cbn [existsb In].
  repeat match goal with
         | |- context [String.eqb key ?k] => destruct (String.eqb_spec key k)
         end;
    cbn [orb]; repeat split; try discriminate; try congruence;
    try (intros _; eexists; reflexivity); intuition congruence.
Qed.

(** ** [cmd_plot] *)

Lemma getitem_allowed m metric :
  allowed metric = true ->
  exists v, Metrics_getitem m metric = Some v /\ getitem m metric = ([], Returned v).
Proof.
  unfold getitem, allowed, Metrics_getitem, ALLOWED_METRICS. cbn [existsb].
  destruct (String.eqb metric "first_serve_pct"); [eauto|].
  destruct (String.eqb metric "first_serve_pts_won_pct"); [eauto|].
  destruct (String.eqb metric "second_serve_pts_won_pct"); [eauto|].
  destruct (String.eqb metric "break_points_saved_pct"); [eauto|].
  discriminate.
Qed.

Lemma plot_values_spec metric rows vals :
  allowed metric = true ->
  exists vs : list float,
    plot_values metric rows vals = ([], Returned (vals ++ vs)) /\
    Forall2 (metric_of metric) rows vs.
Proof.
  intros Ha. revert vals. induction rows as [|row rows IH]; intros vals.
  - exists []. split; [cbn; now rewrite app_nil_r | constructor].
  - cbn [plot_values]. unfold compute_match_metrics.
    rewrite !safe_div_value_eq. cbn [bind call ret and_then].
    match goal with |- context [getitem ?m metric] => set (m0 := m) end.
    destruct (getitem_allowed m0 metric Ha) as (v & Hv & ->).
    cbn [and_then].
    destruct (IH (vals ++ [v])) as (vs & -> & HF).
    exists (v :: vs). split.
    + cbn. now rewrite <- app_assoc.
    + constructor; [|exact HF]. exists m0. split; [|exact Hv].
      unfold compute_match_metrics. now rewrite !safe_div_value_eq.
Qed.

Lemma sorted_dates (df : DataFrame) :
  Sorted by_date df -> StronglySorted Z.le (col date df).
Proof.
  intros H. apply Sorted_StronglySorted in H; [|exact by_date_trans].
  unfold col. induction H as [|r l _ IH Hr]; cbn [map]; constructor; [exact IH|].
  rewrite Forall_map. exact Hr.
Qed.

(** X12.  [cmd_plot] with an allowed metric, on a CSV file whose dates
    parse, plots one point per match: the dates of the loaded table in
    ascending order against the metric of the same rows; it saves the
    figure as [results/<metric>.png] and ends without an exception. *)
Theorem cmd_plot_plots_every_match :
  forall (P : Pandas) (csv : list (Row string)) (metric : string),
    sort_values_contract P ->
    Forall (fun r => to_datetime P (date r) <> None) csv ->
    In metric ALLOWED_METRICS ->
    exists (df : DataFrame) (vals : list float),
      load_matches P csv = Ok df /\
      cmd_plot P csv metric =
        ([Makedirs "results";
          PltPlot (col date df) vals "o";
          PltXlabel "Date"; PltYlabel metric;
          PltTitle (metric ++ " over time");
          PltXticks 45; PltTightLayout;
          PltSavefig ("results/" ++ metric ++ ".png") 200;
          PltClose;
          Stdout ("Wrote: results/" ++ metric ++ ".png")], Returned tt) /\
      Forall2 (metric_of metric) df vals /\
      List.length vals = List.length csv /\
      StronglySorted Z.le (col date df).
Proof.
  intros P csv metric HP Hcsv Hin.
  destruct (load_matches_ok P csv Hcsv) as (pre & Hpre & Hload).
  destruct (HP pre) as [Hperm Hsorted].
  apply allowed_In in Hin.
  destruct (plot_values_spec metric (sort_values P pre) [] Hin) as (vals & Hvals & HF).
  exists (sort_values P pre), vals.
  split; [exact Hload|]. split; [|split; [exact HF|split]].
  - unfold cmd_plot. rewrite Hload.
    cbn [call ret and_then ensure_results perform app]. rewrite Hin. cbn [negb].
    rewrite Hvals.
    assert (Hpath : path_join "results" (metric ++ ".png") = ("results/" ++ metric ++ ".png")%string).
    { unfold allowed, ALLOWED_METRICS in Hin. cbn [existsb] in Hin.
      repeat (apply orb_prop in Hin as [Hin | Hin];
              [apply String.eqb_eq in Hin; subst metric; reflexivity|]).
      discriminate Hin. }
    rewrite Hpath. reflexivity.
  - rewrite <- (Forall2_length HF), <- (Permutation_length Hperm).
    symmetry. exact (Forall2_length Hpre).
  - now apply sorted_dates.
Qed.

Lemma cmd_plot_plots_every_match_witness :
  exists (df : DataFrame) (vals : list float),
    load_matches pandas_stable
      [csv_row "2025-10-08" "w" "A"; csv_row "2025-09-01" " L " "B"] = Ok df /\
    stdout (fst (cmd_plot pandas_stable
                   [csv_row "2025-10-08" "w" "A"; csv_row "2025-09-01" " L " "B"]
                   "first_serve_pct"))
      = ["Wrote: results/first_serve_pct.png"%string] /\
    vals = [0.8; 0.8]%float /\
    col date df = [1756684800000000000; 1759881600000000000].
Proof.
  destruct (cmd_plot_plots_every_match pandas_stable
              [csv_row "2025-10-08" "w" "A"; csv_row "2025-09-01" " L " "B"]
              "first_serve_pct" pandas_stable_contract)
    as (df & vals & Hload & Hrun & HF & _ & _).
  { repeat constructor; discriminate. }
  { left. reflexivity. }
  exists df, vals. split; [exact Hload|].
  rewrite Hrun. split; [reflexivity|].
  vm_compute in Hload. injection Hload as <-.
  split; [|reflexivity].
  inversion HF as [|r1 v1 l1 vs1 (m1 & Hm1 & Hv1) HF1]; subst.
  inversion HF1 as [|r2 v2 l2 vs2 (m2 & Hm2 & Hv2) HF2]; subst.
  inversion HF2; subst.
  vm_compute in Hm1. injection Hm1 as <-. vm_compute in Hv1. injection Hv1 as <-.
  vm_compute in Hm2. injection Hm2 as <-. vm_compute in Hv2. injection Hv2 as <-.
  reflexivity.
Defined.



(** ** Dates: from the text of the CSV file to the text [cmd_match] prints *)

Lemma month_day_recovered mp d :
  0 <= mp <= 11 ->
  1 <= d <= 31 ->
  (mp = 1 \/ mp = 3 \/ mp = 6 \/ mp = 8 -> d <= 30) ->
  (mp = 11 -> d <= 29) ->
  (5 * ((153 * mp + 2) / 5 + d - 1) + 2) / 153 = mp /\
  0 <= (153 * mp + 2) / 5 + d - 1 <= 365 /\
  ((153 * mp + 2) / 5 + d - 1 = 365 -> mp = 11 /\ d = 29).
Proof.
  intros Hmp Hd H30 H29.
  assert (C : mp = 0 \/ mp = 1 \/ mp = 2 \/ mp = 3 \/ mp = 4 \/ mp = 5 \/ mp = 6 \/
              mp = 7 \/ mp = 8 \/ mp = 9 \/ mp = 10 \/ mp = 11) by lia.
  destruct C as [-> | [-> | [-> | [-> | [-> | [-> | [-> | [-> | [-> | [-> | [-> | ->]]]]]]]]]]];
    cbn -[Z.div Z.mul Z.add Z.sub] in *;
    Z.to_euclidean_division_equations; lia.
Qed.

Lemma year_recovered yoe doy :
  0 <= yoe <= 399 ->
  0 <= doy <= 365 ->
  (doy = 365 -> (yoe + 1) mod 4 = 0 /\ ((yoe + 1) mod 100 <> 0 \/ yoe = 399)) ->
  (yoe * 365 + yoe / 4 - yoe / 100 + doy
   - (yoe * 365 + yoe / 4 - yoe / 100 + doy) / 1460
   + (yoe * 365 + yoe / 4 - yoe / 100 + doy) / 36524
   - (yoe * 365 + yoe / 4 - yoe / 100 + doy) / 146096) / 365 = yoe /\
  0 <= yoe * 365 + yoe / 4 - yoe / 100 + doy < 146097.
Proof.
  intros Hy Hd Hleap. Z.to_euclidean_division_equations. lia.
Qed.

Lemma days_in_month_cases y m :
  1 <= m <= 12 ->
  28 <= days_in_month y m <= 31 /\
  (m = 4 \/ m = 6 \/ m = 9 \/ m = 11 -> days_in_month y m = 30) /\
  (m = 2 -> days_in_month y m <= 29 /\
            (days_in_month y m = 29 ->
             y mod 4 = 0 /\ (y mod 100 <> 0 \/ y mod 400 = 0))).
Proof.
  intros Hm. unfold days_in_month, is_leap.
  destruct (Z.eqb_spec m 2) as [-> | N2].
  - destruct (Z.eqb_spec (y mod 4) 0), (Z.eqb_spec (y mod 100) 0),
      (Z.eqb_spec (y mod 400) 0); cbn [andb orb negb]; lia.
  - destruct (Z.eqb_spec m 4), (Z.eqb_spec m 6), (Z.eqb_spec m 9), (Z.eqb_spec m 11);
      cbn [orb]; lia.
Qed.

(** The day count of a date of the Gregorian calendar gives the date
    back. *)
Lemma civil_from_days_from_civil y m d :
  1 <= m <= 12 -> 1 <= d <= days_in_month y m ->
  civil_from_days (days_from_civil y m d) = (y, m, d).
Proof.
  intros Hm Hd.
  pose proof (days_in_month_cases y m Hm) as (Hdim & H30 & H2).
  unfold days_from_civil, civil_from_days. cbv zeta.
  set (y' := if m <=? 2 then y - 1 else y).
  set (era := y' / 400). set (yoe := y' - era * 400).
  set (mp := (m + 9) mod 12).
  set (doy := (153 * mp + 2) / 5 + d - 1).
  set (doe := yoe * 365 + yoe / 4 - yoe / 100 + doy).
  assert (Hy' : y' = if m <=? 2 then y - 1 else y) by reflexivity.
  assert (Hyoe : 0 <= yoe <= 399 /\ y' = yoe + era * 400).
  { subst yoe era. Z.to_euclidean_division_equations. lia. }
  assert (Hmp : 0 <= mp <= 11 /\ (m <= 2 -> mp = m + 9) /\ (3 <= m -> mp = m - 3)).
  { subst mp. Z.to_euclidean_division_equations. lia. }
  destruct Hmp as (Hmp & Hmp1 & Hmp2).
  destruct (month_day_recovered mp d Hmp) as (Rm & Hdoy & H365); try lia.
  fold doy in Rm, Hdoy, H365.
  assert (Hleap : doy = 365 ->
                  (yoe + 1) mod 4 = 0 /\ ((yoe + 1) mod 100 <> 0 \/ yoe = 399)).
  { intros E. destruct (H365 E) as [E1 E2].
    assert (m = 2) by lia. subst m.
    destruct H2 as [H29 H2]; [reflexivity|]. specialize (H2 ltac:(lia)).
    change (2 <=? 2) with true in Hy'. cbv iota in Hy'.
    destruct Hyoe as [Hyoe Hy'']. clearbody yoe era y' doy mp doe.
    Z.to_euclidean_division_equations. lia. }
  destruct (year_recovered yoe doy (proj1 Hyoe) Hdoy Hleap) as [Ry Hdoe].
  fold doe in Ry, Hdoe.
  replace (era * 146097 + doe - 719468 + 719468) with (doe + era * 146097) by lia.
  rewrite Z.div_add, (Z.div_small doe 146097), Z.add_0_l by lia.
  replace (doe + era * 146097 - era * 146097) with doe by lia.
  rewrite Ry.
  replace (doe - (365 * yoe + yoe / 4 - yoe / 100)) with doy by (subst doe; lia).
  rewrite Rm.
  destruct Hyoe as [_ Hy''].
  replace (doy - (153 * mp + 2) / 5 + 1) with d by (subst doy; lia).
  destruct (Z.leb_spec m 2) as [Hle | Hgt].
  - rewrite (Hmp1 Hle).
    destruct (Z.ltb_spec (m + 9) 10); [lia|].
    replace (m + 9 - 9) with m by lia.
    destruct (Z.leb_spec m 2); [|lia]. f_equal. f_equal. lia.
  - rewrite (Hmp2 ltac:(lia)).
    destruct (Z.ltb_spec (m - 3) 10); [|lia].
    replace (m - 3 + 3) with m by lia.
    destruct (Z.leb_spec m 2); [lia|]. f_equal. f_equal. lia.
Qed.

Lemma digit_inv c a : digit c = Some a -> 0 <= a <= 9 /\ digit_chr a = c.
Proof.
  destruct c as [[] [] [] [] [] [] [] []]; cbn; intros H; try discriminate H;
    injection H as <-; split; try lia; reflexivity.
Qed.

Lemma zfill_snoc n q r :
  0 <= r < 10 ->
  zfill (S n) (10 * q + r) = (zfill n q ++ String (digit_chr r) EmptyString)%string.
Proof.
  intros Hr. cbn [zfill].
  replace ((10 * q + r) / 10) with q by (Z.to_euclidean_division_equations; lia).
  replace ((10 * q + r) mod 10) with r by (Z.to_euclidean_division_equations; lia).
  reflexivity.
Qed.

Lemma zfill_2 a b ca cb :
  digit ca = Some a -> digit cb = Some b ->
  zfill 2 (10 * a + b) = String ca (String cb EmptyString).
Proof.
  intros Ha Hb.
  destruct (digit_inv _ _ Ha) as [Ra <-]. destruct (digit_inv _ _ Hb) as [Rb <-].
  rewrite zfill_snoc by lia. replace a with (10 * 0 + a) at 1 by lia.
  rewrite zfill_snoc by lia. reflexivity.
Qed.

Lemma zfill_4 a b c e ca cb cc ce :
  digit ca = Some a -> digit cb = Some b -> digit cc = Some c -> digit ce = Some e ->
  zfill 4 (1000 * a + 100 * b + 10 * c + e) =
  String ca (String cb (String cc (String ce EmptyString))).
Proof.
  intros Ha Hb Hc He.
  destruct (digit_inv _ _ Ha) as [Ra <-]. destruct (digit_inv _ _ Hb) as [Rb <-].
  destruct (digit_inv _ _ Hc) as [Rc <-]. destruct (digit_inv _ _ He) as [Re <-].
  replace (1000 * a + 100 * b + 10 * c + e)
    with (10 * (10 * (10 * (10 * 0 + a) + b) + c) + e) by lia.
  rewrite !zfill_snoc by lia. reflexivity.
Qed.

Lemma Some_inj {A : Type} (a b : A) : Some a = Some b -> a = b.
Proof. now intros [= ->]. Qed.

(** A date in the format of the tool's CSV files, read by [iso_date] and
    written by [date_isoformat], is the same text again. *)
Lemma date_isoformat_iso_date s t : iso_date s = Some t -> date_isoformat t = s.
Proof.
  unfold iso_date.
  destruct s as [|y1 s]; [discriminate|]. destruct s as [|y2 s]; [discriminate|].
  destruct s as [|y3 s]; [discriminate|]. destruct s as [|y4 s]; [discriminate|].
  destruct s as [|h1 s]; [discriminate|].
  cbn [list_ascii_of_string].
  destruct h1 as [[] [] [] [] [] [] [] []]; try discriminate.
  destruct s as [|m1 s]; [discriminate|].
  destruct s as [|m2 s]; [discriminate|]. destruct s as [|h2 s]; [discriminate|].
  cbn [list_ascii_of_string].
  destruct h2 as [[] [] [] [] [] [] [] []]; try discriminate.
  destruct s as [|d1 s]; [discriminate|]. destruct s as [|d2 s]; [discriminate|].
  destruct s as [|x s]; [|discriminate].
  cbn [list_ascii_of_string].
  destruct (digit y1) as [a|] eqn:E1; [|discriminate].
  destruct (digit y2) as [b|] eqn:E2; [|discriminate].
  destruct (digit y3) as [c|] eqn:E3; [|discriminate].
  destruct (digit y4) as [e|] eqn:E4; [|discriminate].
  destruct (digit m1) as [f|] eqn:E5; [|discriminate].
  destruct (digit m2) as [g|] eqn:E6; [|discriminate].
  destruct (digit d1) as [h|] eqn:E7; [|discriminate].
  destruct (digit d2) as [i|] eqn:E8; [|discriminate].
  cbn [obind].
  destruct (_ && _) eqn:Hvalid; [|discriminate].
  intros H. apply Some_inj in H. subst t.
  apply andb_prop in Hvalid as [Hvalid H4]. apply andb_prop in Hvalid as [Hvalid H3].
  apply andb_prop in Hvalid as [Hvalid H2]. apply andb_prop in Hvalid as [_ H1].
  apply Z.leb_le in H1, H2, H3, H4.
  unfold date_isoformat. rewrite Z.div_mul by discriminate.
  rewrite civil_from_days_from_civil by lia.
  rewrite (zfill_4 a b c e y1 y2 y3 y4), (zfill_2 f g m1 m2), (zfill_2 h i d1 d2)
    by assumption.
  reflexivity.
Qed.

(** ** The values [cmd_plot] plots *)

Lemma row_loaded_valid P raw r :
  row_loaded P raw r ->
  counters_valid raw -> rates_valid raw -> counters_valid r /\ rates_valid r.
Proof.
  intros [_ ->] Hc Hr. split; [exact Hc | exact Hr].
Qed.

Lemma metric_of_unit metric row v :
  counters_valid row -> rates_valid row -> metric_of metric row v -> unit_interval v.
Proof.
  intros (C1 & C2 & C3 & C4 & C5 & C6 & C7 & C8) (R1 & R2 & R3 & R4) (m & Hm & Hv).
  unfold compute_match_metrics in Hm. rewrite !safe_div_value_eq in Hm.
  cbn [bind] in Hm. injection Hm as <-.
  assert (U : forall n d, counter n -> counter d -> 0 <= n <= d ->
                          unit_interval (safe_div_value (Int n) (Int d))).
  { intros n d Hn Hd Hnd. destruct (Z.eq_dec d 0) as [-> | Hd0].
    - rewrite safe_div_value_zero by reflexivity. split; reflexivity.
    - apply safe_div_value_unit; try assumption; unfold counter in *; lia. }
  unfold Metrics_getitem in Hv.
  cbn [Metrics.first_serve_pct Metrics.first_serve_pts_won_pct
       Metrics.second_serve_pts_won_pct Metrics.break_points_saved_pct] in Hv.
  repeat match type of Hv with
         | (if ?b then _ else _) = _ => destruct b
         end;
    try discriminate Hv; injection Hv as <-; now apply U.
Qed.

(** X14.  Whatever [cmd_plot] plots lies between 0.0 and 1.0 when the
    counters of the CSV file are valid, each success count between zero
    and its attempts: the plotted values are fractions, not percentages. *)
Theorem cmd_plot_values_in_unit_interval :
  forall (P : Pandas) (csv : list (Row string)) (metric : string)
         (x : list Timestamp) (y : list float) (marker : string),
    sort_values_contract P ->
    Forall (fun r => counters_valid r /\ rates_valid r) csv ->
    In (PltPlot x y marker) (fst (cmd_plot P csv metric)) ->
    Forall unit_interval y /\ List.length y = List.length csv /\
    List.length x = List.length csv.
Proof.
  intros P csv metric x y marker HP Hvalid Hin.
  unfold cmd_plot in Hin.
  destruct (load_matches P csv) as [df | e] eqn:Hload;
    cbn [call ret raise and_then ensure_results perform app fst] in Hin;
    [| destruct Hin as [E | []]; discriminate E].
  destruct (allowed metric) eqn:Ha; cbn [negb raise app fst] in Hin;
    [| destruct Hin as [E | []]; discriminate E].
  destruct (plot_values_spec metric df [] Ha) as (vals & Hvals & HF).
  rewrite Hvals in Hin. cbn in Hin.
  destruct Hin as [E | [E | Hin]]; [discriminate E | |].
  2:{ repeat (destruct Hin as [E | Hin]; [discriminate E|]). contradiction. }
  injection E as <- <- <-.
  destruct (load_matches_inv P csv df Hload) as (pre & Hpre & ->).
  destruct (HP pre) as [Hperm _].
  assert (Hlen : List.length (sort_values P pre) = List.length csv).
  { rewrite <- (Permutation_length Hperm). symmetry. exact (Forall2_length Hpre). }
  assert (Hdf : Forall (fun r => counters_valid r /\ rates_valid r) (sort_values P pre)).
  { eapply Permutation_Forall; [exact Hperm|].
    clear -Hpre Hvalid. induction Hpre as [|raw r csv pre Hr _ IH]; [constructor|].
    inversion Hvalid as [| ? ? [Hc Hrt] Hv']; subst.
    constructor; [now apply (row_loaded_valid P raw r) | now apply IH]. }
  split; [|split].
  - clear -HF Hdf. induction HF as [|row v rows vs Hv _ IH]; [constructor|].
    inversion Hdf as [| ? ? [Hc Hr] Hdf']; subst.
    constructor; [now apply (metric_of_unit metric row v) | now apply IH].
  - now rewrite <- (Forall2_length HF).
  - unfold col. now rewrite length_map.
Qed.

Lemma cmd_plot_values_in_unit_interval_witness :
  In (PltPlot [1756684800000000000; 1759881600000000000] [0.8; 0.8]%float "o")
     (fst (cmd_plot pandas_stable
             [csv_row "2025-10-08" "w" "A"; csv_row "2025-09-01" " L " "B"]
             "first_serve_pct")) /\
  Forall unit_interval [0.8; 0.8]%float.
Proof.
  assert (Hin : In (PltPlot [1756684800000000000; 1759881600000000000]
                      [0.8; 0.8]%float "o")
                   (fst (cmd_plot pandas_stable
                           [csv_row "2025-10-08" "w" "A"; csv_row "2025-09-01" " L " "B"]
                           "first_serve_pct"))).
  { right. left. reflexivity. }
  split; [exact Hin|].
  apply (cmd_plot_values_in_unit_interval pandas_stable
           [csv_row "2025-10-08" "w" "A"; csv_row "2025-09-01" " L " "B"]
           "first_serve_pct"
           [1756684800000000000; 1759881600000000000] [0.8; 0.8]%float "o"
           pandas_stable_contract); [|exact Hin].
  repeat constructor; cbn; lia.
Defined.

(** ** [cmd_match] *)

Lemma getitem_key m key v :
  Metrics_getitem m key = Some v -> getitem m key = ([], Returned v).
Proof. unfold getitem. now intros ->. Qed.

(** What [cmd_match] prints about the row it found. *)
Lemma cmd_match_found P csv date_arg df d before after row :
  load_matches P csv = Ok df ->
  to_datetime P date_arg = Some d ->
  df = before ++ row :: after ->
  date row = d ->
  Forall (fun x => date x <> d) before ->
  cmd_match P csv date_arg =
    ([Stdout "=== Match ===";
      Stdout ("Date: " ++ date_isoformat d ++ "  Opponent: " ++ opponent row
              ++ "  Surface: " ++ surface row);
      Stdout ("Result: " ++ result row ++ "  Score: " ++ score row);
      Stdout ("Aces: " ++ str_int (aces row)
              ++ "  Double Faults: " ++ str_int (double_faults row));
      Stdout ("1st serve in percentage: "
              ++ format_f 3 (safe_div_value (Int (first_serve_in row))
                                            (Int (first_serve_total row))) ++ "%");
      Stdout ("1st serve pts won percentage: "
              ++ format_f 3 (safe_div_value (Int (first_serve_points_won row))
                                            (Int (first_serve_points_total row))) ++ "%");
      Stdout ("2nd serve pts won percentage: "
              ++ format_f 3 (safe_div_value (Int (second_serve_points_won row))
                                            (Int (second_serve_points_total row))) ++ "%");
      Stdout ("Break Ponints saved percentage: "
              ++ format_f 3 (safe_div_value (Int (break_points_saved row))
                                            (Int (break_points_faced row))) ++ "%")],
     Returned tt)%string.
Proof.
  intros Hload Harg -> Hr Hno. unfold cmd_match. rewrite Hload.
  cbn [call ret and_then app].
  unfold find_match_by_date. rewrite Harg, filter_first.
  - cbn [call ret and_then app]. unfold compute_match_metrics.
    rewrite !safe_div_value_eq. cbn [bind call ret and_then app].
    rewrite Hr. reflexivity.
  - eapply Forall_impl; [|exact Hno]. intros x Hx. now apply Z.eqb_neq.
  - now apply Z.eqb_eq.
Qed.

(** X15.  [cmd_match]: a date on which [pd.to_datetime] raises ends it
    with the parse error; a string pandas reads as the missing date [NaT]
    (the empty string) and a date no row of the table has end it with
    [SystemExit] and a message that names the argument; in these cases
    nothing is printed.  Otherwise it prints eight lines about the first
    row of the table with that date. *)
Theorem cmd_match_spec :
  forall (P : Pandas) (csv : list (Row string)) (date_arg : string) (df : DataFrame),
    load_matches P csv = Ok df ->
    (to_datetime P date_arg = None -> nat_string P date_arg = false ->
     cmd_match P csv date_arg = ([], Raised (Uncaught ParseError))) /\
    (to_datetime P date_arg = None -> nat_string P date_arg = true ->
     cmd_match P csv date_arg =
       ([], Raised (SystemExit ("No match found for date " ++ date_arg
                                ++ ". Try one from the CSV.")))) /\
    (forall d : Timestamp,
       to_datetime P date_arg = Some d ->
       (forall r, In r df -> date r <> d) ->
       cmd_match P csv date_arg =
         ([], Raised (SystemExit ("No match found for date " ++ date_arg
                                  ++ ". Try one from the CSV.")))) /\
    (forall (d : Timestamp) (before after : DataFrame) (row : Row Timestamp),
       to_datetime P date_arg = Some d ->
       df = before ++ row :: after ->
       date row = d ->
       (forall x, In x before -> date x <> d) ->
       cmd_match P csv date_arg =
         ([Stdout "=== Match ===";
           Stdout ("Date: " ++ date_isoformat d ++ "  Opponent: " ++ opponent row
                   ++ "  Surface: " ++ surface row);
           Stdout ("Result: " ++ result row ++ "  Score: " ++ score row);
           Stdout ("Aces: " ++ str_int (aces row)
                   ++ "  Double Faults: " ++ str_int (double_faults row));
           Stdout ("1st serve in percentage: "
                   ++ format_f 3 (safe_div_value (Int (first_serve_in row))
                                                 (Int (first_serve_total row))) ++ "%");
           Stdout ("1st serve pts won percentage: "
                   ++ format_f 3 (safe_div_value (Int (first_serve_points_won row))
                                                 (Int (first_serve_points_total row))) ++ "%");
           Stdout ("2nd serve pts won percentage: "
                   ++ format_f 3 (safe_div_value (Int (second_serve_points_won row))
                                                 (Int (second_serve_points_total row))) ++ "%");
           Stdout ("Break Ponints saved percentage: "
                   ++ format_f 3 (safe_div_value (Int (break_points_saved row))
                                                 (Int (break_points_faced row))) ++ "%")],
          Returned tt)).
Proof.
  intros P csv date_arg df Hload. repeat split.
  - intros Harg Hnat. unfold cmd_match, find_match_by_date.
    rewrite Hload, Harg, Hnat. reflexivity.
  - intros Harg Hnat. unfold cmd_match, find_match_by_date.
    rewrite Hload, Harg, Hnat. reflexivity.
  - intros d Harg Hno. unfold cmd_match, find_match_by_date. rewrite Hload.
    cbn [call ret and_then app]. rewrite Harg, filter_none; [reflexivity|].
    apply Forall_forall. intros r Hr. apply Z.eqb_neq. now apply Hno.
  - intros d before after row Harg Hdf Hr Hno.
    apply (cmd_match_found P csv date_arg df d before after row); try assumption.
    apply Forall_forall. exact Hno.
Qed.

Lemma cmd_match_spec_witness :
  cmd_match pandas_stable
    [csv_row "2025-10-08" "w" "A"; csv_row "2025-09-01" " L " "B"] "asd"
  = ([], Raised (Uncaught ParseError)) /\
  cmd_match pandas_stable
    [csv_row "2025-10-08" "w" "A"; csv_row "2025-09-01" " L " "B"] EmptyString
  = ([], Raised (SystemExit "No match found for date . Try one from the CSV.")) /\
  cmd_match pandas_stable
    [csv_row "2025-10-08" "w" "A"; csv_row "2025-09-01" " L " "B"] "2025-10-09"
  = ([], Raised (SystemExit "No match found for date 2025-10-09. Try one from the CSV.")) /\
  stdout (fst (cmd_match pandas_stable
                 [csv_row "2025-10-08" "w" "A"; csv_row "2025-09-01" " L " "B"]
                 "2025-10-08"))
  = ["=== Match ===";
     "Date: 2025-10-08  Opponent: A  Surface: hard";
     "Result: W  Score: 6-4 6-4";
     "Aces: 5  Double Faults: 1";
     "1st serve in percentage: 0.800%";
     "1st serve pts won percentage: 0.750%";
     "2nd serve pts won percentage: 0.500%";
     "Break Ponints saved percentage: 0.750%"]%string.
Proof.
  destruct (cmd_match_spec pandas_stable
              [csv_row "2025-10-08" "w" "A"; csv_row "2025-09-01" " L " "B"]
              "asd" _ eq_refl) as (H1 & _).
  destruct (cmd_match_spec pandas_stable
              [csv_row "2025-10-08" "w" "A"; csv_row "2025-09-01" " L " "B"]
              EmptyString _ eq_refl) as (_ & H0 & _).
  destruct (cmd_match_spec pandas_stable
              [csv_row "2025-10-08" "w" "A"; csv_row "2025-09-01" " L " "B"]
              "2025-10-09" _ eq_refl) as (_ & _ & H2 & _).
  destruct (cmd_match_spec pandas_stable
              [csv_row "2025-10-08" "w" "A"; csv_row "2025-09-01" " L " "B"]
              "2025-10-08" _ eq_refl) as (_ & _ & _ & H3).
  split; [apply H1; reflexivity|]. split; [apply H0; reflexivity|]. split.
  - apply (H2 1759968000000000000); [reflexivity|].
    intros r [<- | [<- | []]]; discriminate.
  - rewrite (H3 1759881600000000000 [table_row 1756684800000000000 "L" "B"] []
               (table_row 1759881600000000000 "W" "A")); try reflexivity.
    intros x [<- | []]. discriminate.
Defined.

(** X16.  After [load_matches], [cmd_match] finds every date of the CSV
    file: with a date that parses to the timestamp of one of the rows it
    never ends with "No match found", and prints the eight lines of a
    match of that day. *)
Theorem cmd_match_finds_loaded_dates :
  forall (P : Pandas) (csv : list (Row string)) (raw : Row string)
         (date_arg : string) (d : Timestamp),
    sort_values_contract P ->
    Forall (fun r => to_datetime P (date r) <> None) csv ->
    In raw csv ->
    to_datetime P (date raw) = Some d ->
    to_datetime P date_arg = Some d ->
    exists (df : DataFrame) (row : Row Timestamp),
      load_matches P csv = Ok df /\ In row df /\ date row = d /\
      snd (cmd_match P csv date_arg) = Returned tt /\
      List.length (stdout (fst (cmd_match P csv date_arg))) = 8%nat /\
      nth 1 (stdout (fst (cmd_match P csv date_arg))) EmptyString =
        ("Date: " ++ date_isoformat d ++ "  Opponent: " ++ opponent row
         ++ "  Surface: " ++ surface row)%string.
Proof.
  intros P csv raw date_arg d HP Hcsv Hin Hraw Harg.
  destruct (load_matches_ok P csv Hcsv) as (pre & Hpre & Hload).
  destruct (load_then_find_rows P csv (sort_values P pre) raw d HP Hload Hin Hraw)
    as (row & before & after & Hdf & Hrow & Hbefore).
  pose proof (cmd_match_found P csv date_arg (sort_values P pre) d before after row
                Hload Harg Hdf Hrow Hbefore) as H3.
  exists (sort_values P pre), row.
  split; [exact Hload|]. split; [rewrite Hdf; apply in_elt|]. split; [exact Hrow|].
  rewrite H3. repeat split.
Qed.

Lemma cmd_match_finds_loaded_dates_witness :
  exists (df : DataFrame) (row : Row Timestamp),
    load_matches pandas_stable
      [csv_row "2025-10-08" "w" "A"; csv_row "2025-09-01" " L " "B"] = Ok df /\
    In row df /\ date row = 1756684800000000000 /\
    snd (cmd_match pandas_stable
           [csv_row "2025-10-08" "w" "A"; csv_row "2025-09-01" " L " "B"] "2025-09-01")
    = Returned tt /\
    List.length
      (stdout (fst (cmd_match pandas_stable
                      [csv_row "2025-10-08" "w" "A"; csv_row "2025-09-01" " L " "B"]
                      "2025-09-01"))) = 8%nat /\
    nth 1 (stdout (fst (cmd_match pandas_stable
                          [csv_row "2025-10-08" "w" "A"; csv_row "2025-09-01" " L " "B"]
                          "2025-09-01"))) EmptyString =
      ("Date: " ++ date_isoformat 1756684800000000000 ++ "  Opponent: " ++ opponent row
       ++ "  Surface: " ++ surface row)%string.
Proof.
  apply (cmd_match_finds_loaded_dates pandas_stable
           [csv_row "2025-10-08" "w" "A"; csv_row "2025-09-01" " L " "B"]
           (csv_row "2025-09-01" " L " "B") "2025-09-01" 1756684800000000000
           pandas_stable_contract).
  - repeat constructor; discriminate.
  - right. left. reflexivity.
  - reflexivity.
  - reflexivity.
Defined.

(** X17.  On a CSV file whose dates are all in the format of the tool,
    [YYYY-MM-DD], which [pd.to_datetime] reads as [iso_date] does,
    [cmd_match] called with the date of a row of the file prints that
    date back, character by character, in the line that starts with
    "Date: ". *)
Theorem cmd_match_echoes_date :
  forall (P : Pandas) (csv : list (Row string)) (raw : Row string),
    sort_values_contract P ->
    (forall s t, iso_date s = Some t -> to_datetime P s = Some t) ->
    Forall (fun r => iso_date (date r) <> None) csv ->
    In raw csv ->
    exists row : Row Timestamp,
      snd (cmd_match P csv (date raw)) = Returned tt /\
      iso_date (date raw) = Some (date row) /\
      nth 1 (stdout (fst (cmd_match P csv (date raw)))) EmptyString =
        ("Date: " ++ date raw ++ "  Opponent: " ++ opponent row
         ++ "  Surface: " ++ surface row)%string.
Proof.
  intros P csv raw HP Hiso Hcsv Hin.
  assert (Hcsv' : Forall (fun r => to_datetime P (date r) <> None) csv).
  { eapply Forall_impl; [|exact Hcsv]. cbv beta. intros r Hr.
    destruct (iso_date (date r)) as [t|] eqn:Et; [|contradiction].
    now rewrite (Hiso _ _ Et). }
  destruct (iso_date (date raw)) as [d|] eqn:Hd.
  2:{ rewrite Forall_forall in Hcsv. now destruct (Hcsv raw Hin). }
  destruct (load_matches_ok P csv Hcsv') as (pre & Hpre & Hload).
  assert (Hraw : to_datetime P (date raw) = Some d) by now apply Hiso.
  destruct (load_then_find_rows P csv (sort_values P pre) raw d HP Hload Hin Hraw)
    as (row & before & after & Hdf & Hrow & Hbefore).
  pose proof (cmd_match_found P csv (date raw) (sort_values P pre) d before after row
                Hload Hraw Hdf Hrow Hbefore) as H3.
  exists row. rewrite H3, Hrow, (date_isoformat_iso_date _ _ Hd). repeat split.
Qed.

Lemma cmd_match_echoes_date_witness :
  exists row : Row Timestamp,
    snd (cmd_match pandas_stable [csv_row "2024-02-29" "w" "A"] "2024-02-29")
    = Returned tt /\
    iso_date "2024-02-29" = Some (date row) /\
    nth 1 (stdout (fst (cmd_match pandas_stable [csv_row "2024-02-29" "w" "A"]
                          "2024-02-29"))) EmptyString =
      ("Date: 2024-02-29  Opponent: " ++ opponent row
       ++ "  Surface: " ++ surface row)%string.
Proof.
  apply (cmd_match_echoes_date pandas_stable [csv_row "2024-02-29" "w" "A"]
           (csv_row "2024-02-29" "w" "A") pandas_stable_contract).
  - intros s t H. exact H.
  - repeat constructor; discriminate.
  - left. reflexivity.
Defined.

(** ** [cmd_summary] *)

(** What [cmd_summary] does on a CSV file whose dates parse. *)
Lemma cmd_summary_run repr P csv df :
  load_matches P csv = Ok df ->
  exists s : Summary.t,
    compute_summary df = Ok s /\
    cmd_summary repr P csv =
      ([Makedirs "results";
        WriteText "results/summary.json" (json_dumps repr (asdict s));
        Stdout "=== Summary ===";
        Stdout ("Matches: " ++ str_int (Summary.matches s)
                ++ "  Wins: " ++ str_int (Summary.wins s)
                ++ "  Losses: " ++ str_int (Summary.losses s)
                ++ "  Win percentage: " ++ format_f 3 (Summary.win_rate s) ++ "%");
        Stdout ("Average aces: " ++ format_f 2 (Summary.avg_aces s)
                ++ "   Average double faults: "
                ++ format_f 2 (Summary.avg_double_faults s));
        Stdout ("1st serve in percentage: "
                ++ format_f 3 (Summary.first_serve_pct s) ++ "%");
        Stdout ("1st serve points won percentage: "
                ++ format_f 3 (Summary.first_serve_pts_won_pct s) ++ "%");
        Stdout ("2nd serve points won percentage: "
                ++ format_f 3 (Summary.second_serve_pts_won_pct s) ++ "%");
        Stdout ("Break points saved percentage: "
                ++ format_f 3 (Summary.break_points_saved_pct s) ++ "%");
        Stdout (newline ++ "Wrote: results/summary.json")],
       Returned tt).
Proof.
  intros Hload. unfold cmd_summary. rewrite Hload.
  cbn [call ret and_then ensure_results perform app].
  rewrite compute_summary_eq. eexists. split; [reflexivity|]. reflexivity.
Qed.



(** ** The percentages [cmd_summary] prints are fractions *)

Lemma Prim2SF_mantissa f s m e : Prim2SF f = S754_finite s m e -> Zpos m < 2 ^ 53.
Proof.
  intros H. pose proof (Prim2SF_valid f) as Hv. rewrite H in Hv.
  cbn [SpecFloat.valid_binary] in Hv. unfold bounded, canonical_mantissa in Hv.
  apply andb_prop in Hv as [Hc _]. apply Z.eqb_eq in Hc. rewrite fexp_eq in Hc.
  pose proof (digits2_pos_bounds m) as [_ Hhi].
  assert (Hd : Zpos (digits2_pos m) <= 53) by lia.
  assert (2 ^ Zpos (digits2_pos m) <= 2 ^ 53) by (apply Z.pow_le_mono_r; lia).
  lia.
Qed.

Lemma scaled_unit m e :
  Zpos m < 2 ^ 53 -> (e < -52 \/ (e = -52 /\ Zpos m = 2 ^ 52)) ->
  0 <= scaled 3 m e <= 1000.
Proof.
  intros Hm [He | [-> Hm52]].
  - unfold scaled. destruct (Z.leb_spec 0 e) as [H0 | _]; [lia|].
    change (10 ^ Z.of_nat 3) with 1000.
    pose proof (rne_bounds (Zpos m * 1000) (- e)) as Hr.
    assert (Hp : 2 ^ 53 <= 2 ^ (- e)) by (apply Z.pow_le_mono_r; lia).
    assert (Hq : 0 <= Zpos m * 1000 / 2 ^ (- e) < 1000).
    { split; [apply Z.div_pos; lia|]. apply Z.div_lt_upper_bound; lia. }
    lia.
  - assert (m = 4503599627370496%positive) as -> by lia. vm_compute. split; discriminate.
Qed.

(** A rate of a table with valid counters is printed with [.3f] as one of
    the numerals 0.000 to 1.000. *)
Lemma format_f_rate n d :
  0 <= n <= d -> d < 2 ^ 63 ->
  exists k, 0 <= k <= 1000 /\
            format_f 3 (safe_div_value (Int n) (Int d)) = fixed_point 3 k.
Proof.
  intros Hn Hd. unfold safe_div_value, truthy, float_value.
  destruct (Z.eqb_spec d 0) as [-> | Hd0]; cbn [negb].
  { exists 0. split; [lia | reflexivity]. }
  destruct (Z.eq_dec n 0) as [-> | Hn0].
  { rewrite float_div_zero by (unfold int64; lia).
    destruct (Z.ltb_spec d 0); [lia|]. exists 0. split; [lia | reflexivity]. }
  destruct (float_div_unit_parts n d ltac:(lia) Hd) as (m & e & Hf & He).
  exists (scaled 3 m e). split.
  - apply scaled_unit; [|exact He]. exact (Prim2SF_mantissa _ _ _ _ Hf).
  - unfold format_f. now rewrite Hf.
Qed.

Lemma str_length_append (s1 s2 : string) :
  String.length (s1 ++ s2) = (String.length s1 + String.length s2)%nat.
Proof.
  induction s1 as [|c s1 IH]; cbn [append String.length]; [reflexivity | now rewrite IH].
Qed.

Lemma str_append_assoc (s1 s2 s3 : string) :
  ((s1 ++ s2) ++ s3 = s1 ++ (s2 ++ s3))%string.
Proof.
  induction s1 as [|c s1 IH]; cbn [append]; [reflexivity | now rewrite IH].
Qed.

Lemma zfill_length n z : String.length (zfill n z) = n.
Proof.
  revert z. induction n as [|n IH]; intros z; [reflexivity|].
  cbn [zfill]. rewrite str_length_append, IH. cbn. lia.
Qed.

Lemma fixed_point_unit k :
  0 <= k <= 1000 -> String.length (fixed_point 3 k) = 5%nat.
Proof.
  intros Hk. unfold fixed_point. change (10 ^ Z.of_nat 3) with 1000.
  rewrite !str_length_append, zfill_length.
  assert (C : k / 1000 = 0 \/ k / 1000 = 1) by (Z.to_euclidean_division_equations; lia).
  destruct C as [-> | ->]; reflexivity.
Qed.

Lemma count_all_wins {D : Type} (df : list (Row D)) :
  Forall (fun r => result r = "W"%string) df ->
  count_result "W" df = Z.of_nat (List.length df) /\ count_result "L" df = 0.
Proof.
  unfold count_result.
  induction 1 as [|r df Hr _ [IH1 IH2]]; [split; reflexivity|].
  cbn [filter]. rewrite Hr. cbn [String.eqb Ascii.eqb Bool.eqb].
  cbn [List.length]. split; [lia | exact IH2].
Qed.

(** ** What [summary_to_json] writes *)

Lemma json_float_finite repr f : isfinite f = true -> json_float repr f = repr f.
Proof.
  unfold isfinite, json_float. destruct (Prim2SF f); try discriminate; reflexivity.
Qed.

(** X20.  The JSON text of a summary [compute_summary] returned, on a
    table of fewer than 2^63 rows whose aces and double faults have
    exact running sums: the ten fields in the order of the dataclass,
    the three counts as decimal integers, and every float written by
    [repr], never as [NaN] or [Infinity], which JSON does not have.  A
    float that is not finite would be written so. *)
Theorem summary_to_json_text :
  forall (repr : float -> string) (D : Type) (df : list (Row D)) (s : Summary.t)
         (out_path : string),
    Z.of_nat (List.length df) < 2 ^ 63 ->
    exact_column (col aces df) ->
    exact_column (col double_faults df) ->
    compute_summary df = Ok s ->
    summary_to_json repr s out_path =
      ([WriteText out_path
          ("{" ++ newline
           ++ "  " ++ dquote ++ "matches" ++ dquote ++ ": "
           ++ str_int (Summary.matches s) ++ "," ++ newline
           ++ "  " ++ dquote ++ "wins" ++ dquote ++ ": "
           ++ str_int (Summary.wins s) ++ "," ++ newline
           ++ "  " ++ dquote ++ "losses" ++ dquote ++ ": "
           ++ str_int (Summary.losses s) ++ "," ++ newline
           ++ "  " ++ dquote ++ "win_rate" ++ dquote ++ ": "
           ++ repr (Summary.win_rate s) ++ "," ++ newline
           ++ "  " ++ dquote ++ "avg_aces" ++ dquote ++ ": "
           ++ repr (Summary.avg_aces s) ++ "," ++ newline
           ++ "  " ++ dquote ++ "avg_double_faults" ++ dquote ++ ": "
           ++ repr (Summary.avg_double_faults s) ++ "," ++ newline
           ++ "  " ++ dquote ++ "first_serve_pct" ++ dquote ++ ": "
           ++ repr (Summary.first_serve_pct s) ++ "," ++ newline
           ++ "  " ++ dquote ++ "first_serve_pts_won_pct" ++ dquote ++ ": "
           ++ repr (Summary.first_serve_pts_won_pct s) ++ "," ++ newline
           ++ "  " ++ dquote ++ "second_serve_pts_won_pct" ++ dquote ++ ": "
           ++ repr (Summary.second_serve_pts_won_pct s) ++ "," ++ newline
           ++ "  " ++ dquote ++ "break_points_saved_pct" ++ dquote ++ ": "
           ++ repr (Summary.break_points_saved_pct s) ++ newline
           ++ "}")], Returned tt) /\
    json_float repr nan = "NaN"%string /\
    json_float repr infinity = "Infinity"%string /\
    json_float repr neg_infinity = "-Infinity"%string.
Proof.
  intros repr D df s out_path Hlen Ha Hd Hs.
  split; [|repeat split].
  rewrite compute_summary_eq in Hs. injection Hs as <-.
  unfold summary_to_json, perform, json_dumps, asdict.
  cbn [map fst snd json_encode String.concat
       Summary.matches Summary.wins Summary.losses Summary.win_rate
       Summary.avg_aces Summary.avg_double_faults Summary.first_serve_pct
       Summary.first_serve_pts_won_pct Summary.second_serve_pts_won_pct
       Summary.break_points_saved_pct].
  rewrite (json_float_finite repr _ (win_rate_finite df Hlen)).
  rewrite !(json_float_finite repr _ (season_rate_finite _ _)).
  pose proof (average_finite aces df Hlen Ha) as Fa.
  pose proof (average_finite double_faults df Hlen Hd) as Fd.
  cbn [truthy] in Fa, Fd.
  rewrite (json_float_finite repr _ Fa), (json_float_finite repr _ Fd).
  do 3 f_equal.
  repeat rewrite str_append_assoc. reflexivity.
Qed.

Lemma summary_to_json_text_witness :
  fst (summary_to_json repr17 (Summary.mk 2 1 1 0.5 3 2 (70 / 110) (48 / 70) (22 / 50) (8 / 14))
         "results/summary.json")
  = [WriteText "results/summary.json"
       ("{" ++ newline
        ++ "  " ++ dquote ++ "matches" ++ dquote ++ ": 2," ++ newline
        ++ "  " ++ dquote ++ "wins" ++ dquote ++ ": 1," ++ newline
        ++ "  " ++ dquote ++ "losses" ++ dquote ++ ": 1," ++ newline
        ++ "  " ++ dquote ++ "win_rate" ++ dquote ++ ": 0.50000000000000000," ++ newline
        ++ "  " ++ dquote ++ "avg_aces" ++ dquote ++ ": 3.00000000000000000," ++ newline
        ++ "  " ++ dquote ++ "avg_double_faults" ++ dquote
        ++ ": 2.00000000000000000," ++ newline
        ++ "  " ++ dquote ++ "first_serve_pct" ++ dquote
        ++ ": 0.63636363636363635," ++ newline
        ++ "  " ++ dquote ++ "first_serve_pts_won_pct" ++ dquote
        ++ ": 0.68571428571428572," ++ newline
        ++ "  " ++ dquote ++ "second_serve_pts_won_pct" ++ dquote
        ++ ": 0.44000000000000000," ++ newline
        ++ "  " ++ dquote ++ "break_points_saved_pct" ++ dquote
        ++ ": 0.57142857142857140" ++ newline
        ++ "}")].
Proof.
  destruct (summary_to_json_text repr17 unit [test_row_1; test_row_2]
              (Summary.mk 2 1 1 0.5 3 2 (70 / 110) (48 / 70) (22 / 50) (8 / 14))
              "results/summary.json") as [H _].
  - cbn; lia.
  - split; [repeat constructor; cbn; lia | cbn; lia].
  - split; [repeat constructor; cbn; lia | cbn; lia].
  - reflexivity.
  - rewrite H. reflexivity.
Defined.

(** ** Division rounds the exact quotient to nearest, ties to even *)

Lemma rne_new_location b r q :
  0 < b -> 0 <= r < b ->
  round_nearest_even q (new_location b r) =
  if (b <? 2 * r) || ((b =? 2 * r) && Z.odd q) then q + 1 else q.
Proof.
  intros Hb Hr. rewrite <- (Z.negb_even q).
  unfold new_location, new_location_even, new_location_odd.
  destruct (Z.even b) eqn:Eb.
  - destruct (Z.eqb_spec r 0) as [-> | Hr0].
    + cbn [round_nearest_even]. Zcompare_cases; cbn [orb andb]; lia.
    + destruct (Z.compare_spec (2 * r) b); cbn [round_nearest_even];
        Zcompare_cases; cbn [orb andb negb]; try lia;
        destruct (Z.even q); reflexivity.
  - assert (Hodd : b <> 2 * r).
    { intros ->. rewrite Z.even_mul in Eb. discriminate Eb. }
    destruct (Z.eqb_spec r 0) as [-> | Hr0].
    + cbn [round_nearest_even]. Zcompare_cases; cbn [orb andb]; lia.
    + destruct (Z.compare_spec (2 * r + 1) b); cbn [round_nearest_even];
        Zcompare_cases; cbn [orb andb negb]; lia.
Qed.

Lemma new_location_cases b r :
  0 < b -> 0 <= r < b ->
  (r = 0 /\ new_location b r = loc_Exact) \/
  (r <> 0 /\ exists c, new_location b r = loc_Inexact c).
Proof.
  intros Hb Hr.
  unfold new_location, new_location_even, new_location_odd.
  destruct (Z.even b); destruct (Z.eqb_spec r 0);
    [left | right | left | right]; (split; [assumption|]); eauto.
Qed.

(** The rounding of a quotient of two normal mantissas: the quotient has
    53 digits when the dividend is the smaller, 54 otherwise. *)
Lemma round53_quotient s a b e :
  2 ^ 52 <= a < 2 ^ 53 -> 2 ^ 52 <= b < 2 ^ 53 -> e <= 969 ->
  round53 s (a * 2 ^ 53 / b) e (new_location b (a * 2 ^ 53 mod b)) =
  if a <? b then norm53 s (RNdiv (a * 2 ^ 53) b) e
  else norm53 s (RNdiv (a * 2 ^ 52) b) (e + 1).
Proof.
  intros Ha Hb He.
  pose proof (Z.div_mod (a * 2 ^ 53) b ltac:(lia)) as Hdm.
  pose proof (Z.mod_pos_bound (a * 2 ^ 53) b ltac:(lia)) as Hr.
  destruct (Z.ltb_spec a b) as [Hlt | Hge].
  - (* 53 digits: nothing is cut *)
    unfold RNdiv, norm53. cbv zeta.
    set (q := a * 2 ^ 53 / b) in *. set (r := a * 2 ^ 53 mod b) in *.
    clearbody q r.
    assert (Hq : 2 ^ 52 <= q < 2 ^ 53) by nia.
    unfold round53, cut53. rewrite (Zdigits2_unique q 53) by lia.
    change (53 - 53 <=? 0) with true. cbv iota beta.
    rewrite rne_new_location by lia.
    change (Z.max (53 - 53) 0) with 0. rewrite Z.add_0_r.
    destruct (_ || _); Zcompare_cases; try lia; reflexivity.
  - (* 54 digits: the last one is cut *)
    assert (Hq' : a * 2 ^ 52 / b = a * 2 ^ 53 / b / 2 /\
                  2 * (a * 2 ^ 52 mod b) =
                  (if Z.odd (a * 2 ^ 53 / b) then b else 0) + a * 2 ^ 53 mod b).
    { set (q := a * 2 ^ 53 / b) in *. set (r := a * 2 ^ 53 mod b) in *.
      clearbody q r.
      pose proof (Z.div_mod q 2 ltac:(lia)) as Hq2. rewrite Zmod_odd in Hq2.
      set (q' := q / 2) in *. clearbody q'.
      assert (Hu : a * 2 ^ 52 / b = q').
      { symmetry. apply Z.div_unique with (a * 2 ^ 52 - b * q'); [|lia].
        left. destruct (Z.odd q); nia. }
      split; [exact Hu|].
      rewrite Z.mod_eq, Hu by lia. destruct (Z.odd q); nia. }
    destruct Hq' as [Hq' Hr'].
    unfold RNdiv, norm53. cbv zeta. rewrite Hq'.
    replace (b <? 2 * (a * 2 ^ 52 mod b))
      with (b <? (if Z.odd (a * 2 ^ 53 / b) then b else 0) + a * 2 ^ 53 mod b)
      by (now rewrite Hr').
    replace (b =? 2 * (a * 2 ^ 52 mod b))
      with (b =? (if Z.odd (a * 2 ^ 53 / b) then b else 0) + a * 2 ^ 53 mod b)
      by (now rewrite Hr').
    clear Hq' Hr'.
    set (q := a * 2 ^ 53 / b) in *. set (r := a * 2 ^ 53 mod b) in *.
    clearbody q r.
    assert (Hq : 2 ^ 53 <= q < 2 ^ 54) by nia.
    unfold round53, cut53. rewrite (Zdigits2_unique q 54) by lia.
    change (54 - 53 <=? 0) with false. cbv iota beta.
    change (2 ^ (54 - 53)) with 2. change (2 ^ (54 - 53 - 1)) with 1.
    change (Z.max (54 - 53) 0) with 1.
    rewrite Z.div_1_r, Z.mod_1_r. cbn [Z.eqb negb]. rewrite orb_false_r.
    assert (Hq2 : 2 ^ 52 <= q / 2 < 2 ^ 53).
    { pose proof (Z.div_mod q 2 ltac:(lia)).
      pose proof (Z.mod_pos_bound q 2 ltac:(lia)). lia. }
    rewrite <- (Z.negb_even (q / 2)).
    destruct (new_location_cases b r ltac:(lia) Hr) as [[-> ->] | [Hr0 [c ->]]].
    + cbn [shr_record_of_loc shr_r shr_s orb].
      destruct (Z.odd q); cbn [loc_of_shr_record round_nearest_even];
        rewrite ?Z.add_0_r, ?Z.add_0_l, ?Z.eqb_refl, ?Z.ltb_irrefl; cbn [orb andb];
        [destruct (Z.even (q / 2)); cbn [negb]|
         destruct (Z.ltb_spec b 0); [lia|]; destruct (Z.eqb_spec b 0); [lia|];
         cbn [orb andb]];
        Zcompare_cases; try lia; reflexivity.
    + assert (Hrs : shr_r (shr_record_of_loc q (loc_Inexact c)) ||
                    shr_s (shr_record_of_loc q (loc_Inexact c)) = true)
        by (destruct c; reflexivity).
      rewrite Hrs.
      destruct (Z.odd q); cbn [loc_of_shr_record round_nearest_even];
        [destruct (Z.ltb_spec b (b + r)); [|lia] |
         destruct (Z.ltb_spec b (0 + r)); [lia|];
         destruct (Z.eqb_spec b (0 + r)); [lia|]];
        cbn [orb andb]; Zcompare_cases; try lia; reflexivity.
Qed.

(** The quotient of two normal numbers is the exact quotient of the
    mantissas, scaled to 53 digits and rounded to nearest even. *)
Lemma SFdiv_parts sa ma ea sb mb eb :
  2 ^ 52 <= Zpos ma < 2 ^ 53 -> 2 ^ 52 <= Zpos mb < 2 ^ 53 ->
  -1021 <= ea - eb <= 1022 ->
  SFdiv prec emax (S754_finite sa ma ea) (S754_finite sb mb eb) =
  if Zpos ma <? Zpos mb
  then norm53 (xorb sa sb) (RNdiv (Zpos ma * 2 ^ 53) (Zpos mb)) (ea - eb - 53)
  else norm53 (xorb sa sb) (RNdiv (Zpos ma * 2 ^ 52) (Zpos mb)) (ea - eb - 52).
Proof.
  intros Ha Hb He.
  destruct (SFdiv_round53 sa ma ea sb mb eb Ha Hb ltac:(lia)) as [-> _].
  rewrite round53_quotient by lia.
  replace (ea - eb - 53 + 1) with (ea - eb - 52) by lia. reflexivity.
Qed.

Lemma RNdiv_bounds N D :
  0 < D -> 2 ^ 52 * D <= N < 2 ^ 53 * D -> 2 ^ 52 <= RNdiv N D <= 2 ^ 53.
Proof.
  intros HD HN. unfold RNdiv. cbv zeta.
  pose proof (Z.div_mod N D ltac:(lia)) as Hdm.
  pose proof (Z.mod_pos_bound N D ltac:(lia)) as Hr.
  set (q := N / D) in *. set (r := N mod D) in *. clearbody q r.
  assert (2 ^ 52 <= q < 2 ^ 53) by nia.
  destruct (_ || _); lia.
Qed.

(** Rounding to nearest even keeps the order of fractions. *)
Lemma RNdiv_mono N1 D1 N2 D2 :
  0 < D1 -> 0 < D2 -> N1 * D2 <= N2 * D1 -> RNdiv N1 D1 <= RNdiv N2 D2.
Proof.
  intros H1 H2 Hle. unfold RNdiv. cbv zeta.
  pose proof (Z.div_mod N1 D1 ltac:(lia)) as Hdm1.
  pose proof (Z.mod_pos_bound N1 D1 ltac:(lia)) as Hr1.
  pose proof (Z.div_mod N2 D2 ltac:(lia)) as Hdm2.
  pose proof (Z.mod_pos_bound N2 D2 ltac:(lia)) as Hr2.
  set (q1 := N1 / D1) in *. set (r1 := N1 mod D1) in *.
  set (q2 := N2 / D2) in *. set (r2 := N2 mod D2) in *.
  clearbody q1 r1 q2 r2.
  assert (Hq : q1 <= q2).
  { destruct (Z.le_gt_cases q1 q2) as [L | G]; [exact L|].
    assert (q2 + 1 <= q1) by lia.
    assert ((q2 + 1) * D1 <= q1 * D1) by (apply Z.mul_le_mono_nonneg_r; lia).
    assert (N2 * D1 < (q2 + 1) * D2 * D1).
    { apply Z.mul_lt_mono_pos_r; lia. }
    assert (q1 * D1 * D2 <= N1 * D2).
    { apply Z.mul_le_mono_nonneg_r; lia. }
    assert ((q2 + 1) * D1 * D2 <= q1 * D1 * D2)
      by (apply Z.mul_le_mono_nonneg_r; lia).
    lia. }
  destruct (Z.eq_dec q1 q2) as [E | NE].
  - subst q2.
    assert (Hr : r1 * D2 <= r2 * D1) by nia.
    destruct (Z.odd q1); rewrite ?andb_true_r, ?andb_false_r, ?orb_false_r;
      Zcompare_cases; cbn [orb]; try lia; nia.
  - destruct (_ || _); destruct (_ || _); lia.
Qed.

(** ** The order of two normal numbers *)

Lemma SFleb_finite m1 e1 m2 e2 :
  e1 < e2 \/ (e1 = e2 /\ Zpos m1 <= Zpos m2) ->
  SFleb (S754_finite false m1 e1) (S754_finite false m2 e2) = true.
Proof.
  intros H. unfold SFleb, SFcompare.
  destruct H as [H | [-> H]].
  - apply Z.compare_lt_iff in H. now rewrite H.
  - rewrite Z.compare_refl.
    change (PosDef.Pos.compare_cont Eq m1 m2) with (Pos.compare m1 m2).
    destruct (Pos.compare_spec m1 m2); try reflexivity. lia.
Qed.

Lemma norm53_leb M1 E1 M2 E2 :
  2 ^ 52 <= M1 <= 2 ^ 53 -> 2 ^ 52 <= M2 <= 2 ^ 53 ->
  parts_le (M1, E1) (M2, E2) ->
  SFleb (norm53 false M1 E1) (norm53 false M2 E2) = true.
Proof.
  unfold parts_le. cbn [fst snd]. intros H1 H2 Hle. unfold norm53.
  destruct (Z.ltb_spec M1 (2 ^ 53)); destruct (Z.ltb_spec M2 (2 ^ 53));
    apply SFleb_finite; rewrite ?Z2Pos.id by lia; lia.
Qed.

Lemma norm53_eq M1 E1 M2 E2 :
  parts_le (M1, E1) (M2, E2) -> parts_le (M2, E2) (M1, E1) ->
  norm53 false M1 E1 = norm53 false M2 E2.
Proof.
  unfold parts_le. cbn [fst snd]. intros H1 H2.
  assert (E1 = E2) by lia. assert (M1 = M2) by lia. now subst.
Qed.

(** ** The quotient of two positive integers *)

Lemma fl_parts_small z :
  0 < z < 2 ^ 53 ->
  fl_parts z = (z * 2 ^ (53 - Zdigits2 z), Zdigits2 z - 53).
Proof.
  intros Hz. pose proof (Zdigits2_le z 53 Hz) as Hd.
  pose proof (fl_mant_bounds z ltac:(lia)) as Hm.
  pose proof (Zdigits2_bounds z ltac:(lia)) as [_ Hhi].
  pose proof (Zdigits2_pos z ltac:(lia)) as Hp.
  unfold fl_parts, fl_mant in *.
  destruct (Z.leb_spec (Zdigits2 z) 53); [|lia].
  assert (z * 2 ^ (53 - Zdigits2 z) < 2 ^ 53).
  { replace (2 ^ 53) with (2 ^ Zdigits2 z * 2 ^ (53 - Zdigits2 z)).
    - apply Z.mul_lt_mono_pos_r; [apply Z.pow_pos_nonneg; lia | exact Hhi].
    - rewrite <- Z.pow_add_r by lia. f_equal. lia. }
  destruct (Z.ltb_spec (z * 2 ^ (53 - Zdigits2 z)) (2 ^ 53)); [reflexivity | lia].
Qed.

Lemma div_parts_bounds n d :
  0 < n -> 0 < d -> 2 ^ 52 <= fst (div_parts n d) <= 2 ^ 53.
Proof.
  intros Hn Hd.
  pose proof (fl_parts_bounds n Hn) as [Ha _].
  pose proof (fl_parts_bounds d Hd) as [Hb _].
  unfold div_parts. cbv zeta.
  destruct (Z.ltb_spec (fst (fl_parts n)) (fst (fl_parts d))); cbn [fst];
    apply RNdiv_bounds; nia.
Qed.

(** [float(n) / float(d)] for two positive int64 integers. *)
Lemma float_div_parts n d :
  0 < n < 2 ^ 63 -> 0 < d < 2 ^ 63 ->
  Prim2SF (float_of_Z n / float_of_Z d) =
  norm53 false (fst (div_parts n d)) (snd (div_parts n d)).
Proof.
  intros Hn Hd.
  rewrite div_spec, !Prim2SF_float_of_Z. unfold SF64div.
  pose proof (Zdigits2_le d 63 ltac:(lia)) as Hdd.
  pose proof (Zdigits2_pos d ltac:(lia)) as Hdd0.
  pose proof (fl_parts_bounds d ltac:(lia)) as [Hmd Hed].
  pose proof (Zdigits2_le n 63 ltac:(lia)) as Hdn.
  pose proof (Zdigits2_pos n ltac:(lia)) as Hdn0.
  pose proof (fl_parts_bounds n ltac:(lia)) as [Hmn Hen].
  rewrite (SFint_parts d), (SFint_parts n) by lia.
  rewrite SFdiv_parts; rewrite ?Z2Pos.id by lia; try lia.
  unfold div_parts. cbv zeta. cbn [xorb].
  destruct (Z.ltb_spec (fst (fl_parts n)) (fst (fl_parts d))); reflexivity.
Qed.

(** Two fractions [n1/d1 <= n2/d2], each written as a mantissa ratio
    [N/D] in [[2^52, 2^53)] times a power of two [2^(j-k)]: the exponents
    are ordered, and at equal exponents the mantissa ratios are. *)
Lemma scaled_fractions_le n1 d1 n2 d2 N1 D1 N2 D2 j1 k1 j2 k2 :
  0 < d1 -> 0 < d2 -> 0 < D1 -> 0 < D2 ->
  0 <= j1 -> 0 <= k1 -> 0 <= j2 -> 0 <= k2 ->
  N1 * d1 * 2 ^ j1 = n1 * D1 * 2 ^ k1 ->
  N2 * d2 * 2 ^ j2 = n2 * D2 * 2 ^ k2 ->
  2 ^ 52 * D1 <= N1 -> N2 < 2 ^ 53 * D2 ->
  n1 * d2 <= n2 * d1 ->
  j1 - k1 < j2 - k2 \/ (j1 - k1 = j2 - k2 /\ N1 * D2 <= N2 * D1).
Proof.
  intros Hd1 Hd2 HD1 HD2 Hj1 Hk1 Hj2 Hk2 E1 E2 Hlo Hhi Hle.
  assert (Hp : forall x, 0 <= x -> 0 < 2 ^ x) by (intros; apply Z.pow_pos_nonneg; lia).
  assert (Hstar : N1 * D2 * 2 ^ (j1 + k2) <= N2 * D1 * 2 ^ (j2 + k1)).
  { rewrite !Z.pow_add_r by lia.
    pose proof (Hp j1 Hj1). pose proof (Hp k1 Hk1).
    pose proof (Hp j2 Hj2). pose proof (Hp k2 Hk2).
    set (pj1 := 2 ^ j1) in *. set (pk1 := 2 ^ k1) in *.
    set (pj2 := 2 ^ j2) in *. set (pk2 := 2 ^ k2) in *.
    clearbody pj1 pk1 pj2 pk2.
    apply (Z.mul_le_mono_pos_r _ _ (d1 * d2)); [nia|].
    replace (N1 * D2 * (pj1 * pk2) * (d1 * d2))
      with (N1 * d1 * pj1 * (D2 * d2 * pk2)) by ring.
    replace (N2 * D1 * (pj2 * pk1) * (d1 * d2))
      with (N2 * d2 * pj2 * (D1 * d1 * pk1)) by ring.
    rewrite E1, E2.
    replace (n1 * D1 * pk1 * (D2 * d2 * pk2))
      with (n1 * d2 * (D1 * D2 * pk1 * pk2)) by ring.
    replace (n2 * D2 * pk2 * (D1 * d1 * pk1))
      with (n2 * d1 * (D1 * D2 * pk1 * pk2)) by ring.
    apply Z.mul_le_mono_nonneg_r; [|exact Hle].
    assert (0 < D1 * D2) by nia. assert (0 < pk1 * pk2) by nia. nia. }
  destruct (Z.lt_trichotomy (j1 + k2) (j2 + k1)) as [L | [E | G]].
  - left. lia.
  - right. split; [lia|]. rewrite E in Hstar.
    apply (Z.mul_le_mono_pos_r _ _ (2 ^ (j2 + k1))); [apply Hp; lia | exact Hstar].
  - exfalso.
    assert (Hpow : 2 * 2 ^ (j2 + k1) <= 2 ^ (j1 + k2)).
    { rewrite <- Z.pow_succ_r by lia. apply Z.pow_le_mono_r; lia. }
    pose proof (Hp (j2 + k1) ltac:(lia)) as HQ.
    set (P := 2 ^ (j1 + k2)) in *. set (Q := 2 ^ (j2 + k1)) in *.
    clearbody P Q.
    assert (H1 : 2 ^ 52 * D1 * D2 * P <= N1 * D2 * P).
    { apply Z.mul_le_mono_nonneg_r; [lia|].
      apply Z.mul_le_mono_nonneg_r; [lia | exact Hlo]. }
    assert (H2 : N2 * D1 * Q < 2 ^ 53 * D2 * D1 * Q).
    { apply Z.mul_lt_mono_pos_r; [lia|].
      apply Z.mul_lt_mono_pos_r; [lia | exact Hhi]. }
    assert (H3 : 2 ^ 52 * D1 * D2 * (2 * Q) <= 2 ^ 52 * D1 * D2 * P).
    { apply Z.mul_le_mono_nonneg_l; [|exact Hpow].
      assert (0 < D1 * D2) by nia. nia. }
    replace (2 ^ 52 * D1 * D2 * (2 * Q)) with (2 ^ 53 * D2 * D1 * Q) in H3
      by (change (2 ^ 53) with (2 * 2 ^ 52); ring).
    lia.
Qed.

(** The parts of [float(n) / float(d)] for integers below 2^53, which
    [float] does not round. *)
Lemma div_parts_exact n d :
  0 < n < 2 ^ 53 -> 0 < d < 2 ^ 53 ->
  exists N D j k,
    div_parts n d = (RNdiv N D, j - k) /\
    0 < D /\ 0 <= j /\ 0 <= k /\
    N * d * 2 ^ j = n * D * 2 ^ k /\
    2 ^ 52 * D <= N < 2 ^ 53 * D.
Proof.
  intros Hn Hd.
  pose proof (fl_parts_bounds n ltac:(lia)) as [Ha _].
  pose proof (fl_parts_bounds d ltac:(lia)) as [Hb _].
  unfold div_parts. cbv zeta.
  rewrite (fl_parts_small n Hn), (fl_parts_small d Hd) in *. cbn [fst snd] in *.
  pose proof (Zdigits2_le n 53 Hn) as Hdn. pose proof (Zdigits2_pos n ltac:(lia)) as Hdn0.
  pose proof (Zdigits2_le d 53 Hd) as Hdd. pose proof (Zdigits2_pos d ltac:(lia)) as Hdd0.
  set (u := 53 - Zdigits2 n) in *. set (w := 53 - Zdigits2 d) in *.
  assert (Hu : 0 <= u) by lia. assert (Hw : 0 <= w) by lia.
  destruct (Z.ltb_spec (n * 2 ^ u) (d * 2 ^ w)) as [Hlt | Hge].
  - exists (n * 2 ^ u * 2 ^ 53), (d * 2 ^ w), w, (u + 53).
    split; [f_equal; lia|].
    split; [lia|]. split; [lia|]. split; [lia|].
    split; [rewrite Z.pow_add_r by lia; ring | lia].
  - exists (n * 2 ^ u * 2 ^ 52), (d * 2 ^ w), w, (u + 52).
    split; [f_equal; lia|].
    split; [lia|]. split; [lia|]. split; [lia|].
    split; [rewrite Z.pow_add_r by lia; ring | lia].
Qed.

(** The order of two fractions of integers below 2^53 is the order of
    the parts of their binary64 quotients. *)
Lemma div_parts_le n1 d1 n2 d2 :
  0 < n1 < 2 ^ 53 -> 0 < d1 < 2 ^ 53 -> 0 < n2 < 2 ^ 53 -> 0 < d2 < 2 ^ 53 ->
  n1 * d2 <= n2 * d1 ->
  parts_le (div_parts n1 d1) (div_parts n2 d2).
Proof.
  intros Hn1 Hd1 Hn2 Hd2 Hle.
  destruct (div_parts_exact n1 d1 Hn1 Hd1)
    as (N1 & D1 & j1 & k1 & -> & HD1 & Hj1 & Hk1 & E1 & Hlo1 & Hhi1).
  destruct (div_parts_exact n2 d2 Hn2 Hd2)
    as (N2 & D2 & j2 & k2 & -> & HD2 & Hj2 & Hk2 & E2 & Hlo2 & Hhi2).
  unfold parts_le. cbn [fst snd].
  destruct (scaled_fractions_le n1 d1 n2 d2 N1 D1 N2 D2 j1 k1 j2 k2)
    as [L | [E R]]; try assumption; try lia.
  right. split; [exact E|]. now apply RNdiv_mono.
Qed.

(** ** [_safe_div] keeps the order of fractions *)

Lemma float_div_le n1 d1 n2 d2 :
  0 <= n1 < 2 ^ 53 -> 0 < d1 < 2 ^ 53 -> 0 <= n2 < 2 ^ 53 -> 0 < d2 < 2 ^ 53 ->
  n1 * d2 <= n2 * d1 ->
  (float_of_Z n1 / float_of_Z d1 <=? float_of_Z n2 / float_of_Z d2)%float = true.
Proof.
  intros Hn1 Hd1 Hn2 Hd2 Hle. rewrite leb_spec.
  destruct (Z.eq_dec n1 0) as [-> | N1].
  - rewrite float_div_zero by (unfold int64; lia).
    destruct (Z.ltb_spec d1 0); [lia|].
    change (Prim2SF 0) with (S754_zero false).
    destruct (Z.eq_dec n2 0) as [-> | N2].
    + rewrite float_div_zero by (unfold int64; lia).
      destruct (Z.ltb_spec d2 0); [lia|]. reflexivity.
    + rewrite float_div_parts by lia. unfold norm53.
      destruct (_ <? _); reflexivity.
  - assert (0 < n2) by nia.
    rewrite !float_div_parts by lia.
    pose proof (div_parts_bounds n1 d1 ltac:(lia) ltac:(lia)).
    pose proof (div_parts_bounds n2 d2 ltac:(lia) ltac:(lia)).
    pose proof (div_parts_le n1 d1 n2 d2 ltac:(lia) Hd1 ltac:(lia) Hd2 Hle) as P.
    destruct (div_parts n1 d1) as [M1 X1], (div_parts n2 d2) as [M2 X2].
    now apply norm53_leb.
Qed.

Lemma float_div_same_fraction n1 d1 n2 d2 :
  0 <= n1 < 2 ^ 53 -> 0 < d1 < 2 ^ 53 -> 0 <= n2 < 2 ^ 53 -> 0 < d2 < 2 ^ 53 ->
  n1 * d2 = n2 * d1 ->
  (float_of_Z n1 / float_of_Z d1)%float = (float_of_Z n2 / float_of_Z d2)%float.
Proof.
  intros Hn1 Hd1 Hn2 Hd2 Heq.
  destruct (Z.eq_dec n1 0) as [-> | N1].
  - assert (n2 = 0) by nia. subst n2.
    rewrite !float_div_zero by (unfold int64; lia).
    destruct (Z.ltb_spec d1 0); [lia|]. destruct (Z.ltb_spec d2 0); [lia|]. reflexivity.
  - assert (0 < n2) by nia.
    apply Prim2SF_inj. rewrite !float_div_parts by lia.
    pose proof (div_parts_le n1 d1 n2 d2 ltac:(lia) Hd1 ltac:(lia) Hd2 ltac:(lia)) as P.
    pose proof (div_parts_le n2 d2 n1 d1 ltac:(lia) Hd2 ltac:(lia) Hd1 ltac:(lia)) as Q.
    destruct (div_parts n1 d1) as [M1 X1], (div_parts n2 d2) as [M2 X2].
    now apply norm53_eq.
Qed.

Lemma safe_div_value_div n d :
  d <> 0 -> safe_div_value (Int n) (Int d) = (float_of_Z n / float_of_Z d)%float.
Proof.
  intros Hd. unfold safe_div_value, truthy, float_value.
  destruct (Z.eqb_spec d 0); [contradiction | reflexivity].
Qed.

(** X21.  On integers below 2^53 with positive denominators [_safe_div]
    keeps the order of the exact fractions: the larger fraction never
    gets the smaller float, and equal fractions get the same float. *)
Theorem safe_div_keeps_order :
  forall (n1 d1 n2 d2 : Z) (r1 r2 : float),
    0 <= n1 < 2 ^ 53 -> 0 < d1 < 2 ^ 53 ->
    0 <= n2 < 2 ^ 53 -> 0 < d2 < 2 ^ 53 ->
    _safe_div (Int n1) (Int d1) = Ok r1 ->
    _safe_div (Int n2) (Int d2) = Ok r2 ->
    (n1 * d2 <= n2 * d1 -> (r1 <=? r2)%float = true) /\
    (n1 * d2 = n2 * d1 -> r1 = r2).
Proof.
  intros n1 d1 n2 d2 r1 r2 Hn1 Hd1 Hn2 Hd2 H1 H2.
  rewrite safe_div_value_eq in H1, H2.
  injection H1 as <-. injection H2 as <-.
  rewrite !safe_div_value_div by lia.
  split; intros H; [now apply float_div_le | now apply float_div_same_fraction].
Qed.

Lemma safe_div_keeps_order_witness :
  exists r1 r2 : float,
    _safe_div (Int 30) (Int 60) = Ok r1 /\
    _safe_div (Int 20) (Int 40) = Ok r2 /\
    (r1 <=? r2)%float = true /\ r1 = r2.
Proof.
  exists (safe_div_value (Int 30) (Int 60)), (safe_div_value (Int 20) (Int 40)).
  pose proof (safe_div_value_eq 30 60) as H1.
  pose proof (safe_div_value_eq 20 40) as H2.
  split; [exact H1|]. split; [exact H2|].
  destruct (safe_div_keeps_order 30 60 20 40 _ _
              ltac:(lia) ltac:(lia) ltac:(lia) ltac:(lia) H1 H2) as [Hle Heq].
  split; [apply Hle; lia | apply Heq; lia].
Defined.

(** ** The season rate lies between the match rates *)

Lemma compute_match_metrics_eq {D : Type} (row : Row D) :
  compute_match_metrics row =
  Ok (Metrics.mk
        (safe_div_value (Int (first_serve_in row)) (Int (first_serve_total row)))
        (safe_div_value (Int (first_serve_points_won row))
                        (Int (first_serve_points_total row)))
        (safe_div_value (Int (second_serve_points_won row))
                        (Int (second_serve_points_total row)))
        (safe_div_value (Int (break_points_saved row)) (Int (break_points_faced row)))).
Proof. unfold compute_match_metrics. now rewrite !safe_div_value_eq. Qed.

Lemma Zsum_In_le {A : Type} (g : A -> Z) (l : list A) (r : A) :
  Forall (fun r => 0 <= g r) l -> In r l -> g r <= Zsum (map g l).
Proof.
  intros Hl. induction Hl as [|x l Hx Hl IH]; intros Hin; [contradiction|].
  pose proof (Zsum_nonneg (map g l)) as Hnn.
  rewrite Forall_map in Hnn. specialize (Hnn Hl).
  unfold Zsum in *. cbn [map fold_right].
  destruct Hin as [-> | Hin]; [lia | specialize (IH Hin); lia].
Qed.

(** If every fraction [f r / g r] is above [S / A], so is the fraction of
    the sums. *)
Lemma fractions_all_above {A : Type} (f g : A -> Z) (S T : Z) (l : list A) :
  Forall (fun r => S * g r < f r * T) l -> l <> [] ->
  S * Zsum (map g l) < Zsum (map f l) * T.
Proof.
  intros Hl. induction Hl as [|x l Hx Hl IH]; intros Hne; [contradiction|].
  unfold Zsum in *. cbn [map fold_right].
  destruct l as [|y l]; [cbn [map fold_right]; lia|].
  specialize (IH ltac:(discriminate)). lia.
Qed.

(** If every fraction [f r / g r] with a positive denominator is below
    [S / T], so is the fraction of the sums. *)
Lemma fractions_all_below {A : Type} (f g : A -> Z) (S T : Z) (l : list A) :
  Forall (fun r => 0 <= f r <= g r /\ (g r = 0 \/ f r * T < S * g r)) l ->
  0 <= Zsum (map g l) /\
  Zsum (map f l) * T <= S * Zsum (map g l) /\
  (0 < Zsum (map g l) -> Zsum (map f l) * T < S * Zsum (map g l)).
Proof.
  intros Hl. unfold Zsum.
  induction Hl as [|x l [Hx Hc] Hl IH]; cbn [map fold_right]; [lia|].
  destruct IH as (I0 & I1 & I2).
  destruct Hc as [Hz | Hlt].
  - assert (f x = 0) by lia. split; [lia|]. split; [lia|]. intros Hp. lia.
  - split; [lia|]. split; [lia|]. intros Hp.
    destruct (Z.eq_dec (fold_right Z.add 0 (map g l)) 0); [lia|].
    specialize (I2 ltac:(lia)). lia.
Qed.

(** Some match has a fraction not above the fraction of the totals. *)
Lemma mediant_lo {A : Type} (f g : A -> Z) (l : list A) :
  l <> [] ->
  exists r, In r l /\ f r * Zsum (map g l) <= Zsum (map f l) * g r.
Proof.
  intros Hne.
  set (F := Zsum (map f l)). set (G := Zsum (map g l)).
  destruct (Exists_dec (fun r => f r * G <= F * g r) l) as [E | N].
  { intros r. apply Z_le_dec. }
  - apply Exists_exists in E. exact E.
  - exfalso. apply Forall_Exists_neg in N.
    assert (Hall : Forall (fun r => F * g r < f r * G) l).
    { eapply Forall_impl; [|exact N]. cbv beta. intros r Hr. lia. }
    pose proof (fractions_all_above f g F G l Hall Hne). subst F G. lia.
Qed.

(** Some match with a positive denominator has a fraction not below the
    fraction of the totals. *)
Lemma mediant_hi {A : Type} (f g : A -> Z) (l : list A) :
  Forall (fun r => 0 <= f r <= g r) l -> 0 < Zsum (map g l) ->
  exists r, In r l /\ 0 < g r /\ Zsum (map f l) * g r <= f r * Zsum (map g l).
Proof.
  intros Hv Hpos.
  set (F := Zsum (map f l)) in *. set (G := Zsum (map g l)) in *.
  destruct (Exists_dec (fun r => 0 < g r /\ F * g r <= f r * G) l) as [E | N].
  { intros r. destruct (Z_lt_dec 0 (g r)); [|right; tauto].
    destruct (Z_le_dec (F * g r) (f r * G)); [left | right]; tauto. }
  - apply Exists_exists in E. exact E.
  - exfalso. apply Forall_Exists_neg in N.
    assert (Hall : Forall (fun r => 0 <= f r <= g r /\
                                    (g r = 0 \/ f r * G < F * g r)) l).
    { rewrite Forall_forall in *. intros r Hr.
      specialize (Hv r Hr). specialize (N r Hr). cbv beta in N. lia. }
    destruct (fractions_all_below f g F G l Hall) as (_ & _ & Hlt).
    fold G in Hlt. specialize (Hlt Hpos). fold F in Hlt. lia.
Qed.

(** The rate of the totals lies between the rates of two matches. *)
Lemma season_rate_between {A : Type} (f g : A -> Z) (l : list A) :
  l <> [] -> Forall (fun r => 0 <= f r <= g r) l -> Zsum (map g l) < 2 ^ 53 ->
  exists lo hi,
    In lo l /\ In hi l /\
    (safe_div_value (Int (f lo)) (Int (g lo)) <=?
     safe_div_value (Int (wrap64 (Zsum (map f l)))) (Int (wrap64 (Zsum (map g l)))))%float
    = true /\
    (safe_div_value (Int (wrap64 (Zsum (map f l)))) (Int (wrap64 (Zsum (map g l)))) <=?
     safe_div_value (Int (f hi)) (Int (g hi)))%float = true.
Proof.
  intros Hne Hv Hsum.
  pose proof (Zsum_le f g l Hv) as HFG.
  assert (Hg : Forall (fun r => 0 <= g r) l).
  { eapply Forall_impl; [|exact Hv]. cbv beta. intros r Hr. lia. }
  pose proof (unit_interval_quotient (Zsum (map f l)) (Zsum (map g l)) HFG ltac:(lia))
    as [U0 _].
  rewrite !wrap64_small in * by (unfold int64; lia).
  set (F := Zsum (map f l)) in *. set (G := Zsum (map g l)) in *.
  destruct (Z.eq_dec G 0) as [G0 | G0].
  - (* no attempts in the whole season *)
    destruct l as [|r l]; [contradiction|].
    exists r, r. split; [now left|]. split; [now left|].
    assert (g r = 0).
    { pose proof (Zsum_In_le g (r :: l) r Hg ltac:(now left)). fold G in H.
      inversion Hg; subst. lia. }
    rewrite (safe_div_value_zero _ (g r)), (safe_div_value_zero _ G) by assumption.
    split; reflexivity.
  - destruct (mediant_lo f g l Hne) as (lo & Ilo & Hlo). fold F G in Hlo.
    destruct (mediant_hi f g l Hv ltac:(fold G; lia)) as (hi & Ihi & Hpos & Hhi).
    fold F G in Hhi.
    exists lo, hi. split; [exact Ilo|]. split; [exact Ihi|].
    pose proof (Zsum_In_le g l lo Hg Ilo) as Blo. fold G in Blo.
    pose proof (Zsum_In_le g l hi Hg Ihi) as Bhi. fold G in Bhi.
    rewrite Forall_forall in Hv.
    pose proof (Hv lo Ilo) as Vlo. pose proof (Hv hi Ihi) as Vhi.
    split.
    + destruct (Z.eq_dec (g lo) 0) as [Z0 | NZ].
      * rewrite (safe_div_value_zero _ (g lo)) by assumption. exact U0.
      * rewrite !safe_div_value_div by lia. apply float_div_le; lia.
    + rewrite !safe_div_value_div by lia. apply float_div_le; lia.
Qed.

(** X22.  On a table with valid counters and totals below 2^53, each of
    the four season rates of the summary lies between the lowest and the
    highest rate of that kind among the matches. *)
Theorem season_rates_between_match_rates :
  forall (D : Type) (df : list (Row D)) (s : Summary.t),
    df <> [] ->
    Forall rates_valid df ->
    Zsum (col first_serve_total df) < 2 ^ 53 ->
    Zsum (col first_serve_points_total df) < 2 ^ 53 ->
    Zsum (col second_serve_points_total df) < 2 ^ 53 ->
    Zsum (col break_points_faced df) < 2 ^ 53 ->
    compute_summary df = Ok s ->
    between_match_rates Metrics.first_serve_pct df (Summary.first_serve_pct s) /\
    between_match_rates Metrics.first_serve_pts_won_pct df
      (Summary.first_serve_pts_won_pct s) /\
    between_match_rates Metrics.second_serve_pts_won_pct df
      (Summary.second_serve_pts_won_pct s) /\
    between_match_rates Metrics.break_points_saved_pct df
      (Summary.break_points_saved_pct s).
Proof.
  intros D df s Hne Hv H1 H2 H3 H4 Hs.
  rewrite compute_summary_eq in Hs. injection Hs as <-.
  cbn [Summary.first_serve_pct Summary.first_serve_pts_won_pct
       Summary.second_serve_pts_won_pct Summary.break_points_saved_pct].
  unfold col in *. unfold between_match_rates.
  repeat split.
  - destruct (season_rate_between first_serve_in first_serve_total df Hne)
      as (lo & hi & Ilo & Ihi & Hlo & Hhi); [|assumption|].
    { eapply Forall_impl; [|exact Hv]. intros r (R1 & R2 & R3 & R4). exact R1. }
    exists lo, hi. do 2 eexists.
    rewrite !compute_match_metrics_eq. repeat split; assumption.
  - destruct (season_rate_between first_serve_points_won first_serve_points_total
                df Hne) as (lo & hi & Ilo & Ihi & Hlo & Hhi); [|assumption|].
    { eapply Forall_impl; [|exact Hv]. intros r (R1 & R2 & R3 & R4). exact R2. }
    exists lo, hi. do 2 eexists.
    rewrite !compute_match_metrics_eq. repeat split; assumption.
  - destruct (season_rate_between second_serve_points_won second_serve_points_total
                df Hne) as (lo & hi & Ilo & Ihi & Hlo & Hhi); [|assumption|].
    { eapply Forall_impl; [|exact Hv]. intros r (R1 & R2 & R3 & R4). exact R3. }
    exists lo, hi. do 2 eexists.
    rewrite !compute_match_metrics_eq. repeat split; assumption.
  - destruct (season_rate_between break_points_saved break_points_faced df Hne)
      as (lo & hi & Ilo & Ihi & Hlo & Hhi); [|assumption|].
    { eapply Forall_impl; [|exact Hv]. intros r (R1 & R2 & R3 & R4). exact R4. }
    exists lo, hi. do 2 eexists.
    rewrite !compute_match_metrics_eq. repeat split; assumption.
Qed.

Lemma season_rates_between_match_rates_witness :
  exists s : Summary.t,
    compute_summary [test_row_1; test_row_2] = Ok s /\
    between_match_rates Metrics.first_serve_pct [test_row_1; test_row_2]
      (Summary.first_serve_pct s) /\
    between_match_rates Metrics.break_points_saved_pct [test_row_1; test_row_2]
      (Summary.break_points_saved_pct s).
Proof.
  pose proof (compute_summary_eq [test_row_1; test_row_2]) as Hs.
  eexists. split; [exact Hs|].
  destruct (season_rates_between_match_rates unit [test_row_1; test_row_2] _
              ltac:(discriminate)
              ltac:(repeat constructor; cbn; lia)
              ltac:(cbn; lia) ltac:(cbn; lia) ltac:(cbn; lia) ltac:(cbn; lia) Hs)
    as (B1 & _ & _ & B4).
  split; [exact B1 | exact B4].
Defined.

(** ** The averages lie between the smallest and the largest cell *)

Lemma Zsum_between (xs : list Z) (lo hi : Z) :
  Forall (fun x => lo <= x <= hi) xs ->
  lo * Z.of_nat (List.length xs) <= Zsum xs <= hi * Z.of_nat (List.length xs).
Proof.
  unfold Zsum. induction 1 as [|x xs Hx _ IH]; cbn [fold_right List.length]; lia.
Qed.

Lemma Series_mean_between (xs : list Z) (lo hi : Z) :
  xs <> [] -> 0 <= lo -> hi < 2 ^ 53 ->
  Forall (fun x => lo <= x <= hi) xs ->
  Zsum xs < 2 ^ 53 -> Z.of_nat (List.length xs) < 2 ^ 53 ->
  (float_of_Z lo <=? Series_mean xs)%float = true /\
  (Series_mean xs <=? float_of_Z hi)%float = true.
Proof.
  intros Hne Hlo Hhi Hb Hsum Hlen.
  assert (Hnn : Forall (fun x => 0 <= x) xs).
  { eapply Forall_impl; [|exact Hb]. cbv beta. intros x Hx. lia. }
  rewrite Series_mean_exact by (try split; assumption).
  pose proof (Zsum_between xs lo hi Hb) as [B1 B2].
  pose proof (Zsum_nonneg xs Hnn) as Hs0.
  assert (Hl : 0 < Z.of_nat (List.length xs)).
  { destruct xs; [contradiction | cbn [List.length]; lia]. }
  assert (Hlh : lo <= hi).
  { destruct Hb as [|x xs Hx _]; [contradiction | lia]. }
  rewrite <- (float_div_one lo), <- (float_div_one hi) by (unfold int64; lia).
  split; apply float_div_le; lia.
Qed.

(** X23.  The two averages of the summary of a non-empty table lie
    between the smallest and the largest cell of their column: if every
    match has between [lo] and [hi] aces (double faults), so has the
    average, as floats. *)
Theorem averages_between_extremes :
  forall (D : Type) (df : list (Row D)) (s : Summary.t) (lo hi : Z),
    df <> [] -> Z.of_nat (List.length df) < 2 ^ 53 ->
    0 <= lo -> hi < 2 ^ 53 ->
    compute_summary df = Ok s ->
    (Forall (fun r => lo <= aces r <= hi) df ->
     Zsum (col aces df) < 2 ^ 53 ->
     (float_of_Z lo <=? Summary.avg_aces s)%float = true /\
     (Summary.avg_aces s <=? float_of_Z hi)%float = true) /\
    (Forall (fun r => lo <= double_faults r <= hi) df ->
     Zsum (col double_faults df) < 2 ^ 53 ->
     (float_of_Z lo <=? Summary.avg_double_faults s)%float = true /\
     (Summary.avg_double_faults s <=? float_of_Z hi)%float = true).
Proof.
  intros D df s lo hi Hne Hlen Hlo Hhi Hs.
  rewrite compute_summary_eq in Hs. injection Hs as <-.
  cbn [Summary.avg_aces Summary.avg_double_faults].
  destruct (Z.eqb_spec (Z.of_nat (List.length df)) 0) as [E | _].
  { destruct df; [contradiction | cbn [List.length] in E; lia]. }
  cbn [negb]. unfold col.
  split; intros Hb Hsum;
    (apply Series_mean_between;
     [ destruct df; [contradiction | discriminate]
     | assumption | assumption
     | now rewrite Forall_map
     | assumption
     | now rewrite length_map ]).
Qed.

Lemma averages_between_extremes_witness :
  exists s : Summary.t,
    compute_summary [test_row_1; test_row_2] = Ok s /\
    (float_of_Z 1 <=? Summary.avg_aces s)%float = true /\
    (Summary.avg_aces s <=? float_of_Z 5)%float = true /\
    (float_of_Z 1 <=? Summary.avg_double_faults s)%float = true /\
    (Summary.avg_double_faults s <=? float_of_Z 5)%float = true.
Proof.
  pose proof (compute_summary_eq [test_row_1; test_row_2]) as Hs.
  eexists. split; [exact Hs|].
  destruct (averages_between_extremes unit [test_row_1; test_row_2] _ 1 5
              ltac:(discriminate) ltac:(cbn; lia) ltac:(lia) ltac:(lia) Hs)
    as [Ha Hd].
  destruct Ha as [A1 A2]; [repeat constructor; cbn; lia | cbn; lia |].
  destruct Hd as [D1 D2]; [repeat constructor; cbn; lia | cbn; lia |].
  repeat split; assumption.
Defined.

(** ** The numerals [cmd_summary] prints are the fractions to three decimals *)

Lemma RNdiv_half N D : 0 < D -> 2 * Z.abs (RNdiv N D * D - N) <= D.
Proof.
  intros HD. unfold RNdiv. cbv zeta.
  pose proof (Z.div_mod N D ltac:(lia)) as Hdm.
  pose proof (Z.mod_pos_bound N D HD) as Hr.
  set (q := N / D) in *. set (r := N mod D) in *. clearbody q r.
  destruct (Z.ltb_spec D (2 * r)) as [L | L]; cbn [orb].
  - nia.
  - destruct (Z.eqb_spec D (2 * r)) as [E | E]; cbn [andb]; [destruct (Z.odd q)|]; nia.
Qed.

(** The quotient of two integers below 2^53, [0 < n <= d], printed with
    three decimals. *)
Lemma rate_thousandths n d :
  0 < n <= d -> d < 2 ^ 53 ->
  exists m e,
    Prim2SF (float_of_Z n / float_of_Z d) = S754_finite false m e /\
    0 <= scaled 3 m e <= 1000 /\
    Z.abs (scaled 3 m e * d - 1000 * n) < d.
Proof.
  intros Hn Hd.
  assert (H63 : 2 ^ 53 < 2 ^ 63) by reflexivity.
  rewrite float_div_parts by lia.
  destruct (div_parts_exact n d ltac:(lia) ltac:(lia))
    as (N & D & j & k & Hparts & HD & Hj & Hk & Hrel & HN).
  pose proof (RNdiv_bounds N D HD HN) as HM.
  pose proof (RNdiv_half N D HD) as Hhalf.
  rewrite Hparts. cbn [fst snd]. set (M := RNdiv N D) in *. clearbody M.
  assert (Hpj : 0 < 2 ^ j) by (apply Z.pow_pos_nonneg; lia).
  assert (Hpk : 0 < 2 ^ k) by (apply Z.pow_pos_nonneg; lia).
  (* the exponent is at most -52 *)
  assert (HT : 52 + j <= k).
  { apply (Z.pow_le_mono_r_iff 2); [lia | lia |].
    rewrite Z.pow_add_r by lia.
    assert (HDd : 0 < D * d) by (apply Z.mul_pos_pos; lia).
    pose proof (Z.mul_le_mono_nonneg_r _ _ (d * 2 ^ j) ltac:(nia) (proj1 HN)) as HA.
    pose proof (Z.mul_le_mono_nonneg_r n d (D * 2 ^ k) ltac:(nia) (proj2 Hn)) as HB.
    assert (H : 2 ^ 52 * 2 ^ j * (D * d) <= 2 ^ k * (D * d)).
    { replace (2 ^ 52 * 2 ^ j * (D * d)) with (2 ^ 52 * D * (d * 2 ^ j)) by ring.
      replace (2 ^ k * (D * d)) with (d * (D * 2 ^ k)) by ring.
      replace (N * (d * 2 ^ j)) with (N * d * 2 ^ j) in HA by ring.
      replace (n * (D * 2 ^ k)) with (n * D * 2 ^ k) in HB by ring.
      lia. }
    apply Z.mul_le_mono_pos_r in H; [exact H | exact HDd]. }
  set (T := k - j).
  assert (HTk : k = j + T) by (subst T; lia).
  assert (Hrel' : N * d = n * D * 2 ^ T).
  { rewrite HTk, Z.pow_add_r in Hrel by lia.
    apply (Z.mul_reg_r _ _ (2 ^ j)); [lia|]. lia. }
  assert (HpT : 2 ^ 52 <= 2 ^ T) by (apply Z.pow_le_mono_r; lia).
  assert (Hk' : scaled 3 (Z.to_pos (if M <? 2 ^ 53 then M else 2 ^ 52))
                  (if M <? 2 ^ 53 then j - k else j - k + 1) = rne (M * 1000) T).
  { unfold scaled. change (10 ^ Z.of_nat 3) with 1000.
    destruct (Z.ltb_spec M (2 ^ 53)) as [Hlt | Hge].
    - destruct (Z.leb_spec 0 (j - k)); [lia|]. rewrite Z2Pos.id by lia.
      f_equal. lia.
    - destruct (Z.leb_spec 0 (j - k + 1)); [lia|].
      replace M with (2 ^ 53) by lia.
      change (Zpos (Z.to_pos (2 ^ 52)) * 1000) with (2 ^ 52 * 1000).
      change (2 ^ 53 * 1000) with (2 ^ 52 * 1000 * 2 ^ 1).
      replace T with (- (j - k + 1) + 1) by lia.
      now rewrite rne_shift by lia. }
  pose proof (rne_half (M * 1000) T ltac:(lia)) as Hr.
  set (K := rne (M * 1000) T) in *. clearbody K.
  assert (Hnear : Z.abs (K * d - 1000 * n) < d).
  { assert (Hs : Z.abs (K * d - 1000 * n) * (D * 2 ^ T) < d * (D * 2 ^ T)).
    { rewrite <- (Z.abs_eq (D * 2 ^ T)) at 1 by nia.
      rewrite <- Z.abs_mul.
      replace ((K * d - 1000 * n) * (D * 2 ^ T))
        with (d * (D * (K * 2 ^ T - M * 1000) + 1000 * (M * D - N))).
      2:{ transitivity (K * d * D * 2 ^ T - 1000 * (N * d)); [ring|].
          rewrite Hrel'. ring. }
      rewrite Z.abs_mul, (Z.abs_eq d) by lia.
      apply Z.mul_lt_mono_pos_l; [lia|].
      assert (Z.abs (D * (K * 2 ^ T - M * 1000)) = D * Z.abs (K * 2 ^ T - M * 1000))
        by (rewrite Z.abs_mul, (Z.abs_eq D); lia).
      assert (Z.abs (1000 * (M * D - N)) = 1000 * Z.abs (M * D - N))
        by (rewrite Z.abs_mul; reflexivity).
      pose proof (Z.abs_triangle (D * (K * 2 ^ T - M * 1000)) (1000 * (M * D - N))).
      assert (2 * (D * Z.abs (K * 2 ^ T - M * 1000)) <= D * 2 ^ T) by nia.
      assert (1000 < 2 ^ 52) by reflexivity.
      nia. }
    apply Z.mul_lt_mono_pos_r in Hs; [exact Hs | nia]. }
  assert (HK : 0 <= K <= 1000).
  { assert (Hu : K * d < 1001 * d) by lia.
    assert (Hl : (-1) * d < K * d) by lia.
    apply Z.mul_lt_mono_pos_r in Hu; [|lia].
    apply Z.mul_lt_mono_pos_r in Hl; [|lia]. lia. }
  unfold norm53.
  destruct (Z.ltb_spec M (2 ^ 53)) as [Hlt | Hge]; do 2 eexists;
    (split; [reflexivity|]); rewrite Hk'; split; assumption.
Qed.

(** A rate of a table with valid counters is printed with [.3f] as one of
    the numerals 0.000 to 1.000, and as the fraction to three decimals
    where the denominator is below 2^53. *)
Lemma format_f_rate_near n d :
  0 <= n <= d -> d < 2 ^ 63 ->
  exists k, 0 <= k <= 1000 /\
            format_f 3 (safe_div_value (Int n) (Int d)) = fixed_point 3 k /\
            (d < 2 ^ 53 -> three_decimals k n d).
Proof.
  intros Hn Hd.
  destruct (Z.eq_dec d 0) as [-> | Hd0].
  { exists 0. split; [lia|]. split; reflexivity. }
  destruct (Z.eq_dec n 0) as [-> | Hn0].
  { exists 0. split; [lia|]. split.
    - unfold safe_div_value, truthy, float_value.
      destruct (Z.eqb_spec d 0); [contradiction|]. cbn [negb].
      rewrite float_div_zero by (unfold int64; lia).
      destruct (Z.ltb_spec d 0); [lia | reflexivity].
    - intros _. unfold three_decimals.
      destruct (Z.eqb_spec d 0); [contradiction|]. cbn. lia. }
  destruct (Z.lt_ge_cases d (2 ^ 53)) as [Hs | Hl].
  - destruct (rate_thousandths n d ltac:(lia) Hs) as (m & e & Hf & Hk & Hnear).
    exists (scaled 3 m e). split; [exact Hk|]. split.
    + unfold safe_div_value, truthy, float_value.
      destruct (Z.eqb_spec d 0); [contradiction|]. cbn [negb].
      unfold format_f. now rewrite Hf.
    + intros _. unfold three_decimals.
      destruct (Z.eqb_spec d 0); [contradiction | exact Hnear].
  - destruct (format_f_rate n d Hn Hd) as (k & Hk & Hf).
    exists k. split; [exact Hk|]. split; [exact Hf|]. lia.
Qed.

(** X19.  [cmd_summary] prints the win rate and the four season rates
    with three decimals and a percent sign, but prints the fraction
    itself: on a table with valid counters whose totals fit an int64,
    each of the five numerals is one of 0.000 to 1.000, five characters
    long, and where the denominator is below 2^53 it is the fraction to
    three decimals, less than 0.001 away from it (0.000 where the
    denominator is zero); a season won in every match is printed as
    1.000 per cent. *)
Theorem cmd_summary_prints_fractions :
  forall (repr : float -> string) (P : Pandas) (csv : list (Row string))
         (df : DataFrame) (s : Summary.t),
    load_matches P csv = Ok df ->
    compute_summary df = Ok s ->
    Forall rates_valid df ->
    Zsum (col first_serve_total df) < 2 ^ 63 ->
    Zsum (col first_serve_points_total df) < 2 ^ 63 ->
    Zsum (col second_serve_points_total df) < 2 ^ 63 ->
    Zsum (col break_points_faced df) < 2 ^ 63 ->
    Z.of_nat (List.length df) < 2 ^ 63 ->
    (exists k0 k1 k2 k3 k4 : Z,
       Forall (fun k => 0 <= k <= 1000 /\ String.length (fixed_point 3 k) = 5%nat)
              [k0; k1; k2; k3; k4] /\
       stdout (fst (cmd_summary repr P csv)) =
         ["=== Summary ===";
          "Matches: " ++ str_int (Summary.matches s)
            ++ "  Wins: " ++ str_int (Summary.wins s)
            ++ "  Losses: " ++ str_int (Summary.losses s)
            ++ "  Win percentage: " ++ fixed_point 3 k0 ++ "%";
          "Average aces: " ++ format_f 2 (Summary.avg_aces s)
            ++ "   Average double faults: " ++ format_f 2 (Summary.avg_double_faults s);
          "1st serve in percentage: " ++ fixed_point 3 k1 ++ "%";
          "1st serve points won percentage: " ++ fixed_point 3 k2 ++ "%";
          "2nd serve points won percentage: " ++ fixed_point 3 k3 ++ "%";
          "Break points saved percentage: " ++ fixed_point 3 k4 ++ "%";
          newline ++ "Wrote: results/summary.json"]%string /\
       (Z.of_nat (List.length df) < 2 ^ 53 ->
        three_decimals k0 (Summary.wins s) (Summary.matches s)) /\
       (Zsum (col first_serve_total df) < 2 ^ 53 ->
        three_decimals k1 (Zsum (col first_serve_in df))
                          (Zsum (col first_serve_total df))) /\
       (Zsum (col first_serve_points_total df) < 2 ^ 53 ->
        three_decimals k2 (Zsum (col first_serve_points_won df))
                          (Zsum (col first_serve_points_total df))) /\
       (Zsum (col second_serve_points_total df) < 2 ^ 53 ->
        three_decimals k3 (Zsum (col second_serve_points_won df))
                          (Zsum (col second_serve_points_total df))) /\
       (Zsum (col break_points_faced df) < 2 ^ 53 ->
        three_decimals k4 (Zsum (col break_points_saved df))
                          (Zsum (col break_points_faced df)))) /\
    (df <> [] -> Forall (fun r => result r = "W"%string) df ->
     nth 1 (stdout (fst (cmd_summary repr P csv))) EmptyString =
       ("Matches: " ++ str_int (Z.of_nat (List.length df))
        ++ "  Wins: " ++ str_int (Z.of_nat (List.length df))
        ++ "  Losses: 0  Win percentage: 1.000%")%string).
Proof.
  intros repr P csv df s Hload Hs Hv H1 H2 H3 H4 Hlen.
  destruct (cmd_summary_run repr P csv df Hload) as (s' & Hs' & ->).
  assert (s' = s) as -> by congruence. clear Hs'.
  rewrite compute_summary_eq in Hs. injection Hs as <-.
  cbn [Summary.matches Summary.wins Summary.losses Summary.win_rate
       Summary.avg_aces Summary.avg_double_faults Summary.first_serve_pct
       Summary.first_serve_pts_won_pct Summary.second_serve_pts_won_pct
       Summary.break_points_saved_pct fst stdout].
  split.
  2:{ intros Hne Hall. destruct (count_all_wins df Hall) as [-> ->].
      cbn [nth]. rewrite safe_div_value_same; [reflexivity | | unfold int64; lia].
      destruct df; [contradiction | cbn [List.length]; lia]. }
  destruct (count_result_bounds df) as (HW & HL & Hle & _).
  assert (Hrate : forall f g : Row Timestamp -> Z,
             Forall (fun r => 0 <= f r <= g r) df -> Zsum (col g df) < 2 ^ 63 ->
             exists k, 0 <= k <= 1000 /\
               format_f 3 (safe_div_value (Int (wrap64 (Zsum (col f df))))
                                          (Int (wrap64 (Zsum (col g df)))))
               = fixed_point 3 k /\
               (Zsum (col g df) < 2 ^ 53 ->
                three_decimals k (Zsum (col f df)) (Zsum (col g df)))).
  { intros f g Hfg Hg. pose proof (Zsum_le f g df Hfg) as Hsum. unfold col in *.
    rewrite !wrap64_small by (unfold int64; lia). apply format_f_rate_near; lia. }
  destruct (format_f_rate_near (count_result "W" df) (Z.of_nat (List.length df)))
    as (k0 & Hk0 & -> & T0); [lia | lia |].
  destruct (Hrate first_serve_in first_serve_total) as (k1 & Hk1 & -> & T1);
    [eapply Forall_impl; [|exact Hv]; intros r (R1 & R2 & R3 & R4); assumption
    | assumption |].
  destruct (Hrate first_serve_points_won first_serve_points_total) as (k2 & Hk2 & -> & T2);
    [eapply Forall_impl; [|exact Hv]; intros r (R1 & R2 & R3 & R4); assumption
    | assumption |].
  destruct (Hrate second_serve_points_won second_serve_points_total) as (k3 & Hk3 & -> & T3);
    [eapply Forall_impl; [|exact Hv]; intros r (R1 & R2 & R3 & R4); assumption
    | assumption |].
  destruct (Hrate break_points_saved break_points_faced) as (k4 & Hk4 & -> & T4);
    [eapply Forall_impl; [|exact Hv]; intros r (R1 & R2 & R3 & R4); assumption
    | assumption |].
  exists k0, k1, k2, k3, k4.
  split; [repeat constructor; try lia; now apply fixed_point_unit|].
  split; [reflexivity|].
  repeat split; assumption.
Qed.

Lemma cmd_summary_prints_fractions_witness :
  (exists k0 k1 k2 k3 k4 : Z,
     Forall (fun k => 0 <= k <= 1000 /\ String.length (fixed_point 3 k) = 5%nat)
            [k0; k1; k2; k3; k4] /\
     stdout (fst (cmd_summary repr17 pandas_stable
                    [csv_row "2025-10-08" "w" "A"; csv_row "2025-09-01" "W" "B"])) =
       ["=== Summary ===";
        "Matches: 2  Wins: 2  Losses: 0  Win percentage: " ++ fixed_point 3 k0 ++ "%";
        "Average aces: 5.00   Average double faults: 1.00";
        "1st serve in percentage: " ++ fixed_point 3 k1 ++ "%";
        "1st serve points won percentage: " ++ fixed_point 3 k2 ++ "%";
        "2nd serve points won percentage: " ++ fixed_point 3 k3 ++ "%";
        "Break points saved percentage: " ++ fixed_point 3 k4 ++ "%";
        newline ++ "Wrote: results/summary.json"]%string /\
     three_decimals k0 2 2 /\ three_decimals k1 80 100 /\ three_decimals k2 60 80 /\
     three_decimals k3 20 40 /\ three_decimals k4 12 16) /\
  nth 1 (stdout (fst (cmd_summary repr17 pandas_stable
                        [csv_row "2025-10-08" "w" "A"; csv_row "2025-09-01" "W" "B"])))
      EmptyString
  = "Matches: 2  Wins: 2  Losses: 0  Win percentage: 1.000%"%string.
Proof.
  destruct (cmd_summary_prints_fractions repr17 pandas_stable
              [csv_row "2025-10-08" "w" "A"; csv_row "2025-09-01" "W" "B"]
              [table_row 1756684800000000000 "W" "B";
               table_row 1759881600000000000 "W" "A"]
              (Summary.mk 2 2 0 1 5 1 0.8 0.75 0.5 0.75)) as [Hk Hall].
  - reflexivity.
  - reflexivity.
  - repeat constructor; cbn; lia.
  - cbn; lia.
  - cbn; lia.
  - cbn; lia.
  - cbn; lia.
  - cbn; lia.
  - split; [|apply Hall; [discriminate | repeat constructor]].
    destruct Hk as (k0 & k1 & k2 & k3 & k4 & HF & Hout & T0 & T1 & T2 & T3 & T4).
    exists k0, k1, k2, k3, k4. split; [exact HF|]. split; [exact Hout|].
    split; [apply T0; cbn; lia|]. split; [apply T1; cbn; lia|].
    split; [apply T2; cbn; lia|]. split; [apply T3; cbn; lia | apply T4; cbn; lia].
Defined.
